(** * signac.sync: synchronization of jobs and projects

    A shallow embedding of [signac/sync.py]: the document synchronizer
    ([DocSync.ByKey], [DocSync.update]), the modification proxies
    ([_DocProxy], [_FileModifyProxy] with its two scoped backups), the
    workspace walk ([_sync_job_workspaces]) and the two orchestrators
    ([sync_jobs], [sync_projects]), followed by the properties of the
    synchronization engine that were checked against them. *)

From stdpp Require Import base strings list gmap sets pretty.
From Stdlib Require Import ZArith.

Local Open Scope Z_scope.

(** ** Documents

    A document is a (JSON) mapping from string keys to values.  Python
    dictionaries keep their keys in insertion order and compare without
    regard to it, so a mapping is an association list with one entry per
    key, read with [dict_get], written with [dict_set] (in place for a
    known key, at the end for a new one) and compared with [value_eqb]. *)

#[warnings="-register-all"]
Inductive value :=
| VNone
| VInt (n : Z)
| VStr (s : string)
| VMap (items : list (string * value)).

Definition dict := list (string * value).

Fixpoint dict_get {A} (key : string) (d : list (string * A)) : option A :=
  match d with
  | [] => None
  | (k, v) :: d' => if String.eqb k key then Some v else dict_get key d'
  end.

Fixpoint dict_set {A} (key : string) (v : A) (d : list (string * A))
  : list (string * A) :=
  match d with
  | [] => [(key, v)]
  | (k, w) :: d' =>
      if String.eqb k key then (k, v) :: d' else (k, w) :: dict_set key v d'
  end.

Definition dict_contains {A} (key : string) (d : list (string * A)) : bool :=
  match dict_get key d with Some _ => true | None => false end.

Fixpoint dict_del {A} (key : string) (d : list (string * A))
  : list (string * A) :=
  match d with
  | [] => []
  | (k, w) :: d' =>
      if String.eqb k key then dict_del key d' else (k, w) :: dict_del key d'
  end.

Definition dict_keys {A} (d : list (string * A)) : list string := d.*1.

(** [a == b] on values; on mappings: as many keys, and every key of [a]
    is a key of [b] with an equal value. *)
Fixpoint value_eqb (a b : value) {struct a} : bool :=
  match a, b with
  | VNone, VNone => true
  | VInt x, VInt y => Z.eqb x y
  | VStr x, VStr y => String.eqb x y
  | VMap m, VMap n =>
      Nat.eqb (length m) (length n)
      && (fix all (l : list (string * value)) : bool :=
            match l with
            | [] => true
            | (k, v) :: l' =>
                match dict_get k n with
                | Some w => value_eqb v w
                | None => false
                end && all l'
            end) m
  | _, _ => false
  end.

(** [isinstance(value, Mapping)] *)
Definition is_mapping (v : value) : bool :=
  match v with VMap _ => true | _ => false end.

(** ** Exceptions and outcomes

    A call either returns or raises; in both cases the mutable objects
    it worked on are left in some state, which the outcome carries. *)

Inductive exn :=
| DocumentSyncConflict (keys : gset string)
| FileSyncConflict (filename : string)
| SchemaSyncConflict
| DestinationExistsError
| RuntimeError
| ValueError
| TypeError
| AttributeError
| OSError.

Inductive outcome (S : Type) :=
| Done (s : S)
| Raised (e : exn) (s : S).
Arguments Done {S} s.
Arguments Raised {S} e s.

Definition final {S} (o : outcome S) : S :=
  match o with Done s => s | Raised _ s => s end.

Definition raised {S} (o : outcome S) : option exn :=
  match o with Done _ => None | Raised e _ => Some e end.

Definition bind {S T} (o : outcome S) (lift : S → T) (k : S → outcome T)
  : outcome T :=
  match o with
  | Done s => k s
  | Raised e s => Raised e (lift s)
  end.

Notation "'let*' s ':=' o 'in' k" := (bind o id (λ s, k))
  (at level 10, s name, o at level 100, k at level 200, only parsing).

(** ** DocSync *)

Module DocSync.

(** [dst[key] = value] on the object the call was given.  At top level
    under [sync_jobs] this object is a [_DocProxy], whose [__setitem__]
    drops the write when [dry_run] is set; every nested call gets
    [dst[key]], which [_DocProxy.__getitem__] hands out unwrapped. *)
Definition setitem (dry_run : bool) (key : string) (v : value)
    (d : dict) : value :=
  if dry_run then VMap d else VMap (dict_set key v d).

(** The [for key, value in src.items()] loop of [ByKey.__call__];
    [nested] stands for the recursive call [self(src[key], dst[key],
    key + '.')].  The nested mapping [dst[key]] is shared with [dst], so
    what the nested call leaves of it is what [dst] holds at [key]
    afterwards.  A [dst] that is no mapping supports neither [key in
    dst] (or answers it as a substring test) nor item access. *)
Definition items_loop
    (nested : value → value → string → gset string
              → outcome (value * gset string))
    (ks : option (string → bool)) (dry_run : bool) (root : string)
  : list (string * value) → value → gset string
    → outcome (value * gset string) :=
  fix loop items dst skipped :=
    match items with
    | [] => Done (dst, skipped)
    | (key, value) :: items' =>
        match dst with
        | VMap d =>
            match dict_get key d with
            | Some dv =>
                if value_eqb dv value then loop items' dst skipped
                else if is_mapping value then
                  match nested value dv (key +:+ ".") skipped with
                  | Done (dv', skipped') =>
                      loop items' (VMap (dict_set key dv' d)) skipped'
                  | Raised e (dv', skipped') =>
                      Raised e (VMap (dict_set key dv' d), skipped')
                  end
                else if match ks with
                        | None => true
                        | Some f => negb (f (root +:+ key))
                        end
                then loop items' dst ({[ root +:+ key ]} ∪ skipped)
                else loop items' (setitem dry_run key value d) skipped
            | None => loop items' (setitem dry_run key value d) skipped
            end
        | _ => Raised TypeError (dst, skipped)
        end
    end.

(** The check that ends [ByKey.__call__]: with skipped keys on record
    and at top level ([root] empty), raise unless a key strategy was
    given (then the keys are only logged). *)
Definition check_skipped (ks : option (string → bool)) (root : string)
    (s : value * gset string) : outcome (value * gset string) :=
  if bool_decide (s.2 ≠ ∅) && bool_decide (root = "")
  then match ks with
       | None => Raised (DocumentSyncConflict s.2) s
       | Some _ => Done s
       end
  else Done s.

(** [ByKey.__call__(src, dst, root)].  [dry_run] is the flag of the
    proxy standing for [dst] ([false] for a plain mapping).  A [src]
    that is no mapping and differs from [dst] has no [items]. *)
Fixpoint call (ks : option (string → bool)) (dry_run : bool)
    (src dst : value) (root : string) (skipped : gset string) {struct src}
  : outcome (value * gset string) :=
  if value_eqb src dst then Done (dst, skipped) else
  match src with
  | VMap items =>
      let* s := items_loop (call ks false) ks dry_run root items dst skipped in
      check_skipped ks root s
  | _ => Raised AttributeError (dst, skipped)
  end.

End DocSync.

(** ** Files and directories

    A regular file has a modification time and a content; a document
    file is kept in parsed form.  A directory maps names to nodes and
    keeps them in name order, the order in which [filecmp.dircmp] lists
    them (it sorts what [os.listdir] returns). *)

Inductive fdata :=
| Text (s : string)
| Json (d : dict).

#[warnings="-register-all"]
Inductive node :=
| File (mtime : Z) (data : fdata)
| Dir (entries : list (string * node)).

Definition dir := list (string * node).
Definition path := list string.

(** [os.path.join] of the components of a relative path. *)
Fixpoint path_str (p : path) : string :=
  match p with
  | [] => ""
  | [x] => x
  | x :: p' => x +:+ "/" +:+ path_str p'
  end.

(** [path + suffix] *)
Fixpoint path_suffix (p : path) (suffix : string) : path :=
  match p with
  | [] => [suffix]
  | [x] => [x +:+ suffix]
  | x :: p' => x :: path_suffix p' suffix
  end.

Fixpoint dir_put (name : string) (n : node) (d : dir) : dir :=
  match d with
  | [] => [(name, n)]
  | (k, m) :: d' =>
      if String.eqb k name then (k, n) :: d'
      else if String.ltb name k then (name, n) :: (k, m) :: d'
      else (k, m) :: dir_put name n d'
  end.

Fixpoint get_node (p : path) (n : node) : option node :=
  match p with
  | [] => Some n
  | x :: p' =>
      match n with
      | Dir es => c ← dict_get x es; get_node p' c
      | File _ _ => None
      end
  end.

(** Bind the node [new] at [p]; the directory that is to hold it must
    exist. *)
Fixpoint put_node (p : path) (new : node) (n : node) : option node :=
  match p, n with
  | [], _ => Some new
  | [x], Dir es => Some (Dir (dir_put x new es))
  | x :: p', Dir es =>
      c ← dict_get x es; c' ← put_node p' new c; Some (Dir (dir_put x c' es))
  | _ :: _, File _ _ => None
  end.

Fixpoint del_node (p : path) (n : node) : option node :=
  match p, n with
  | [], _ => None
  | [x], Dir es => if dict_contains x es then Some (Dir (dict_del x es)) else None
  | x :: p', Dir es =>
      c ← dict_get x es; c' ← del_node p' c; Some (Dir (dir_put x c' es))
  | _ :: _, File _ _ => None
  end.

Definition is_file (n : option node) : bool :=
  match n with Some (File _ _) => true | _ => false end.

Definition is_dir (n : option node) : bool :=
  match n with Some (Dir _) => true | _ => false end.

(** [os.path.isfile], [os.path.isdir] *)
Definition isfile (p : path) (root : node) : bool := is_file (get_node p root).
Definition isdir (p : path) (root : node) : bool := is_dir (get_node p root).

(** Bytewise comparison of two file contents. *)
Fixpoint value_same (a b : value) {struct a} : bool :=
  match a, b with
  | VNone, VNone => true
  | VInt x, VInt y => Z.eqb x y
  | VStr x, VStr y => String.eqb x y
  | VMap m, VMap n =>
      (fix same (l r : list (string * value)) : bool :=
         match l, r with
         | [], [] => true
         | (k, v) :: l', (k', v') :: r' =>
             String.eqb k k' && value_same v v' && same l' r'
         | _, _ => false
         end) m n
  | _, _ => false
  end.

Definition fdata_same (a b : fdata) : bool :=
  match a, b with
  | Text s, Text t => String.eqb s t
  | Json d, Json e => value_same (VMap d) (VMap e)
  | _, _ => false
  end.

(** [json.dumps], for the size of a document file. *)
Definition quoted (s : string) : string :=
  let q := String.String (Ascii.ascii_of_nat 34) "" in q +:+ s +:+ q.

Fixpoint dumps (v : value) : string :=
  match v with
  | VNone => "null"
  | VInt n => pretty n
  | VStr s => quoted s
  | VMap m =>
      "{" +:+
      (fix items (l : list (string * value)) : string :=
         match l with
         | [] => ""
         | [(k, w)] => quoted k +:+ ": " +:+ dumps w
         | (k, w) :: l' => quoted k +:+ ": " +:+ dumps w +:+ ", " +:+ items l'
         end) m
      +:+ "}"
  end.

Definition st_size (d : fdata) : nat :=
  match d with
  | Text s => String.length s
  | Json m => String.length (dumps (VMap m))
  end.

(** [filecmp.cmp(f1, f2, shallow)] *)
Definition cmp (shallow : bool) (f1 f2 : node) : bool :=
  match f1, f2 with
  | File t1 d1, File t2 d2 =>
      if shallow && Z.eqb t1 t2 && Nat.eqb (st_size d1) (st_size d2) then true
      else if negb (Nat.eqb (st_size d1) (st_size d2)) then false
      else fdata_same d1 d2
  | _, _ => false
  end.

(** *** filecmp.dircmp

    Only the attributes the walk reads: [left_only], [diff_files] and
    the keys of [subdirs], each in listing order.  [dircmp] is built with
    its default [ignore] list; [dircmp_deep] differs in comparing the
    common files by content alone. *)

Definition DEFAULT_IGNORES : list string :=
  ["RCS"; "CVS"; "tags"; ".git"; ".hg"; ".bzr"; "_darcs"; "__pycache__"].

Definition listed (name : string) : bool :=
  negb (bool_decide (name ∈ DEFAULT_IGNORES)).

Definition left_list (left : dir) : list (string * node) :=
  filter (λ e, listed e.1 = true) left.

Definition left_only (left right : dir) : list (string * node) :=
  filter (λ e, dict_contains e.1 (left_list right) = false) (left_list left).

Definition common (left right : dir) : list (string * node) :=
  filter (λ e, dict_contains e.1 (left_list right) = true) (left_list left).

Definition common_files (left right : dir) : list (string * node) :=
  filter (λ e, is_file (Some e.2) && is_file (dict_get e.1 right) = true)
    (common left right).

Definition common_dirs (left right : dir) : list (string * node) :=
  filter (λ e, is_dir (Some e.2) && is_dir (dict_get e.1 right) = true)
    (common left right).

Definition diff_files (deep : bool) (left right : dir) : list (string * node) :=
  filter (λ e, match dict_get e.1 right with
               | Some r => negb (cmp (negb deep) e.2 r)
               | None => false
               end = true) (common_files left right).

(** *** shutil and os

    [None] stands for the [OSError] the call raises. *)

Definition as_dir (n : option node) : option dir :=
  match n with Some (Dir d) => Some d | _ => None end.

(** [shutil.copy(src, dst)]: the content of the file [src] under
    [src_root] becomes that of [dst] under [root] (of the file of that
    name in [dst] when [dst] is a directory), written at time [now]. *)
Definition shutil_copy (now : Z) (src_root : dir) (src dst : path)
    (root : dir) : option dir :=
  match get_node src (Dir src_root) with
  | Some (File _ data) =>
      let dst := if isdir dst (Dir root) then dst ++ [default "" (last src)]
                 else dst in
      if isdir dst (Dir root) then None
      else as_dir (put_node dst (File now data) (Dir root))
  | _ => None
  end.

(** [shutil.copytree(src, dst)]: [dst] must not exist; files keep
    their modification times ([copy2]). *)
Definition shutil_copytree (src_root : dir) (src dst : path) (root : dir)
  : option dir :=
  match get_node src (Dir src_root), get_node dst (Dir root) with
  | Some (Dir es), None => as_dir (put_node dst (Dir es) (Dir root))
  | _, _ => None
  end.

(** [os.remove(path)] *)
Definition os_remove (p : path) (root : dir) : option dir :=
  if isfile p (Dir root) then as_dir (del_node p (Dir root)) else None.

(** ** The objects being modified

    A job or a project owns a directory and a document.  The document is
    either a [JSonDict] bound to a file of that directory, read and
    written through on every access, or a plain mapping held in memory
    (no [filename] attribute).  Together with the [skipped_keys] of the
    [ByKey] functor in use, this is what a synchronization call can
    change. *)

Inductive document :=
| JSonDict (filename : string)
| PlainDict (d : dict).

Record world := {
  files : dir;
  doc : document;
  skipped : gset string
}.

Definition with_files (d : dir) (w : world) : world :=
  {| files := d; doc := doc w; skipped := skipped w |}.

Definition with_skipped (s : gset string) (w : world) : world :=
  {| files := files w; doc := doc w; skipped := s |}.

(** Modelled from the spec: the Document handle consumed from the
    collaborators ([job.documentHandle()]), "mutable key-value mapping;
    may be backed by a file or held only in memory".  A missing file
    reads as the empty mapping; a write rewrites the file. *)
Definition load (w : world) : dict :=
  match doc w with
  | PlainDict d => d
  | JSonDict fn =>
      match dict_get fn (files w) with
      | Some (File _ (Json d)) => d
      | _ => []
      end
  end.

Definition save (now : Z) (d : dict) (w : world) : world :=
  match doc w with
  | PlainDict _ =>
      {| files := files w; doc := PlainDict d; skipped := skipped w |}
  | JSonDict fn => with_files (dir_put fn (File now (Json d)) (files w)) w
  end.

Definition try_except {S} (o : outcome S) (handler : exn → S → outcome S)
  : outcome S :=
  match o with
  | Done s => Done s
  | Raised e s => handler e s
  end.

(** A bare [raise] at the end of a handler whose own statements are [o]. *)
Definition reraise {S} (e : exn) (o : outcome S) : outcome S :=
  match o with
  | Done s => Raised e s
  | Raised e' s => Raised e' s
  end.

Definition try_finally {S} (o : outcome S) (cleanup : S → outcome S)
  : outcome S :=
  match o with
  | Done s => cleanup s
  | Raised e s => reraise e (cleanup s)
  end.

Definition for_each {A S} (f : A → S → outcome S) : list A → S → outcome S :=
  fix go l s :=
    match l with
    | [] => Done s
    | a :: l' =>
        match f a s with
        | Done s' => go l' s'
        | Raised e s' => Raised e s'
        end
    end.

Definition os_result (w : world) (r : option dir) : outcome world :=
  match r with
  | Some d => Done (with_files d w)
  | None => Raised OSError w
  end.

Section Sync.

(** The time stamped on what this run writes. *)
Variable now : Z.

(** [re.match(pattern, string)], as a truth value. *)
Variable re_match : string → string → bool.

(** *** _DocProxy *)

Definition _DocProxy_len (w : world) : nat := length (load w).

Definition _DocProxy_setitem (dry_run : bool) (key : string) (v : value)
    (w : world) : world :=
  if dry_run then w else save now (dict_set key v (load w)) w.

Definition _DocProxy_clear (w : world) : world := save now [] w.

Definition _DocProxy_update (dry_run : bool) (other : dict) (w : world)
  : world :=
  foldl (λ w key,
           match dict_get key other with
           | Some v => _DocProxy_setitem dry_run key v w
           | None => w
           end) w (dict_keys other).

(** [DocSync.update(src, dst)], [dst] being the proxy. *)
Definition DocSync_update (dry_run : bool) (src : dict) (w : world) : world :=
  foldl (λ w key,
           match dict_get key src with
           | Some v => _DocProxy_setitem dry_run key v w
           | None => w
           end) w (dict_keys src).

(** *** _FileModifyProxy

    [copy] and [copytree] read below [src_root]; inside the backup
    guards that is the directory being written to. *)

Definition copy (dry_run : bool) (src_root : dir) (src dst : path)
    (w : world) : outcome world :=
  if dry_run then Done w
  else os_result w (shutil_copy now src_root src dst (files w)).

Definition copytree (dry_run : bool) (src_root : dir) (src dst : path)
    (w : world) : outcome world :=
  if dry_run then Done w
  else os_result w (shutil_copytree src_root src dst (files w)).

Definition remove (dry_run : bool) (p : path) (w : world) : outcome world :=
  if dry_run then Done w
  else os_result w (os_remove p (files w)).

(** [with proxy.create_backup(path): body] *)
Definition create_backup (dry_run : bool) (p : path)
    (body : world → outcome world) (w : world) : outcome world :=
  let path_backup := path_suffix p "~" in
  if isfile path_backup (Dir (files w)) then Raised RuntimeError w
  else
    try_finally
      (try_except
         (let* w := copy dry_run (files w) p path_backup w in
          body w)
         (λ e w, reraise e (copy dry_run (files w) path_backup p w)))
      (λ w, remove dry_run path_backup w).

(** [with proxy.create_doc_backup(doc) as proxy: body]; the body is
    given the [dry_run] flag of the [_DocProxy] it works on. *)
Definition create_doc_backup (dry_run : bool)
    (body : bool → world → outcome world) (w : world) : outcome world :=
  let fn := match doc w with
            | JSonDict fn => Some fn
            | PlainDict _ => None
            end in
  match fn with
  | Some fn =>
      if bool_decide (_DocProxy_len w = 0%nat)
         || negb (isfile [fn] (Dir (files w)))
      then
        let backup := load w in
        try_except (body dry_run w)
          (λ e w, Raised e (_DocProxy_update dry_run backup (_DocProxy_clear w)))
      else create_backup dry_run [fn] (body dry_run) w
  | None =>
      let backup := load w in
      try_except (body dry_run w)
        (λ e w, Raised e (_DocProxy_update dry_run backup (_DocProxy_clear w)))
  end.

(** *** FileSync

    A strategy is asked about the source job, the destination job and
    the path of the conflicting file below their workspaces
    ([os.path.join(subdir, fn)], here by its components). *)

Definition strategy := dir → dir → path → bool.

Definition getmtime (p : path) (root : dir) : Z :=
  match get_node p (Dir root) with
  | Some (File t _) => t
  | _ => 0
  end.

Definition FileSync_always : strategy := λ src dst fn, true.
Definition FileSync_never : strategy := λ src dst fn, false.
Definition FileSync_update : strategy :=
  λ src dst fn, Z.ltb (getmtime fn dst) (getmtime fn src).

(** *** Jobs *)

Definition FN_MANIFEST : string := "signac_statepoint.json".
Definition FN_DOCUMENT : string := "signac_job_document.json".

(** Modelled from the spec: the Job consumed from the collaborators,
    "identified by its StatePoint hash; owns a Workspace (directory of
    arbitrary files) and a Document ... plus a manifest file";
    [job_files] is [None] as long as the job is not materialized. *)
Record job := {
  get_id : string;
  statepoint : dict;
  workspace : string;
  job_files : option dir;
  job_document : document
}.

Definition with_job_files (d : option dir) (j : job) : job :=
  {| get_id := get_id j; statepoint := statepoint j;
     workspace := workspace j; job_files := d;
     job_document := job_document j |}.

(** Modelled from the spec: [job.init()], "ensure the destination job
    is materialized": the workspace directory and its manifest exist
    afterwards. *)
Definition init (j : job) : job :=
  match job_files j with
  | Some d =>
      if dict_contains FN_MANIFEST d then j
      else with_job_files
             (Some (dir_put FN_MANIFEST (File now (Json (statepoint j))) d)) j
  | None =>
      with_job_files (Some [(FN_MANIFEST, File now (Json (statepoint j)))]) j
  end.

Definition job_world (j : job) (skipped : gset string) : world :=
  {| files := default [] (job_files j); doc := job_document j;
     skipped := skipped |}.

Definition world_job (j : job) (w : world) : job :=
  {| get_id := get_id j; statepoint := statepoint j;
     workspace := workspace j; job_files := Some (files w);
     job_document := doc w |}.

(** *** _sync_job_workspaces *)

(** [exclude and any([re.match(p, fn) for p in exclude])] *)
Definition excluded (exclude : list string) (fn : string) : bool :=
  bool_decide (exclude ≠ []) && existsb (λ p, re_match p fn) exclude.

Definition is_subdir (left right : dir) (e : string * node) : bool :=
  bool_decide (e.1 ∈ (common_dirs left right).*1).

(** [_sync_job_workspaces(src, dst, strategy, exclude, proxy, subdir,
    deep)].  [left_dir] is the directory [src.fn(subdir)], [src] the
    source workspace as a whole; the destination workspace is
    [files w].  [dircmp] computes its attributes when they are first
    read; the first loop only adds names the destination directory
    lacks, so the attributes read later are those of the start. *)
Fixpoint _sync_job_workspaces (src : dir) (strategy : option strategy)
    (exclude : list string) (dry_run deep : bool)
    (left_dir : node) (subdir : path) (w : world) {struct left_dir}
  : outcome world :=
  match left_dir, get_node subdir (Dir (files w)) with
  | Dir l, Some (Dir r) =>
      let* w :=
        for_each (λ e w,
            let fn := e.1 in
            if excluded exclude fn then Done w
            else if is_file (Some e.2)
                 then copy dry_run src (subdir ++ [fn]) (subdir ++ [fn]) w
                 else copytree dry_run src (subdir ++ [fn]) (subdir ++ [fn]) w)
          (left_only l r) w in
      let* w :=
        for_each (λ e w,
            let fn := e.1 in
            if excluded exclude fn then Done w
            else match strategy with
                 | None => Raised (FileSyncConflict fn) w
                 | Some strategy =>
                     if strategy src (files w) (subdir ++ [fn])
                     then copy dry_run src (subdir ++ [fn]) (subdir ++ [fn]) w
                     else Done w
                 end)
          (diff_files deep l r) w in
      for_each (λ e w,
          if is_subdir l r e
          then _sync_job_workspaces src strategy exclude dry_run deep
                 e.2 (subdir ++ [e.1]) w
          else Done w)
        l w
  | _, _ => Raised OSError w
  end.

(** *** sync_jobs *)

(** The document synchronization functions of [DocSync].  A [ByKey]
    functor is given by the key strategy fixed in [__init__] (a regular
    expression has been turned into its match predicate there); its set
    [skipped_keys], created empty by [__init__] and only ever added to,
    is part of the state. *)
Inductive doc_sync :=
| NO_SYNC
| COPY
| update
| ByKey (key_strategy : option (string → bool)).

(** [doc_sync(src.document, dst_proxy)]; the [skipped_keys] of a
    [ByKey] functor are [skipped w].  [ByKey] only ever writes a new key
    or a value that differs from the one it replaces, so the document
    has been written to exactly when it is not what it was. *)
Definition call_doc_sync (f : doc_sync) (src : dict) (dry_run : bool)
    (w : world) : outcome world :=
  match f with
  | ByKey ks =>
      let store (s : value * gset string) : world :=
        let w := with_skipped s.2 w in
        match s.1 with
        | VMap d => if value_same (VMap d) (VMap (load w)) then w
                    else save now d w
        | _ => w
        end in
      match DocSync.call ks dry_run (VMap src) (VMap (load w)) ""
              (skipped w) with
      | Done s => Done (store s)
      | Raised e s => Raised e (store s)
      end
  | update => Done (DocSync_update dry_run src w)
  | NO_SYNC | COPY => Done w
  end.

Definition is_COPY (f : doc_sync) : bool :=
  match f with COPY => true | _ => false end.

Definition syncs_documents (f : doc_sync) : bool :=
  match f with NO_SYNC | COPY => false | _ => true end.

(** [sync_jobs(src, dst, strategy, exclude, doc_sync, dry_run, deep)]
    with [exclude] already a list.  [doc_sync = None] makes the call
    build a [ByKey()] of its own, otherwise [skipped_keys] is the state of
    the functor that was passed.  The outcome is the destination job
    and the skipped keys of the caller's functor. *)
Definition sync_jobs (src dst : job) (strategy : option strategy)
    (exclude : list string) (doc_sync : option doc_sync)
    (skipped_keys : gset string) (dry_run deep : bool)
  : outcome (job * gset string) :=
  if String.eqb (workspace src) (workspace dst)
  then Raised ValueError (dst, skipped_keys)
  else
    match job_files src with
    | None => Done (dst, skipped_keys)
    | Some src_files =>
        let f := default (ByKey None) doc_sync in
        let own := match doc_sync with None => ∅ | Some _ => skipped_keys end in
        let exclude := exclude ++ [FN_MANIFEST] in
        let exclude :=
          if is_COPY f then exclude else exclude ++ [FN_DOCUMENT] in
        let dst := init dst in
        let back (w : world) : job * gset string :=
          (world_job dst w,
           match doc_sync with None => skipped_keys | Some _ => skipped w end) in
        bind
          (let* w := _sync_job_workspaces src_files strategy exclude dry_run
                       deep (Dir src_files) [] (job_world dst own) in
           if syncs_documents f
           then create_doc_backup dry_run
                  (call_doc_sync f (load (job_world src ∅))) w
           else Done w)
          back (λ w, Done (back w))
    end.

(** *** Projects *)

(** Modelled from the spec: the Project consumed from the
    collaborators, "a root directory containing zero or more Jobs plus
    one project-level Document"; [jobs] holds the jobs by ID
    ([project.jobById]) and [detect_schema] the "comparable structural
    summary" of their state points. *)
Record project := {
  root_directory : string;
  project_files : dir;
  project_document : document;
  jobs : gmap string job;
  detect_schema : gset string
}.

Definition with_jobs (js : gmap string job) (p : project) : project :=
  {| root_directory := root_directory p; project_files := project_files p;
     project_document := project_document p; jobs := js;
     detect_schema := detect_schema p |}.

Definition project_world (p : project) (skipped : gset string) : world :=
  {| files := project_files p; doc := project_document p;
     skipped := skipped |}.

Definition world_project (p : project) (w : world) : project :=
  {| root_directory := root_directory p; project_files := files w;
     project_document := doc w; jobs := jobs p;
     detect_schema := detect_schema p |}.

(** Modelled from the spec: [project.cloneJobFrom(otherJob)], "clone it
    wholesale into destination (full workspace + document copy)",
    which "raises a destination already exists signal when the target
    job ID is already present" ([None] here). *)
Definition cloned_job (destination : project) (src_job : job) : job :=
  {| get_id := get_id src_job; statepoint := statepoint src_job;
     workspace := root_directory destination +:+ "/workspace/"
                  +:+ get_id src_job;
     job_files := job_files src_job;
     job_document := job_document src_job |}.

Definition clone (destination : project) (src_job : job) : option project :=
  match jobs destination !! get_id src_job with
  | Some _ => None
  | None =>
      Some (with_jobs
              (<[get_id src_job := cloned_job destination src_job]>
                 (jobs destination))
              destination)
  end.

(** What a project synchronization has changed so far: the destination
    project, the skipped keys of the [ByKey] functor it uses, and the
    two counters [count[1]] and [count[2]]. *)
Record progress := {
  destination_now : project;
  skipped_now : gset string;
  num_cloned : nat;
  num_synchronized : nat
}.

(** The local function [_clone_or_sync(src_job)] of [sync_projects];
    it answers 1 for a clone and 2 for a synchronization (the second
    component, which counts when the call returns). *)
Definition _clone_or_sync (strategy : option strategy)
    (exclude : list string) (f : doc_sync) (dry_run : bool)
    (src_job : job) (st : project * gset string)
  : outcome (project * gset string) * nat :=
  let '(destination, skipped_keys) := st in
  match clone destination src_job with
  | Some destination' => (Done (destination', skipped_keys), 1%nat)
  | None =>
      match jobs destination !! get_id src_job with
      | Some dst_job =>
          (bind (sync_jobs src_job dst_job strategy exclude (Some f)
                   skipped_keys dry_run false)
             (λ r, (with_jobs (<[get_id src_job := r.1]> (jobs destination))
                      destination, r.2))
             (λ r, Done (with_jobs (<[get_id src_job := r.1]>
                                      (jobs destination))
                           destination, r.2)),
           2%nat)
      | None => (Raised DestinationExistsError st, 2%nat)
      end
  end.

Definition count (ret : nat) (p : progress) (st : project * gset string)
  : progress :=
  {| destination_now := st.1; skipped_now := st.2;
     num_cloned := if Nat.eqb ret 1 then S (num_cloned p) else num_cloned p;
     num_synchronized :=
       if Nat.eqb ret 2 then S (num_synchronized p)
       else num_synchronized p |}.

(** [list(source)] *)
Definition project_iter (p : project) : list job := (map_to_list (jobs p)).*2.

(** The jobs to synchronize: all of them, or those whose ID is in the
    selection. *)
Definition jobs_to_sync (source : project) (selection : option (gset string))
  : list job :=
  match selection with
  | None => project_iter source
  | Some selection =>
      filter (λ j, get_id j ∈ selection) (project_iter source)
  end.

(** One round of [for i, src_job in enumerate(jobs_to_sync)]. *)
Definition clone_or_sync_job (strategy : option strategy)
    (exclude : list string) (f : doc_sync) (dry_run : bool)
    (src_job : job) (p : progress) : outcome progress :=
  let r := _clone_or_sync strategy exclude f dry_run src_job
             (destination_now p, skipped_now p) in
  match r.1 with
  | Done st => Done (count r.2 p st)
  | Raised e st => Raised e (count 0 p st)
  end.

(** [sync_projects(source, destination, strategy, exclude, doc_sync,
    selection, check_schema, dry_run)] without [parallel]: the jobs
    are cloned or synchronized one after the other.  The function
    returns nothing; the counters it logs at the end are in the
    outcome. *)
Definition sync_projects (source destination : project)
    (strategy : option strategy) (exclude : list string)
    (doc_sync : option doc_sync) (skipped_keys : gset string)
    (selection : option (gset string)) (check_schema dry_run : bool)
  : outcome progress :=
  let start := {| destination_now := destination;
                  skipped_now := skipped_keys;
                  num_cloned := 0; num_synchronized := 0 |} in
  if String.eqb (root_directory source) (root_directory destination)
  then Raised ValueError start
  else
    let schema_src := detect_schema source in
    let schema_dst := detect_schema destination in
    if check_schema
       && bool_decide (schema_dst ≠ ∅) && bool_decide (schema_src ≠ ∅)
       && bool_decide (schema_src ≠ schema_dst)
       && (bool_decide (schema_src ∖ schema_dst ≠ ∅)
           || bool_decide (schema_dst ∖ schema_src ≠ ∅))
    then Raised SchemaSyncConflict start
    else
      let f := default (ByKey None) doc_sync in
      let own := match doc_sync with None => ∅ | Some _ => skipped_keys end in
      let back (w : world) : progress :=
        {| destination_now := world_project destination w;
           skipped_now := skipped w;
           num_cloned := 0; num_synchronized := 0 |} in
      let* p :=
        bind
          (if syncs_documents f
           then create_doc_backup dry_run
                  (call_doc_sync f (load (project_world source ∅)))
                  (project_world destination own)
           else Done (project_world destination own))
          back (λ w, Done (back w)) in
      for_each (clone_or_sync_job strategy exclude f dry_run)
        (jobs_to_sync source selection) p.

End Sync.

(** ** FileSync.Ask

    The strategy that asks the user about each conflicting file name
    and remembers the answers in its two sets.  [query_yes_no(question,
    default)] reads the answer from the terminal: here it is a function
    of the input that is still to come. *)

Section Ask.

Variable input : Type.
Variable query_yes_no : string → string → input → bool * input.

(** The sets [self.yes] and [self.no]. *)
Record Ask := {
  yes : gset string;
  no : gset string
}.

(** [Ask.__init__] *)
Definition Ask_init : Ask := {| yes := ∅; no := ∅ |}.

(** [Ask.__call__(src, dst, fn)]: the decision, the functor and the
    input afterwards. *)
Definition Ask_call (a : Ask) (fn : string) (i : input) : bool * Ask * input :=
  if bool_decide (fn ∈ yes a) then (true, a, i)
  else if bool_decide (fn ∈ no a) then (false, a, i)
  else
    match query_yes_no ("Overwrite files named '" +:+ fn +:+ "'?") "no" i with
    | (true, i') => (true, {| yes := {[ fn ]} ∪ yes a; no := no a |}, i')
    | (false, i') => (false, {| yes := yes a; no := {[ fn ]} ∪ no a |}, i')
    end.

(** The functor and the input after it has been asked about each of
    [fns] in turn. *)
Fixpoint Ask_calls (a : Ask) (fns : list string) (i : input) : Ask * input :=
  match fns with
  | [] => (a, i)
  | fn :: fns' =>
      match Ask_call a fn i with
      | (_, a', i') => Ask_calls a' fns' i'
      end
  end.

(** The decision on [fn] is [b] for good. *)
Definition decided (a : Ask) (fn : string) (b : bool) : Prop :=
  match b with
  | true => fn ∈ yes a
  | false => (fn ∉ yes a) ∧ (fn ∈ no a)
  end.

End Ask.

(** ** Induction on values and on directory trees *)

Section value_induction.

Variable P : value → Prop.
Hypothesis HNone : P VNone.
Hypothesis HInt : ∀ n, P (VInt n).
Hypothesis HStr : ∀ s, P (VStr s).
Hypothesis HMap : ∀ items, Forall (λ e, P e.2) items → P (VMap items).

Fixpoint value_nested_ind (v : value) : P v :=
  match v with
  | VNone => HNone
  | VInt n => HInt n
  | VStr s => HStr s
  | VMap items =>
      HMap items
        ((fix go (l : list (string * value)) : Forall (λ e, P e.2) l :=
            match l with
            | [] => Forall_nil_2 _
            | e :: l' => Forall_cons_2 _ _ _ (value_nested_ind e.2) (go l')
            end) items)
  end.

End value_induction.

Section node_induction.

Variable P : node → Prop.
Hypothesis HFile : ∀ t data, P (File t data).
Hypothesis HDir : ∀ es, Forall (λ e, P e.2) es → P (Dir es).

Fixpoint node_nested_ind (n : node) : P n :=
  match n with
  | File t data => HFile t data
  | Dir es =>
      HDir es
        ((fix go (l : list (string * node)) : Forall (λ e, P e.2) l :=
            match l with
            | [] => Forall_nil_2 _
            | e :: l' => Forall_cons_2 _ _ _ (node_nested_ind e.2) (go l')
            end) es)
  end.

End node_induction.

(** ** Well-formed mappings and directories

    A mapping has one entry per key and a directory one entry per
    name, at every level. *)

Fixpoint value_wf (v : value) : bool :=
  match v with
  | VMap m =>
      bool_decide (NoDup m.*1)
      && (fix all (l : list (string * value)) : bool :=
            match l with
            | [] => true
            | e :: l' => value_wf e.2 && all l'
            end) m
  | _ => true
  end.

Fixpoint node_wf (n : node) : bool :=
  match n with
  | File _ _ => true
  | Dir es =>
      bool_decide (NoDup es.*1)
      && (fix all (l : list (string * node)) : bool :=
            match l with
            | [] => true
            | e :: l' => node_wf e.2 && all l'
            end) es
  end.

(** ** Notions used in the statements *)

(** [skipped_keys] only grows. *)
Definition grows (sk : gset string) (o : outcome (value * gset string)) : Prop :=
  sk ⊆ (final o).2.

(** With a key strategy, [DocumentSyncConflict] is never raised: a call
    on a mapping returns, or fails on a destination value that is no
    mapping. *)
Definition returns_or_type_error (o : outcome (value * gset string)) : Prop :=
  raised o = None ∨ raised o = Some TypeError.

(** Two paths that name different entries of one directory. *)
Inductive siblings : path → path → Prop :=
| siblings_here x y : x ≠ y → siblings [x] [y]
| siblings_below z p q : siblings p q → siblings (z :: p) (z :: q).

Definition file_at (p : path) (w : world) : option node :=
  get_node p (Dir (files w)).

(** Every job of the project is filed under its own ID. *)
Definition project_wf (p : project) : Prop :=
  ∀ k j, jobs p !! k = Some j → get_id j = k.

(** No job with the ID of [j] exists in [d]. *)
Definition absent (d : project) (j : job) : bool :=
  bool_decide (jobs d !! get_id j = None).

Definition count_where (P : job → bool) (js : list job) : nat :=
  length (filter (λ j, P j = true) js).

Definition workspace_entry (name : string) (j : job) : option node :=
  d ← job_files j; dict_get name d.

(** ** Concrete documents, jobs and projects *)

(** [re.match] for a pattern without metacharacters: the pattern is a
    prefix of the string. *)
Definition literal_match (pattern s : string) : bool := String.prefix pattern s.

Definition src_doc : dict := [("a", VInt 1); ("b", VMap [("c", VInt 2)])].
Definition dst_doc : dict := [("a", VInt 1); ("b", VMap [("c", VInt 3)])].

Definition manifest : string * node :=
  (FN_MANIFEST, File 0 (Json [("p", VInt 1)])).

Definition document_file (d : dict) : string * node :=
  (FN_DOCUMENT, File 0 (Json d)).

Definition make_job (root : string) (entries : dir) (d : document) : job :=
  {| get_id := "X"; statepoint := [("p", VInt 1)];
     workspace := root +:+ "/workspace/X";
     job_files := Some entries; job_document := d |}.

(** A job whose document is a plain mapping, and one whose document is
    the [JSonDict] kept in its workspace. *)
Definition memory_job (root : string) (d : dict) : job :=
  make_job root [manifest] (PlainDict d).

Definition file_job (root : string) (d : dict) : job :=
  make_job root [document_file d; manifest] (JSonDict FN_DOCUMENT).

Definition job_doc (j : job) : dict := load (job_world j ∅).

(** A document file [doc] holding [old]; the guarded region overwrites
    it and raises: the file is back to [old] and [doc~] is gone. *)
Definition backup_world : world :=
  {| files := [("doc", File 0 (Text "old"))]; doc := PlainDict [];
     skipped := ∅ |}.

Definition failing_region (w : world) : outcome world :=
  Raised ValueError
    (with_files (dir_put "doc" (File 5 (Text "new")) (files w)) w).

Definition skip_src : job :=
  make_job "/s" [manifest; ("skip", Dir [("f", File 1 (Text "1"))])]
    (PlainDict []).

Definition skip_dst : job :=
  make_job "/d" [manifest; ("skip", Dir [("f", File 2 (Text "2"))])]
    (PlainDict []).

Definition conflict_src : job :=
  make_job "/s"
    [("a.txt", File 1 (Text "new")); manifest;
     ("sub", Dir [("g", File 1 (Text "1"))])]
    (PlainDict []).

Definition conflict_dst : job :=
  make_job "/d" [manifest; ("sub", Dir [("g", File 2 (Text "2"))])]
    (PlainDict []).

Definition tmp_src : job :=
  make_job "/s"
    [("keep.txt", File 1 (Text "data")); manifest;
     ("tmp.log", File 1 (Text "scratch"))]
    (PlainDict [("a", VInt 1)]).

Definition tmp_source : project :=
  {| root_directory := "/s"; project_files := [];
     project_document := PlainDict []; jobs := {[ "X" := tmp_src ]};
     detect_schema := ∅ |}.

Definition empty_destination : project :=
  {| root_directory := "/d"; project_files := [];
     project_document := PlainDict []; jobs := ∅; detect_schema := ∅ |}.

(** A destination that has the job X, materialized and empty. *)
Definition merge_destination : project :=
  {| root_directory := "/d"; project_files := [];
     project_document := PlainDict [];
     jobs := {[ "X" := memory_job "/d" [] ]}; detect_schema := ∅ |}.

(** The job X of the destination, known by its state point and not yet
    materialized. *)
Definition unmaterialized_job : job :=
  {| get_id := "X"; statepoint := [("p", VInt 1)];
     workspace := "/d/workspace/X"; job_files := None;
     job_document := PlainDict [] |}.

(** ** More notions used in the statements *)

(** The value a document holds at a key path. *)
Fixpoint get_path (p : list string) (v : value) : option value :=
  match p with
  | [] => Some v
  | k :: p' =>
      match v with
      | VMap d => dv ← dict_get k d; get_path p' dv
      | _ => None
      end
  end.

(** Every value of [old] that is no mapping is at its key path in
    [new]. *)
Definition keeps (old new : value) : Prop :=
  ∀ p v, get_path p old = Some v → is_mapping v = false →
         get_path p new = Some v.

(** [dst.get(key)] *)
Definition getitem (key : string) (v : value) : option value :=
  match v with
  | VMap d => dict_get key d
  | _ => None
  end.

(** Nothing is skipped: no key is on record at the end, or the key
    strategy says yes to every key. *)
Definition skips_nothing (ks : option (string → bool)) (sk : gset string) : Prop :=
  sk = ∅ ∨ ∃ f, ks = Some f ∧ ∀ key, f key = true.

(** No [DocumentSyncConflict] comes out of [o]. *)
Definition no_conflict {S} (o : outcome S) : Prop :=
  ∀ keys, raised o ≠ Some (DocumentSyncConflict keys).

(** [for key in keys: d[key] = other[key]] on a plain mapping. *)
Definition update_keys (other : dict) (keys : list string) (d : dict) : dict :=
  foldl (λ d key,
           match dict_get key other with
           | Some v => dict_set key v d
           | None => d
           end) d keys.

(** [create_doc_backup] keeps its backup in memory: the document has no
    file name, is empty, or its file does not exist. *)
Definition backed_up_in_memory (w : world) : bool :=
  match doc w with
  | PlainDict _ => true
  | JSonDict fn =>
      bool_decide (_DocProxy_len w = 0%nat) || negb (isfile [fn] (Dir (files w)))
  end.

(** Two paths that part ways at some directory. *)
Inductive apart : path → path → Prop :=
| apart_here x y p q : x ≠ y → apart (x :: p) (y :: q)
| apart_below z p q : apart p q → apart (z :: p) (z :: q).

(** The file a document is bound to. *)
Definition doc_file (w : world) : option string :=
  match doc w with
  | JSonDict fn => Some fn
  | PlainDict _ => None
  end.

(** [w'] has the document of [w] bound to the same file, and the same
    node at [p]. *)
Definition same_at (p : path) (w w' : world) : Prop :=
  doc_file w' = doc_file w ∧ file_at p w' = file_at p w.

(** The node the walk writes for an entry of the source workspace: the
    content of a file at the time of the copy, a directory as it is. *)
Definition copied (now : Z) (e : node) : node :=
  match e with
  | File _ data => File now data
  | Dir es => Dir es
  end.

(** What a walk with [FileSync.always] makes of the entry [e] of the
    source workspace, given the entry of that name in the destination
    workspace before and after: a missing entry is the copy of [e]; a
    file standing for a file compares equal to it; a directory is
    walked or left. *)
Definition brought (now : Z) (deep : bool) (e : node) (before after : option node)
  : Prop :=
  match e, before with
  | File _ data, None => after = Some (File now data)
  | Dir es, None => after = Some (Dir es)
  | File _ _, Some (File _ _) =>
      ∃ f, after = Some f ∧ cmp (negb deep) e f = true
  | _, _ => True
  end.

(** ** More concrete documents, jobs and projects *)

(** A document {a: 2} held in memory, and a region that overwrites [a]
    and raises. *)
Definition rollback_world : world :=
  {| files := []; doc := PlainDict [("a", VInt 2)]; skipped := ∅ |}.

Definition failing_sync (dry_run : bool) (w : world) : outcome world :=
  Raised ValueError (save 7 [("a", VInt 9)] w).

(** The workspace of [tmp_src]. *)
Definition tmp_files : dir :=
  [("keep.txt", File 1 (Text "data")); manifest;
   ("tmp.log", File 1 (Text "scratch"))].

(** A destination workspace with a log file of its own, one with a
    newer [keep.txt], and one with the manifest alone. *)
Definition log_world : world :=
  {| files := [manifest; ("tmp.log", File 2 (Text "mine"))];
     doc := PlainDict []; skipped := ∅ |}.

Definition newer_world : world :=
  {| files := [("keep.txt", File 5 (Text "newer")); manifest];
     doc := PlainDict []; skipped := ∅ |}.

Definition bare_world : world :=
  {| files := [manifest]; doc := PlainDict []; skipped := ∅ |}.

(** A destination project that has a job Y and no job X. *)
Definition job_Y : job :=
  {| get_id := "Y"; statepoint := [("p", VInt 2)];
     workspace := "/d/workspace/Y";
     job_files := Some [(FN_MANIFEST, File 0 (Json [("p", VInt 2)]))];
     job_document := PlainDict [("y", VInt 1)] |}.

Definition other_destination : project :=
  {| root_directory := "/d"; project_files := [];
     project_document := PlainDict []; jobs := {[ "Y" := job_Y ]};
     detect_schema := ∅ |}.

(** An input of answers still to come, read one at a time; without an
    answer the default applies. *)
Definition answers_query (question default : string) (i : list bool)
  : bool * list bool :=
  match i with
  | [] => (false, [])
  | b :: i' => (b, i')
  end.

(** ** Notions and data for the statements on conflicts, backups and merges *)

(** The key strategy does not let [root + key] be overwritten. *)
Definition declines (ks : option (string → bool)) (root key : string) : bool :=
  match ks with
  | None => true
  | Some f => negb (f (root +:+ key))
  end.

(** What a loop that ran to its end has made of the entry [(key, v)]
    of the source, [old] being the destination value at [key] when the
    loop started with [sk] on record, and [s] what it ended with: a new
    key is set, an equal value stays, a mapping has been handed to the
    nested call (whose record is kept), and any other value is left
    and put on record, or overwritten, as the key strategy says. *)
Definition dealt_with
    (nested : value → value → string → gset string
              → outcome (value * gset string))
    (ks : option (string → bool)) (dry_run : bool) (root key : string)
    (v : value) (old : option value) (sk : gset string)
    (s : value * gset string) : Prop :=
  match old with
  | None => getitem key s.1 = if dry_run then None else Some v
  | Some dv =>
      if value_eqb dv v then getitem key s.1 = Some dv
      else if is_mapping v
           then ∃ sk0 r, sk ⊆ sk0
                         ∧ nested v dv (key +:+ ".") sk0 = Done r
                         ∧ r.2 ⊆ s.2 ∧ getitem key s.1 = Some r.1
      else if declines ks root key
           then root +:+ key ∈ s.2 ∧ getitem key s.1 = Some dv
           else getitem key s.1 = Some (if dry_run then dv else v)
  end.

(** A file [doc] with a backup [doc~] left behind by an earlier run. *)
Definition stale_world : world :=
  {| files := [("doc", File 0 (Text "old")); ("doc~", File 3 (Text "older"))];
     doc := PlainDict []; skipped := ∅ |}.

(** A region that overwrites [doc] and returns. *)
Definition writing_region (w : world) : outcome world :=
  Done (with_files (dir_put "doc" (File 5 (Text "new")) (files w)) w).

(** Two jobs whose documents are kept in their document files; they
    differ at [b.c], and [b.d] is new. *)
Definition nested_src : job :=
  file_job "/s" [("b", VMap [("c", VInt 2); ("d", VInt 5)])].

Definition nested_dst : job :=
  file_job "/d" [("b", VMap [("c", VInt 3)])].



(** The document is bound to the file [fn], written at [now]. *)
Definition stamped (now : Z) (fn : string) (w : world) : Prop :=
  doc w = JSonDict fn ∧ ∃ d, file_at [fn] w = Some (File now (Json d)).

(** Two entries of a workspace with the same content: both missing,
    two files with the same data, whatever their modification times, or
    two directories with the same entries. *)
Definition same_content (a b : option node) : Prop :=
  match a, b with
  | None, None => True
  | Some (File _ d1), Some (File _ d2) => d1 = d2
  | Some (Dir e1), Some (Dir e2) => e1 = e2
  | _, _ => False
  end.

(** Two jobs with the same contents: they hold the same document, and
    every name of the workspace has the same content in both, the
    document file apart (a missing file and an empty mapping are the
    same document). *)
Definition same_contents (a b : job) : Prop :=
  job_doc a = job_doc b
  ∧ ∀ name, name ≠ FN_DOCUMENT →
            same_content (workspace_entry name a) (workspace_entry name b).

(** The empty document of the kind of [d]. *)
Definition empty_document (d : document) : document :=
  match d with
  | JSonDict fn => JSonDict fn
  | PlainDict _ => PlainDict []
  end.

(** The exclude list [sync_jobs] walks with: the caller's patterns, the
    name of the manifest and, unless documents are copied like any
    other file, the name of the document file. *)
Definition patterns_in_use (exclude : list string) (f : doc_sync)
  : list string :=
  if is_COPY f then exclude ++ [FN_MANIFEST]
  else (exclude ++ [FN_MANIFEST]) ++ [FN_DOCUMENT].

(** The document strategy brings the document of the source into an
    empty document: [update] does; [ByKey] does unless it has no key
    strategy and keys on record from earlier calls (it would raise);
    [COPY] does for a document kept in a file; [NO_SYNC] does not. *)
Definition brings_document (f : doc_sync) (sk : gset string) (d : document)
  : Prop :=
  match f with
  | NO_SYNC => False
  | COPY => ∃ fn, d = JSonDict fn
  | update => True
  | ByKey ks => ks = None → sk = ∅
  end.

(** A job with a file named [tags], a name [dircmp] ignores, and a job
    whose workspace holds a backup of its document file, left behind by
    a run that was killed. *)
Definition tags_src : job :=
  make_job "/s" [manifest; ("tags", File 1 (Text "v1"))] (PlainDict []).

Definition tags_source : project :=
  {| root_directory := "/s"; project_files := [];
     project_document := PlainDict []; jobs := {[ "X" := tags_src ]};
     detect_schema := ∅ |}.

Definition backup_src : job :=
  make_job "/s"
    [document_file [("a", VInt 1)];
     (FN_DOCUMENT +:+ "~", File 1 (Json [])); manifest]
    (JSonDict FN_DOCUMENT).

Definition backup_source : project :=
  {| root_directory := "/s"; project_files := [];
     project_document := PlainDict []; jobs := {[ "X" := backup_src ]};
     detect_schema := ∅ |}.

Ltac case_if :=
  match goal with |- context [if ?b then _ else _] => destruct b end.

(** ** Properties of the document synchronizer *)

Lemma call_VMap ks dry_run items dst root sk :
  DocSync.call ks dry_run (VMap items) dst root sk =
  if value_eqb (VMap items) dst then Done (dst, sk)
  else bind (DocSync.items_loop (DocSync.call ks false) ks dry_run root
               items dst sk)
         id (DocSync.check_skipped ks root).
Proof. reflexivity. Qed.

Lemma check_skipped_final ks root s :
  final (DocSync.check_skipped ks root s) = s.
Proof.
  unfold DocSync.check_skipped.
  destruct (_ && _); [destruct ks|]; reflexivity.
Qed.

Lemma items_loop_grows nested ks dry_run root items :
  Forall (λ e, ∀ dst root sk, grows sk (nested e.2 dst root sk)) items →
  ∀ dst sk, grows sk (DocSync.items_loop nested ks dry_run root items dst sk).
Proof.
  unfold grows. induction 1 as [|[key v] items Hv _ IH]; intros dst sk; simpl.
  - done.
  - destruct dst as [| | |d]; simpl; try done.
    destruct (dict_get key d) as [dv|]; [|apply IH].
    destruct (value_eqb dv v); [apply IH|].
    destruct (is_mapping v).
    + specialize (Hv dv (key +:+ ".") sk). simpl in Hv.
      destruct (nested v dv (key +:+ ".") sk) as [[dv' sk']|e [dv' sk']];
        simpl in *; [|done].
      etrans; [exact Hv|apply IH].
    + destruct (match ks with None => true | Some f => negb (f (root +:+ key)) end).
      * etrans; [|apply IH]. set_solver.
      * apply IH.
Qed.

Lemma call_grows ks src :
  ∀ dry_run dst root sk, grows sk (DocSync.call ks dry_run src dst root sk).
Proof.
  induction src as [| | |items IH] using value_nested_ind;
    intros dry_run dst root sk.
  1-3: unfold grows; simpl;
       match goal with |- context [if ?b then _ else _] => destruct b end; done.
  rewrite call_VMap. unfold grows.
  destruct (value_eqb (VMap items) dst); [done|].
  pose proof (items_loop_grows (DocSync.call ks false) ks dry_run root items
                (Forall_impl _ _ _ IH (λ e H, H false)) dst sk) as Hl.
  unfold grows in Hl.
  destruct (DocSync.items_loop _ ks dry_run root items dst sk) as [s|e s];
    simpl in *; [|done].
  by rewrite check_skipped_final.
Qed.

Lemma items_loop_no_conflict nested f dry_run root items :
  Forall (λ e, is_mapping e.2 = true →
               ∀ dst root sk, returns_or_type_error (nested e.2 dst root sk))
    items →
  ∀ dst sk, returns_or_type_error
              (DocSync.items_loop nested (Some f) dry_run root items dst sk).
Proof.
  unfold returns_or_type_error.
  induction 1 as [|[key v] items Hv _ IH]; intros dst sk; simpl.
  - by left.
  - destruct dst as [| | |d]; simpl; try by right.
    destruct (dict_get key d) as [dv|]; [|apply IH].
    destruct (value_eqb dv v); [apply IH|].
    destruct (is_mapping v) eqn:Hm.
    + specialize (Hv Hm dv (key +:+ ".") sk). simpl in Hv.
      destruct (nested v dv (key +:+ ".") sk) as [[dv' sk']|e [dv' sk']];
        simpl in *; [apply IH|done].
    + destruct (negb (f (root +:+ key))); apply IH.
Qed.

Lemma call_no_conflict f src :
  is_mapping src = true →
  ∀ dry_run dst root sk,
    returns_or_type_error (DocSync.call (Some f) dry_run src dst root sk).
Proof.
  induction src as [| | |items IH] using value_nested_ind; try done.
  intros _ dry_run dst root sk.
  rewrite call_VMap. unfold returns_or_type_error.
  destruct (value_eqb (VMap items) dst); [by left|].
  pose proof (items_loop_no_conflict (DocSync.call (Some f) false) f dry_run
                root items (Forall_impl _ _ _ IH (λ e H Hm, H Hm false)) dst sk)
    as Hl.
  unfold returns_or_type_error in Hl.
  destruct (DocSync.items_loop _ (Some f) dry_run root items dst sk) as [s|e s];
    simpl in *; [|done].
  unfold DocSync.check_skipped. destruct (_ && _); by left.
Qed.

(** Two conflicts and a new key behind them: the loop goes on to merge
    [c], and the one exception carries both [a] and [b]. *)
Example ByKey_raises_all_conflicts_at_once :
  DocSync.call None false
    (VMap [("a", VInt 1); ("b", VInt 2); ("c", VInt 3)])
    (VMap [("a", VInt 9); ("b", VInt 8)]) "" ∅
  = Raised (DocumentSyncConflict {[ "a"; "b" ]})
      (VMap [("a", VInt 9); ("b", VInt 8); ("c", VInt 3)], {[ "a"; "b" ]}).
Proof. by vm_compute. Qed.

(** C4, evaluated three levels deep: for src = {x: {y: {z: 1}}, n: 5}
    and dst = {x: {y: {z: 2}}} the conflict at x.y.z is recorded as
    [y.z]: the nested call is given [key + '.'] as its root, not
    [root + key + '.'].  The traversal does go on: [n] is merged. *)
Theorem ByKey_records_nested_conflict_without_outer_keys :
  let src := VMap [("x", VMap [("y", VMap [("z", VInt 1)])]); ("n", VInt 5)] in
  let dst := VMap [("x", VMap [("y", VMap [("z", VInt 2)])])] in
  DocSync.call None false src dst "" ∅
  = Raised (DocumentSyncConflict {[ "y.z" ]})
      (VMap [("x", VMap [("y", VMap [("z", VInt 2)])]); ("n", VInt 5)],
       {[ "y.z" ]})
  ∧ "x.y.z" ∉ ({[ "y.z" ]} : gset string).
Proof. split; [by vm_compute|set_solver]. Qed.

(** C9, as amended: the skipped keys of a [ByKey] functor are never
    reset.  If earlier calls left keys on record, a top-level call on
    documents that are not equal, whose loop runs to its end, raises
    [DocumentSyncConflict] when there is no key strategy and returns
    when there is one; either way the keys it carries or reports
    include the ones that were on record. *)
Theorem ByKey_skipped_keys_outlive_the_call
    (ks : option (string → bool)) (dry_run : bool)
    (items : list (string * value)) (dst : value)
    (sk : gset string) (s : value * gset string) :
  sk ≠ ∅ →
  value_eqb (VMap items) dst = false →
  DocSync.items_loop (DocSync.call ks false) ks dry_run "" items dst sk
    = Done s →
  sk ⊆ s.2
  ∧ DocSync.call ks dry_run (VMap items) dst "" sk
    = match ks with
      | None => Raised (DocumentSyncConflict s.2) s
      | Some _ => Done s
      end.
Proof.
  intros Hsk Hne Hloop.
  assert (sk ⊆ s.2) as Hsub.
  { pose proof (call_grows ks (VMap items) dry_run dst "" sk) as Hg.
    unfold grows in Hg. rewrite call_VMap, Hne, Hloop in Hg. simpl in Hg.
    by rewrite check_skipped_final in Hg. }
  split; [exact Hsub|].
  rewrite call_VMap, Hne, Hloop. simpl. unfold DocSync.check_skipped.
  rewrite (bool_decide_eq_true_2 (s.2 ≠ ∅)) by set_solver.
  simpl. by destruct ks.
Qed.

(** The documents {a: 1, b: {c: 2}} and {a: 1, b: {c: 3}} leave [b.c] on
    record; the next pair, {n: 1} and {}, has no conflict of its own and
    the call on it still raises, carrying [b.c]. *)
Lemma ByKey_skipped_keys_outlive_the_call_witness :
  (final (DocSync.call None false (VMap src_doc) (VMap dst_doc) "" ∅)).2
  = {[ "b.c" ]}
  ∧ ({[ "b.c" ]} ⊆ (VMap [("n", VInt 1)], ({[ "b.c" ]} : gset string)).2
     ∧ DocSync.call None false (VMap [("n", VInt 1)]) (VMap []) "" {[ "b.c" ]}
       = Raised (DocumentSyncConflict {[ "b.c" ]})
           (VMap [("n", VInt 1)], {[ "b.c" ]})).
Proof.
  split; [by vm_compute|].
  refine (ByKey_skipped_keys_outlive_the_call None false [("n", VInt 1)]
            (VMap []) {[ "b.c" ]} (VMap [("n", VInt 1)], {[ "b.c" ]}) _ _ _).
  - set_solver.
  - reflexivity.
  - by vm_compute.
Defined.

(** C9 as stated fails where the loop does not run to its end: with
    [b.c] on record, src = {a: {b: 1}} and dst = {a: 5} are not equal,
    and the call raises [TypeError] (the nested call asks [key in 5]),
    not [DocumentSyncConflict]. *)
Lemma ByKey_stale_keys_call_raises_TypeError :
  let first := DocSync.call None false (VMap src_doc) (VMap dst_doc) "" ∅ in
  let src := VMap [("a", VMap [("b", VInt 1)])] in
  let dst := VMap [("a", VInt 5)] in
  (final first).2 = {[ "b.c" ]}
  ∧ value_eqb src dst = false
  ∧ raised (DocSync.call None false src dst "" (final first).2) = Some TypeError
  ∧ ¬ ∃ keys, raised (DocSync.call None false src dst "" (final first).2)
              = Some (DocumentSyncConflict keys).
Proof.
  cbv zeta.
  assert (raised (DocSync.call None false (VMap [("a", VMap [("b", VInt 1)])])
                    (VMap [("a", VInt 5)]) ""
                    (final (DocSync.call None false (VMap src_doc)
                              (VMap dst_doc) "" ∅)).2)
          = Some TypeError) as H by (by vm_compute).
  split; [by vm_compute|]. split; [reflexivity|]. split; [exact H|].
  intros [keys Hk]. rewrite H in Hk. discriminate.
Qed.

(** ** Properties of the directory operations *)

Lemma dict_get_dir_put_eq x n (d : dir) : dict_get x (dir_put x n d) = Some n.
Proof.
  induction d as [|[k m] d IH]; simpl.
  - by rewrite String.eqb_refl.
  - destruct (String.eqb k x) eqn:E; simpl.
    + by rewrite E.
    + destruct (String.ltb x k); simpl.
      * by rewrite String.eqb_refl.
      * by rewrite E.
Qed.

Lemma dict_get_dir_put_ne x y n (d : dir) :
  x ≠ y → dict_get y (dir_put x n d) = dict_get y d.
Proof.
  intros Hne. induction d as [|[k m] d IH]; simpl.
  - by apply String.eqb_neq in Hne as ->.
  - destruct (String.eqb k x) eqn:E; simpl.
    + apply String.eqb_eq in E as ->.
      by apply String.eqb_neq in Hne as ->.
    + destruct (String.ltb x k); simpl.
      * by apply String.eqb_neq in Hne as ->.
      * by rewrite IH.
Qed.

Lemma dict_get_dict_del_eq {A} x (d : list (string * A)) :
  dict_get x (dict_del x d) = None.
Proof.
  induction d as [|[k m] d IH]; simpl; [done|].
  destruct (String.eqb k x) eqn:E; simpl; [done|]. by rewrite E.
Qed.

Lemma dict_get_dict_del_ne {A} x y (d : list (string * A)) :
  x ≠ y → dict_get y (dict_del x d) = dict_get y d.
Proof.
  intros Hne. induction d as [|[k m] d IH]; simpl; [done|].
  destruct (String.eqb k x) eqn:E; simpl.
  - apply String.eqb_eq in E as ->. by apply String.eqb_neq in Hne as ->.
  - by rewrite IH.
Qed.

Lemma siblings_nonempty p q : siblings p q → p ≠ [] ∧ q ≠ [].
Proof. by destruct 1. Qed.

Lemma append_suffix_ne (x s : string) : s ≠ "" → x ≠ x +:+ s.
Proof.
  intros Hs Hx. apply Hs. clear Hs.
  induction x as [|c x IH]; simpl in Hx; [done|].
  injection Hx as Hx. by apply IH.
Qed.

Lemma siblings_path_suffix p s : p ≠ [] → s ≠ "" → siblings p (path_suffix p s).
Proof.
  intros Hp Hs. induction p as [|x [|y p] IH]; [done| |].
  - constructor. by apply append_suffix_ne.
  - change (path_suffix (x :: y :: p) s) with (x :: path_suffix (y :: p) s).
    constructor. by apply IH.
Qed.

Lemma put_node_cons x y p new es :
  put_node (x :: y :: p) new (Dir es)
  = c ← dict_get x es; c' ← put_node (y :: p) new c; Some (Dir (dir_put x c' es)).
Proof. reflexivity. Qed.

Lemma del_node_cons x y p es :
  del_node (x :: y :: p) (Dir es)
  = c ← dict_get x es; c' ← del_node (y :: p) c; Some (Dir (dir_put x c' es)).
Proof. reflexivity. Qed.

Lemma put_node_sibling p q new n :
  siblings p q → is_Some (get_node p n) →
  ∃ d, put_node q new n = Some (Dir d)
       ∧ get_node q (Dir d) = Some new
       ∧ get_node p (Dir d) = get_node p n.
Proof.
  intros Hs. revert n. induction Hs as [x y Hxy|z p q Hs IH]; intros n [c Hc].
  - destruct n as [|es]; [done|]. simpl in Hc.
    exists (dir_put y new es). simpl.
    by rewrite dict_get_dir_put_eq, dict_get_dir_put_ne.
  - destruct n as [|es]; [done|]. simpl in Hc.
    destruct (dict_get z es) as [k|] eqn:Hz; [|done]. simpl in Hc.
    destruct (IH k (ex_intro _ c Hc)) as (d & Hput & Hq & Hp).
    destruct (siblings_nonempty _ _ Hs) as [_ Hq0].
    destruct q as [|y q]; [done|].
    exists (dir_put z (Dir d) es).
    rewrite put_node_cons, Hz. cbv [mbind option_bind]. rewrite Hput.
    split; [done|]. simpl. by rewrite dict_get_dir_put_eq, Hz.
Qed.

Lemma del_node_sibling p q n :
  siblings p q → is_file (get_node q n) = true →
  ∃ d, del_node q n = Some (Dir d)
       ∧ get_node q (Dir d) = None
       ∧ get_node p (Dir d) = get_node p n.
Proof.
  intros Hs. revert n. induction Hs as [x y Hxy|z p q Hs IH]; intros n Hf.
  - destruct n as [|es]; [done|]. simpl in Hf.
    exists (dict_del y es). simpl. unfold dict_contains.
    destruct (dict_get y es); [|done].
    by rewrite dict_get_dict_del_eq, dict_get_dict_del_ne.
  - destruct n as [|es]; [done|]. simpl in Hf.
    destruct (dict_get z es) as [k|] eqn:Hz; [|done]. simpl in Hf.
    destruct (IH k Hf) as (d & Hdel & Hq & Hp).
    destruct (siblings_nonempty _ _ Hs) as [_ Hq0].
    destruct q as [|y q]; [done|].
    exists (dir_put z (Dir d) es).
    rewrite del_node_cons, Hz. cbv [mbind option_bind]. rewrite Hdel.
    split; [done|]. simpl. by rewrite dict_get_dir_put_eq, Hz.
Qed.

Lemma siblings_sym p q : siblings p q → siblings q p.
Proof. induction 1; constructor; auto. Qed.

(** ** Properties of the modification proxy *)

Lemma copy_sibling now p q w t data :
  siblings p q →
  file_at p w = Some (File t data) →
  isdir q (Dir (files w)) = false →
  ∃ d, copy now false (files w) p q w = Done (with_files d w)
       ∧ get_node q (Dir d) = Some (File now data)
       ∧ get_node p (Dir d) = Some (File t data).
Proof.
  intros Hs Hp Hq. unfold file_at in Hp.
  destruct (put_node_sibling p q (File now data) (Dir (files w)) Hs)
    as (d & Hput & Hgq & Hgp); [by rewrite Hp|].
  exists d. unfold copy, shutil_copy. rewrite Hp, Hq, Hq, Hput. simpl.
  by rewrite Hgp.
Qed.

Lemma remove_sibling p q w :
  siblings p q →
  is_file (file_at q w) = true →
  ∃ d, remove false q w = Done (with_files d w)
       ∧ get_node q (Dir d) = None
       ∧ get_node p (Dir d) = file_at p w.
Proof.
  intros Hs Hq. unfold file_at in *.
  destruct (del_node_sibling p q (Dir (files w)) Hs Hq) as (d & Hdel & Hgq & Hgp).
  exists d. unfold remove, os_remove, isfile. by rewrite Hq, Hdel.
Qed.

(** ** Dry runs *)

(** C1, evaluated on destination jobs whose document is a plain
    mapping, with the dry-run flag set.  (1) src = {a: 1}, dst = {a: 2}:
    the call raises [DocumentSyncConflict] on [a] and the destination
    document is empty afterwards: the rollback calls [proxy.clear()],
    which clears the document whatever the flag, and then
    [proxy.update(backup)], whose writes the flag drops.  (2) src = {b:
    {c: 2, d: 5}}, dst = {b: {c: 2}}: nothing is raised and the
    destination holds [d] afterwards: the nested call writes to
    [dst[b]], which the proxy handed out unwrapped. *)
Theorem dry_run_sync_jobs_changes_the_destination_document :
  ∀ now,
    (let dst := memory_job "/d" [("a", VInt 2)] in
     let o := sync_jobs now literal_match (memory_job "/s" [("a", VInt 1)])
                dst None [] None ∅ true false in
     raised o = Some (DocumentSyncConflict {[ "a" ]})
     ∧ job_doc dst = [("a", VInt 2)]
     ∧ job_doc (final o).1 = [])
    ∧ (let dst := memory_job "/d" [("b", VMap [("c", VInt 2)])] in
       let o := sync_jobs now literal_match
                  (memory_job "/s" [("b", VMap [("c", VInt 2); ("d", VInt 5)])])
                  dst None [] None ∅ true false in
       raised o = None
       ∧ job_doc (final o).1 = [("b", VMap [("c", VInt 2); ("d", VInt 5)])]).
Proof. intros now. split; by vm_compute. Qed.

(** Two more writes that a dry run makes: [sync_jobs] materializes the
    destination job ([dst.init()]) and [sync_projects] clones a missing
    job ([destination.clone(src_job)]) without asking the proxy. *)
Example dry_run_materializes_and_clones :
  job_files unmaterialized_job = None
  ∧ job_files (final (sync_jobs 7 literal_match (memory_job "/s" [])
                        unmaterialized_job None [] None ∅ true false)).1
    = Some [(FN_MANIFEST, File 7 (Json [("p", VInt 1)]))]
  ∧ jobs empty_destination !! "X" = None
  ∧ (job_files
       <$> jobs (destination_now
                   (final (sync_projects 7 literal_match tmp_source
                             empty_destination None [] None ∅ None true true)))
           !! "X")
    = Some (job_files tmp_src).
Proof. repeat split; by vm_compute. Qed.

(** ** Properties of the workspace walk *)

(** C3, evaluated with the exclude pattern [skip] on two workspaces that
    both have a directory [skip] with a differing file [f]: the
    directory name is excluded, and yet without a strategy the call
    raises [FileSyncConflict] for [f], and with [FileSync.always] the
    file [skip/f] is copied.  The loop over [diff.subdirs] does not
    consult [exclude]. *)
Theorem excluded_common_subdirectory_is_walked :
  ∀ now,
    excluded literal_match ["skip"; FN_MANIFEST; FN_DOCUMENT] "skip" = true
    ∧ raised (sync_jobs now literal_match skip_src skip_dst None ["skip"]
                None ∅ false false)
      = Some (FileSyncConflict "f")
    ∧ job_files (final (sync_jobs now literal_match skip_src skip_dst
                          (Some FileSync_always) ["skip"] None ∅ false false)).1
      = Some [manifest; ("skip", Dir [("f", File now (Text "1"))])].
Proof. intros now. repeat split; by vm_compute. Qed.

(** C6, evaluated on a source with a new file [a.txt] and a differing
    file [sub/g], without a strategy: the call raises [FileSyncConflict]
    carrying [g], the name of the file inside its directory, not
    [sub/g]; [a.txt], copied before, stays in the destination.  A
    strategy, in the same place, is asked about [sub/g]. *)
Theorem file_conflict_carries_the_name_without_subdirectory :
  ∀ now,
    let o := sync_jobs now literal_match conflict_src conflict_dst None []
               None ∅ false false in
    raised o = Some (FileSyncConflict "g")
    ∧ path_str ["sub"; "g"] = "sub/g"
    ∧ job_files (final o).1
      = Some [("a.txt", File now (Text "new")); manifest;
              ("sub", Dir [("g", File 2 (Text "2"))])]
    ∧ job_files (final (sync_jobs now literal_match conflict_src conflict_dst
                          (Some (λ _ _ fn, bool_decide (fn = ["sub"; "g"])))
                          [] None ∅ false false)).1
      = Some [("a.txt", File now (Text "new")); manifest;
              ("sub", Dir [("g", File now (Text "1"))])].
Proof. intros now. repeat split; by vm_compute. Qed.

(** ** Well-formed values and files compare equal to themselves *)

Lemma value_wf_VMap m :
  value_wf (VMap m) = true ↔ NoDup m.*1 ∧ Forall (λ e, value_wf e.2 = true) m.
Proof.
  simpl. rewrite andb_true_iff, bool_decide_eq_true.
  apply and_iff_compat_l.
  induction m as [|e m IH]; simpl.
  - split; [constructor|done].
  - rewrite andb_true_iff, IH, Forall_cons. done.
Qed.

Lemma node_wf_Dir es :
  node_wf (Dir es) = true ↔ NoDup es.*1 ∧ Forall (λ e, node_wf e.2 = true) es.
Proof.
  simpl. rewrite andb_true_iff, bool_decide_eq_true.
  apply and_iff_compat_l.
  induction es as [|e es IH]; simpl.
  - split; [constructor|done].
  - rewrite andb_true_iff, IH, Forall_cons. done.
Qed.

Lemma dict_get_In {A} (d : list (string * A)) k v :
  NoDup d.*1 → (k, v) ∈ d → dict_get k d = Some v.
Proof.
  induction d as [|[k' v'] d IH]; simpl; intros Hnd Hin.
  - by apply elem_of_nil in Hin.
  - apply NoDup_cons in Hnd as [Hk Hnd].
    apply elem_of_cons in Hin as [Heq|Hin].
    + injection Heq as -> ->. by rewrite String.eqb_refl.
    + destruct (String.eqb k' k) eqn:E; [|by apply IH].
      apply String.eqb_eq in E as ->. exfalso. apply Hk.
      apply list_elem_of_fmap. by exists (k, v).
Qed.

Lemma dict_get_Some_In {A} (d : list (string * A)) k v :
  dict_get k d = Some v → (k, v) ∈ d.
Proof.
  induction d as [|[k' v'] d IH]; simpl; [done|].
  destruct (String.eqb k' k) eqn:E.
  - apply String.eqb_eq in E as ->. intros [= ->]. apply elem_of_cons; by left.
  - intros H. apply elem_of_cons; right. by apply IH.
Qed.

Lemma value_eqb_VMap m n :
  value_eqb (VMap m) (VMap n)
  = Nat.eqb (length m) (length n)
    && forallb (λ e, match dict_get e.1 n with
                     | Some w => value_eqb e.2 w
                     | None => false
                     end) m.
Proof.
  simpl. f_equal. induction m as [|[k v] m IH]; simpl; [done|]. by rewrite IH.
Qed.

Lemma value_eqb_refl v : value_wf v = true → value_eqb v v = true.
Proof.
  induction v as [|n|s|m IH] using value_nested_ind; intros Hwf.
  - done.
  - simpl. apply Z.eqb_refl.
  - simpl. apply String.eqb_refl.
  - apply value_wf_VMap in Hwf as [Hnd Hwf].
    rewrite value_eqb_VMap, Nat.eqb_refl. simpl.
    apply forallb_forall. intros [k v] Hin. simpl.
    apply list_elem_of_In in Hin.
    rewrite (dict_get_In m k v Hnd Hin).
    rewrite Forall_forall in IH, Hwf.
    apply (IH (k, v) Hin). apply (Hwf (k, v) Hin).
Qed.

Lemma value_same_refl v : value_same v v = true.
Proof.
  induction v as [|n|s|m IH] using value_nested_ind; simpl.
  - done.
  - apply Z.eqb_refl.
  - apply String.eqb_refl.
  - induction IH as [|[k v] m Hv _ IHm]; [done|].
    simpl in Hv. by rewrite String.eqb_refl, Hv, IHm.
Qed.

Lemma cmp_refl shallow t data : cmp shallow (File t data) (File t data) = true.
Proof.
  unfold cmp. rewrite Z.eqb_refl, Nat.eqb_refl. simpl.
  destruct shallow; simpl; [done|].
  destruct data; simpl; [apply String.eqb_refl|apply (value_same_refl (VMap d))].
Qed.

(** ** Synchronizing a job with its clone *)

Lemma get_node_app p q n : get_node (p ++ q) n = get_node p n ≫= get_node q.
Proof.
  revert n. induction p as [|x p IH]; intros n; simpl; [done|].
  destruct n as [|es]; [done|]. destruct (dict_get x es); simpl; [apply IH|done].
Qed.

Lemma dict_contains_In {A} (d : list (string * A)) k v :
  (k, v) ∈ d → dict_contains k d = true.
Proof.
  unfold dict_contains. induction d as [|[k' v'] d IH]; simpl; intros Hin.
  - by apply elem_of_nil in Hin.
  - destruct (String.eqb k' k) eqn:E; [done|].
    apply elem_of_cons in Hin as [Heq|Hin]; [|by apply IH].
    injection Heq as -> ->. by rewrite String.eqb_refl in E.
Qed.

Lemma filter_none {A} (P : A → Prop) `{∀ x, Decision (P x)} (l : list A) :
  (∀ x, x ∈ l → ¬ P x) → filter P l = [].
Proof.
  induction l as [|x l IH]; intros Hl; [done|].
  rewrite filter_cons. destruct (decide (P x)) as [HP|_].
  - exfalso. apply (Hl x); [by left|done].
  - apply IH. intros y Hy. apply Hl. by right.
Qed.

Lemma left_only_same l : left_only l l = [].
Proof.
  unfold left_only. apply filter_none. intros [k v] Hin. simpl.
  by rewrite (dict_contains_In _ k v Hin).
Qed.

Lemma diff_files_same deep l : NoDup l.*1 → diff_files deep l l = [].
Proof.
  intros Hnd. unfold diff_files. apply filter_none. intros [k v] Hin. simpl.
  unfold common_files, common, left_list in Hin.
  apply list_elem_of_filter in Hin as [Hf Hin]. simpl in Hf.
  apply list_elem_of_filter in Hin as [_ Hin].
  apply list_elem_of_filter in Hin as [_ Hin].
  rewrite (dict_get_In l k v Hnd Hin).
  destruct v as [t data|es]; [|done]. by rewrite cmp_refl.
Qed.

Lemma for_each_unchanged {A S} (f : A → S → outcome S) (l : list A) (s : S) :
  (∀ a, a ∈ l → f a s = Done s) → for_each f l s = Done s.
Proof.
  induction l as [|a l IH]; intros Hl; simpl; [done|].
  rewrite (Hl a) by (by left). apply IH. intros b Hb. apply Hl. by right.
Qed.

Lemma is_subdir_Dir l e :
  NoDup l.*1 → e ∈ l → is_subdir l l e = true → is_dir (Some e.2) = true.
Proof.
  intros Hnd He Hs. unfold is_subdir in Hs. apply bool_decide_eq_true in Hs.
  apply list_elem_of_fmap in Hs as ([k v] & Hk & Hin). simpl in Hk.
  unfold common_dirs in Hin. apply list_elem_of_filter in Hin as [Hd Hin].
  simpl in Hd. apply andb_true_iff in Hd as [Hd _].
  unfold common, left_list in Hin.
  apply list_elem_of_filter in Hin as [_ Hin].
  apply list_elem_of_filter in Hin as [_ Hin].
  destruct e as [k' v']. simpl in *. subst k'.
  pose proof (dict_get_In l k v Hnd Hin) as H1.
  pose proof (dict_get_In l k v' Hnd He) as H2.
  rewrite H1 in H2. by injection H2 as ->.
Qed.

Lemma _sync_job_workspaces_same now re_match src strategy exclude dry_run deep n :
  node_wf n = true →
  ∀ subdir w,
    get_node subdir (Dir (files w)) = Some n →
    is_dir (Some n) = true →
    _sync_job_workspaces now re_match src strategy exclude dry_run deep n subdir w
    = Done w.
Proof.
  induction n as [t data|es IH] using node_nested_ind;
    intros Hwf subdir w Hget Hdir; [done|].
  apply node_wf_Dir in Hwf as [Hnd Hwf].
  simpl. rewrite Hget, left_only_same, (diff_files_same deep es Hnd). simpl.
  apply for_each_unchanged. intros e He.
  destruct (is_subdir es es e) eqn:Hs; [|done].
  rewrite Forall_forall in IH, Hwf.
  apply (IH e He (Hwf e He)).
  - destruct e as [k v]. rewrite get_node_app, Hget. simpl.
    by rewrite (dict_get_In es k v Hnd He).
  - by apply (is_subdir_Dir es e).
Qed.

Lemma dict_del_absent {A} x (d : list (string * A)) :
  dict_get x d = None → dict_del x d = d.
Proof.
  induction d as [|[k m] d IH]; simpl; [done|].
  destruct (String.eqb k x); [done|]. intros H. by rewrite IH.
Qed.

Lemma dict_del_dir_put x n (d : dir) :
  dict_get x d = None → dict_del x (dir_put x n d) = d.
Proof.
  induction d as [|[k m] d IH]; simpl.
  - by rewrite String.eqb_refl.
  - destruct (String.eqb k x) eqn:E; [done|]. intros H.
    destruct (String.ltb x k); simpl.
    + by rewrite String.eqb_refl, E, dict_del_absent.
    + by rewrite E, IH.
Qed.

Lemma with_files_same w : with_files (files w) w = w.
Proof. by destruct w. Qed.

Lemma with_skipped_same w : with_skipped (skipped w) w = w.
Proof. by destruct w. Qed.

Lemma load_with_files_ne w x n :
  (∀ fn, doc w = JSonDict fn → fn ≠ x) →
  load (with_files (dir_put x n (files w)) w) = load w.
Proof.
  intros Hx. unfold load. simpl. destruct (doc w) as [fn|m]; [|done].
  rewrite dict_get_dir_put_ne; [done|]. intros ->. by apply (Hx fn).
Qed.

(** A [ByKey] functor finds nothing to do on equal documents. *)
Lemma call_doc_sync_same now ks dry_run w src :
  src = load w → value_wf (VMap src) = true →
  call_doc_sync now (ByKey ks) src dry_run w = Done w.
Proof.
  intros -> Hwf. unfold call_doc_sync.
  rewrite call_VMap, (value_eqb_refl _ Hwf).
  cbv beta iota zeta. cbn [fst snd]. rewrite with_skipped_same.
  by rewrite (value_same_refl (VMap (load w))).
Qed.

Lemma create_doc_backup_same now ks dry_run w src :
  src = load w → value_wf (VMap src) = true →
  (∀ fn, doc w = JSonDict fn → dict_get (fn +:+ "~") (files w) = None) →
  create_doc_backup now dry_run (call_doc_sync now (ByKey ks) src) w = Done w.
Proof.
  intros Hsrc Hwf Hstale. unfold create_doc_backup.
  pose proof (call_doc_sync_same now ks dry_run w src Hsrc Hwf) as Hbody.
  destruct (doc w) as [fn|m] eqn:Hdoc; [|by rewrite Hbody].
  destruct (_ || _) eqn:Hcond; [by rewrite Hbody|].
  apply orb_false_iff in Hcond as [_ Hfile].
  apply negb_false_iff in Hfile.
  specialize (Hstale fn eq_refl).
  unfold create_backup. change (path_suffix [fn] "~") with [fn +:+ "~"].
  replace (isfile [fn +:+ "~"] (Dir (files w))) with false
    by (unfold isfile; simpl; by rewrite Hstale).
  destruct dry_run.
  { unfold copy, remove. cbn [bind]. rewrite Hbody. done. }
  unfold isfile in Hfile. simpl in Hfile.
  destruct (dict_get fn (files w)) as [[t data|es]|] eqn:Hfn; try done.
  set (w1 := with_files (dir_put (fn +:+ "~") (File now data) (files w)) w).
  assert (copy now false (files w) [fn] [fn +:+ "~"] w = Done w1) as Hcopy.
  { unfold copy, shutil_copy, isdir. simpl.
    rewrite Hfn, Hstale. simpl. by rewrite Hstale. }
  assert (call_doc_sync now (ByKey ks) src false w1 = Done w1) as Hbody1.
  { apply call_doc_sync_same; [|done].
    rewrite Hsrc. symmetry. apply load_with_files_ne.
    intros fn' Hfn'. rewrite Hdoc in Hfn'. injection Hfn' as ->.
    by apply append_suffix_ne. }
  assert (remove false [fn +:+ "~"] w1 = Done w) as Hrem.
  { unfold remove, os_remove, isfile. simpl.
    rewrite dict_get_dir_put_eq. simpl. unfold dict_contains.
    rewrite dict_get_dir_put_eq. simpl.
    rewrite dict_del_dir_put by done. unfold with_files. simpl.
    by destruct w. }
  rewrite Hcopy. cbn [bind]. rewrite Hbody1.
  cbn [try_except try_finally]. exact Hrem.
Qed.

Lemma sync_jobs_same_job now re_match src c strategy exclude f sk dry_run deep fs :
  job_files src = Some fs →
  job_files c = Some fs →
  job_document c = job_document src →
  workspace src ≠ workspace c →
  node_wf (Dir fs) = true →
  dict_contains FN_MANIFEST fs = true →
  value_wf (VMap (load (job_world src ∅))) = true →
  f ≠ update →
  (∀ fn, job_document src = JSonDict fn → dict_get (fn +:+ "~") fs = None) →
  sync_jobs now re_match src c strategy exclude (Some f) sk dry_run deep
  = Done (c, sk).
Proof.
  intros Hsrc Hc Hdoc Hws Hwf Hman Hdwf Hf Hstale.
  unfold sync_jobs. apply String.eqb_neq in Hws. rewrite Hws, Hsrc.
  assert (init now c = c) as ->.
  { unfold init. by rewrite Hc, Hman. }
  assert (world_job c (job_world c sk) = c) as Hback.
  { unfold world_job, job_world. simpl. rewrite Hc. simpl.
    destruct c; simpl in *. by subst. }
  rewrite (_sync_job_workspaces_same now re_match fs strategy _ dry_run deep
             (Dir fs) Hwf [] (job_world c sk)).
  2: { unfold job_world. simpl. by rewrite Hc. }
  2: done.
  cbn [bind id default].
  destruct f as [| | |ks]; try done; cbn [syncs_documents].
  1-2: cbn [bind]; by rewrite Hback.
  rewrite create_doc_backup_same; cbn [bind]; [by rewrite Hback| |done|].
  - unfold load, job_world. simpl. by rewrite Hsrc, Hc, Hdoc.
  - intros fn Hfn. unfold job_world in *. simpl in *. rewrite Hc. simpl.
    apply Hstale. by rewrite <- Hdoc.
Qed.

Lemma with_jobs_same d : with_jobs (jobs d) d = d.
Proof. by destruct d. Qed.

Lemma clone_absent destination src_job :
  jobs destination !! get_id src_job = None →
  clone destination src_job
  = Some (with_jobs (<[get_id src_job := cloned_job destination src_job]>
                       (jobs destination)) destination).
Proof. intros H. unfold clone. by rewrite H. Qed.

Lemma _clone_or_sync_absent now re_match strategy exclude f dry_run
    src_job destination sk :
  jobs destination !! get_id src_job = None →
  _clone_or_sync now re_match strategy exclude f dry_run src_job
    (destination, sk)
  = (Done (with_jobs (<[get_id src_job := cloned_job destination src_job]>
                        (jobs destination)) destination, sk), 1%nat).
Proof. intros H. unfold _clone_or_sync. by rewrite (clone_absent _ _ H). Qed.

Lemma _clone_or_sync_present now re_match strategy exclude f dry_run
    src_job destination sk dst_job :
  jobs destination !! get_id src_job = Some dst_job →
  let put (r : job * gset string) :=
    (with_jobs (<[get_id src_job := r.1]> (jobs destination)) destination,
     r.2) in
  _clone_or_sync now re_match strategy exclude f dry_run src_job
    (destination, sk)
  = (bind (sync_jobs now re_match src_job dst_job strategy exclude (Some f)
             sk dry_run false)
       put (λ r, Done (put r)), 2%nat).
Proof. intros H. unfold _clone_or_sync, clone. by rewrite H. Qed.

Lemma _clone_or_sync_again now re_match strategy exclude f dry_run
    src_job destination sk fs :
  jobs destination !! get_id src_job = None →
  job_files src_job = Some fs →
  workspace src_job
    ≠ root_directory destination +:+ "/workspace/" +:+ get_id src_job →
  node_wf (Dir fs) = true →
  dict_contains FN_MANIFEST fs = true →
  value_wf (VMap (load (job_world src_job ∅))) = true →
  f ≠ update →
  (∀ fn, job_document src_job = JSonDict fn →
         dict_get (fn +:+ "~") fs = None) →
  let destination' :=
    with_jobs (<[get_id src_job := cloned_job destination src_job]>
                 (jobs destination)) destination in
  _clone_or_sync now re_match strategy exclude f dry_run src_job
    (destination', sk)
  = (Done (destination', sk), 2%nat).
Proof.
  intros Habs Hfs Hws Hwf Hman Hdwf Hf Hstale destination'.
  assert (jobs destination' !! get_id src_job
          = Some (cloned_job destination src_job)) as Hc.
  { unfold destination'. simpl. apply lookup_insert_eq. }
  rewrite (_clone_or_sync_present _ _ _ _ _ _ _ _ _ _ Hc).
  rewrite (sync_jobs_same_job now re_match src_job _ strategy exclude f sk
             dry_run false fs); try done.
  cbn [bind fst snd]. rewrite insert_id by done.
  by rewrite with_jobs_same.
Qed.

(** ** The tally of a project synchronization *)

Lemma count_where_cons P j js :
  count_where P (j :: js) = ((if P j then 1 else 0) + count_where P js)%nat.
Proof.
  unfold count_where. rewrite filter_cons.
  destruct (decide (P j = true)) as [->|H]; [done|].
  by apply not_true_is_false in H as ->.
Qed.

Lemma count_where_ext P Q js :
  (∀ j, j ∈ js → P j = Q j) → count_where P js = count_where Q js.
Proof.
  induction js as [|j js IH]; intros H; [done|].
  rewrite !count_where_cons, (H j) by (by left).
  rewrite IH; [done|]. intros k Hk. apply H. by right.
Qed.

Lemma clone_or_sync_job_tally now re_match strategy exclude f dry_run j p0 p1 :
  clone_or_sync_job now re_match strategy exclude f dry_run j p0 = Done p1 →
  num_cloned p1
  = (num_cloned p0 + if absent (destination_now p0) j then 1 else 0)%nat
  ∧ num_synchronized p1
    = (num_synchronized p0 + if absent (destination_now p0) j then 0 else 1)%nat
  ∧ ∀ id, id ≠ get_id j →
          jobs (destination_now p1) !! id = jobs (destination_now p0) !! id.
Proof.
  unfold clone_or_sync_job, absent.
  destruct (jobs (destination_now p0) !! get_id j) as [dst_job|] eqn:Hl.
  - rewrite (_clone_or_sync_present _ _ _ _ _ _ _ _ _ _ Hl). cbn [fst snd].
    destruct (sync_jobs _ _ _ _ _ _ _ _ _ _) as [r|e r]; cbn [bind];
      [|discriminate].
    intros [= <-]. rewrite bool_decide_eq_false_2 by done.
    unfold count. simpl. repeat split; try lia.
    intros id Hid. by rewrite lookup_insert_ne.
  - rewrite (_clone_or_sync_absent _ _ _ _ _ _ _ _ _ Hl). cbn [fst snd].
    intros [= <-]. rewrite bool_decide_eq_true_2 by done.
    unfold count. simpl. repeat split; try lia.
    intros id Hid. by rewrite lookup_insert_ne.
Qed.

Lemma for_each_clone_or_sync_tally now re_match strategy exclude f dry_run js :
  NoDup (get_id <$> js) →
  ∀ p0 p,
    for_each (clone_or_sync_job now re_match strategy exclude f dry_run) js p0
    = Done p →
    num_cloned p
    = (num_cloned p0 + count_where (absent (destination_now p0)) js)%nat
    ∧ num_synchronized p
      = (num_synchronized p0
         + count_where (λ j, negb (absent (destination_now p0) j)) js)%nat.
Proof.
  induction js as [|j js IH]; intros Hnd p0 p Hrun.
  - simpl in Hrun. injection Hrun as <-. unfold count_where. simpl. lia.
  - rewrite fmap_cons in Hnd. apply NoDup_cons in Hnd as [Hj Hnd].
    simpl in Hrun.
    destruct (clone_or_sync_job now re_match strategy exclude f dry_run j p0)
      as [p1|e p1] eqn:Hstep; [|discriminate].
    apply clone_or_sync_job_tally in Hstep as (Hc & Hs & Hother).
    destruct (IH Hnd p1 p Hrun) as [Hc' Hs'].
    assert (∀ k, k ∈ js →
                 absent (destination_now p1) k = absent (destination_now p0) k)
      as Hsame.
    { intros k Hk. unfold absent. rewrite Hother; [done|].
      intros Heq. apply Hj. rewrite <- Heq. apply list_elem_of_fmap. by exists k. }
    rewrite !count_where_cons.
    rewrite (count_where_ext _ (absent (destination_now p0))) in Hc' by done.
    rewrite (count_where_ext _ (λ j, negb (absent (destination_now p0) j)))
      in Hs' by (intros k Hk; by rewrite Hsame).
    destruct (absent (destination_now p0) j); simpl in *; lia.
Qed.

Lemma NoDup_fmap_filter {A B} (g : A → B) (P : A → Prop)
    `{∀ x, Decision (P x)} (l : list A) :
  NoDup (g <$> l) → NoDup (g <$> filter P l).
Proof.
  induction l as [|x l IH]; intros Hnd; [done|].
  rewrite fmap_cons in Hnd. apply NoDup_cons in Hnd as [Hx Hnd].
  rewrite filter_cons. destruct (decide (P x)); [|by apply IH].
  rewrite fmap_cons. apply NoDup_cons. split; [|by apply IH].
  intros Hin. apply Hx. apply list_elem_of_fmap in Hin as (y & -> & Hy).
  apply list_elem_of_filter in Hy as [_ Hy].
  apply list_elem_of_fmap. by exists y.
Qed.

Lemma jobs_to_sync_NoDup source selection :
  project_wf source → NoDup (get_id <$> jobs_to_sync source selection).
Proof.
  intros Hwf.
  assert (NoDup (get_id <$> project_iter source)) as Hnd.
  { unfold project_iter.
    assert (get_id <$> (map_to_list (jobs source)).*2
            = (map_to_list (jobs source)).*1) as ->.
    { rewrite <- list_fmap_compose. apply list_fmap_ext.
      intros i [k j] Hin%list_elem_of_lookup_2. simpl.
      apply elem_of_map_to_list in Hin. by apply Hwf. }
    apply NoDup_fst_map_to_list. }
  destruct selection as [sel|]; [|done]. by apply NoDup_fmap_filter.
Qed.

Lemma sync_projects_tally now re_match source destination strategy exclude
    doc_sync sk selection check_schema dry_run p :
  project_wf source →
  sync_projects now re_match source destination strategy exclude doc_sync sk
    selection check_schema dry_run = Done p →
  num_cloned p = count_where (absent destination) (jobs_to_sync source selection)
  ∧ num_synchronized p
    = count_where (λ j, negb (absent destination j))
        (jobs_to_sync source selection).
Proof.
  intros Hwf. unfold sync_projects.
  destruct (String.eqb _ _); [discriminate|].
  destruct (_ && _); [discriminate|].
  match goal with
  | |- context [bind (bind ?o _ _) _ _] =>
      destruct o as [w|e w]; cbn [bind id]; [|discriminate]
  end.
  intros Hrun.
  apply for_each_clone_or_sync_tally in Hrun;
    [|by apply jobs_to_sync_NoDup].
  simpl in Hrun. exact Hrun.
Qed.

(** ** What the key-by-key synchronization keeps and what it merges *)
Lemma dict_get_dict_set_eq {A} k (v : A) d : dict_get k (dict_set k v d) = Some v.
Proof.
  induction d as [|[k' w] d IH]; simpl.
  - by rewrite String.eqb_refl.
  - destruct (String.eqb k' k) eqn:E; simpl; by rewrite E.
Qed.

Lemma dict_get_dict_set_ne {A} k k' (v : A) d :
  k ≠ k' → dict_get k' (dict_set k v d) = dict_get k' d.
Proof.
  intros Hne. induction d as [|[x w] d IH]; simpl.
  - by apply String.eqb_neq in Hne as ->.
  - destruct (String.eqb x k) eqn:E; simpl.
    + apply String.eqb_eq in E as ->. by apply String.eqb_neq in Hne as ->.
    + by rewrite IH.
Qed.

Lemma dict_get_None_keys {A} k (d : list (string * A)) :
  dict_get k d = None ↔ k ∉ d.*1.
Proof.
  induction d as [|[k' w] d IH]; simpl.
  - split; [intros _; apply not_elem_of_nil|done].
  - rewrite not_elem_of_cons, <- IH.
    destruct (String.eqb k' k) eqn:E.
    + apply String.eqb_eq in E as ->. split; [done|]. by intros [? _].
    + apply String.eqb_neq in E. split; [intros; split; [by intros ->|done]|].
      by intros [_ ?].
Qed.

Lemma dict_get_app {A} k (a b : list (string * A)) :
  dict_get k (a ++ b)
  = match dict_get k a with Some v => Some v | None => dict_get k b end.
Proof.
  induction a as [|[k' w] a IH]; simpl; [done|].
  by destruct (String.eqb k' k).
Qed.

Lemma dict_set_new {A} k (v : A) d :
  dict_get k d = None → dict_set k v d = d ++ [(k, v)].
Proof.
  induction d as [|[k' w] d IH]; simpl; [done|].
  destruct (String.eqb k' k); [done|]. intros H. by rewrite IH.
Qed.

Lemma keeps_refl v : keeps v v.
Proof. by intros p w. Qed.

Lemma keeps_trans a b c : keeps a b → keeps b c → keeps a c.
Proof. intros Hab Hbc p v Hp Hv. apply Hbc; [by apply Hab|done]. Qed.

Lemma keeps_dict_set_new key v d :
  dict_get key d = None → keeps (VMap d) (VMap (dict_set key v d)).
Proof.
  intros Hnone [|k p] w Hp Hw; simpl in *.
  - injection Hp as <-. done.
  - destruct (decide (key = k)) as [->|Hne].
    + by rewrite Hnone in Hp.
    + by rewrite dict_get_dict_set_ne.
Qed.

Lemma keeps_dict_set_nested key dv dv' d :
  dict_get key d = Some dv → keeps dv dv' →
  keeps (VMap d) (VMap (dict_set key dv' d)).
Proof.
  intros Hget Hk [|k p] w Hp Hw; simpl in *.
  - injection Hp as <-. done.
  - destruct (decide (key = k)) as [->|Hne].
    + rewrite dict_get_dict_set_eq. rewrite Hget in Hp. simpl in *.
      by apply Hk.
    + by rewrite dict_get_dict_set_ne.
Qed.

Lemma items_loop_keeps nested dry_run root items :
  Forall (λ e, ∀ dst root sk, keeps dst (final (nested e.2 dst root sk)).1)
    items →
  ∀ dst sk,
    keeps dst (final (DocSync.items_loop nested None dry_run root items dst sk)).1.
Proof.
  induction 1 as [|[key v] items Hv _ IH]; intros dst sk; simpl.
  - apply keeps_refl.
  - destruct dst as [| | |d]; simpl; try apply keeps_refl.
    destruct (dict_get key d) as [dv|] eqn:Hget.
    + destruct (value_eqb dv v); [apply IH|].
      destruct (is_mapping v).
      * specialize (Hv dv (key +:+ ".") sk). simpl in Hv.
        destruct (nested v dv (key +:+ ".") sk) as [[dv' sk']|e [dv' sk']];
          simpl in *.
        -- eapply keeps_trans; [|apply IH].
           by apply (keeps_dict_set_nested key dv).
        -- by apply (keeps_dict_set_nested key dv).
      * apply IH.
    + eapply keeps_trans; [|apply IH].
      unfold DocSync.setitem. destruct dry_run; [apply keeps_refl|].
      by apply keeps_dict_set_new.
Qed.

(** X1: a [ByKey] functor without key strategy never overwrites and
    never removes: every value of the destination document that is no
    mapping is at its key path afterwards, at every depth, whether the
    call returns or raises, in either mode of the proxy. *)
Theorem ByKey_without_key_strategy_keeps_every_destination_value :
  ∀ src dry_run dst root sk,
    keeps dst (final (DocSync.call None dry_run src dst root sk)).1.
Proof.
  induction src as [| | |items IH] using value_nested_ind;
    intros dry_run dst root sk.
  1-3: simpl;
       match goal with |- context [if ?b then _ else _] => destruct b end;
       apply keeps_refl.
  rewrite call_VMap.
  destruct (value_eqb (VMap items) dst); [apply keeps_refl|].
  pose proof (items_loop_keeps (DocSync.call None false) dry_run root items
                (Forall_impl _ _ _ IH (λ e H, H false)) dst sk) as Hl.
  destruct (DocSync.items_loop _ None dry_run root items dst sk) as [s|e s];
    simpl in *; [|done].
  by rewrite check_skipped_final.
Qed.

(** The loop only writes at the keys of [src]. *)
Lemma items_loop_frame nested ks dry_run root items k :
  k ∉ items.*1 →
  ∀ dst sk,
    getitem k (final (DocSync.items_loop nested ks dry_run root items dst sk)).1
    = getitem k dst.
Proof.
  induction items as [|[key v] items IH]; intros Hk dst sk; simpl; [done|].
  rewrite fmap_cons in Hk. apply not_elem_of_cons in Hk as [Hne Hk].
  simpl in Hne. specialize (IH Hk).
  assert (∀ w d, getitem k (VMap (dict_set key w d)) = getitem k (VMap d))
    as Hset by (intros w d; simpl; by rewrite dict_get_dict_set_ne).
  assert (∀ w d, getitem k (DocSync.setitem dry_run key w d) = getitem k (VMap d))
    as Hput by (intros w d; unfold DocSync.setitem; destruct dry_run; [done|apply Hset]).
  destruct dst as [| | |d]; simpl; try done.
  destruct (dict_get key d) as [dv|] eqn:Hget.
  - destruct (value_eqb dv v); [apply IH|].
    destruct (is_mapping v).
    + destruct (nested v dv (key +:+ ".") sk) as [[dv' sk']|e [dv' sk']].
      * rewrite IH. apply Hset.
      * apply Hset.
    + destruct (match ks with None => true | Some f => negb (f (root +:+ key)) end).
      * apply IH.
      * rewrite IH. apply Hput.
  - rewrite IH. apply Hput.
Qed.

(** X2: whatever the key strategy and the outcome, a key of the
    destination that the source document does not have keeps its
    value: nothing is removed, nothing else is rewritten. *)
Theorem ByKey_leaves_keys_absent_from_the_source
    (ks : option (string → bool)) (dry_run : bool)
    (items : list (string * value)) (dst : value) (root : string)
    (sk : gset string) (k : string) :
  k ∉ dict_keys items →
  getitem k (final (DocSync.call ks dry_run (VMap items) dst root sk)).1
  = getitem k dst.
Proof.
  intros Hk. rewrite call_VMap.
  destruct (value_eqb (VMap items) dst); [done|].
  pose proof (items_loop_frame (DocSync.call ks false) ks dry_run root items k
                Hk dst sk) as Hl.
  destruct (DocSync.items_loop _ ks dry_run root items dst sk) as [s|e s];
    simpl in *; [|done].
  by rewrite check_skipped_final.
Qed.

(** The key [z] of the destination, next to a conflict on [b.c]. *)
Lemma ByKey_leaves_keys_absent_from_the_source_witness :
  getitem "z" (final (DocSync.call None false (VMap src_doc)
                        (VMap (dst_doc ++ [("z", VInt 7)])) "" ∅)).1
  = Some (VInt 7).
Proof.
  refine (ByKey_leaves_keys_absent_from_the_source None false src_doc
            (VMap (dst_doc ++ [("z", VInt 7)])) "" ∅ "z" _).
  apply (bool_decide_unpack _). by vm_compute.
Defined.

Lemma value_eqb_leaf a b :
  is_mapping a = false → value_eqb a b = true → b = a.
Proof.
  destruct a, b; simpl; try done.
  - intros _ H. by apply Z.eqb_eq in H as ->.
  - intros _ H. by apply String.eqb_eq in H as ->.
Qed.

Lemma value_eqb_VMap_true m n :
  value_eqb (VMap m) (VMap n) = true →
  length m = length n
  ∧ ∀ k v, (k, v) ∈ m → ∃ w, dict_get k n = Some w ∧ value_eqb v w = true.
Proof.
  rewrite value_eqb_VMap, andb_true_iff, Nat.eqb_eq, forallb_forall.
  intros [Hlen Hall]. split; [done|]. intros k v Hin.
  apply list_elem_of_In in Hin. specialize (Hall _ Hin). simpl in Hall.
  destruct (dict_get k n) as [w|]; [|done]. by exists w.
Qed.

(** Equal documents hold the same values at the same key paths. *)
Lemma value_eqb_keeps a : ∀ b, value_eqb a b = true → keeps a b.
Proof.
  induction a as [| | |m IH] using value_nested_ind; intros b Heq.
  1-3: intros [|k p] v Hp Hv; simpl in Hp; [|done]; injection Hp as <-;
       by rewrite (value_eqb_leaf _ b Hv Heq).
  destruct b as [| | |n]; try done.
  apply value_eqb_VMap_true in Heq as [_ Hall].
  intros [|k p] v Hp Hv; simpl in Hp.
  - injection Hp as <-. done.
  - destruct (dict_get k m) as [v0|] eqn:Hget; [|done]. simpl in Hp.
    apply dict_get_Some_In in Hget.
    destruct (Hall k v0 Hget) as (w & Hw & Hvw).
    simpl. rewrite Hw. simpl.
    rewrite Forall_forall in IH. by apply (IH (k, v0) Hget w Hvw).
Qed.

(** [==] is symmetric on mappings with one entry per key. *)
Lemma value_eqb_sym a :
  ∀ b, value_wf a = true → value_wf b = true →
       value_eqb a b = true → value_eqb b a = true.
Proof.
  induction a as [| | |m IH] using value_nested_ind; intros b Ha Hb Heq.
  - by destruct b.
  - destruct b; try done. simpl in *. by rewrite Z.eqb_sym.
  - destruct b; try done. simpl in *. by rewrite String.eqb_sym.
  - destruct b as [| | |n]; try done.
    apply value_wf_VMap in Ha as [Hndm Hwfm].
    apply value_wf_VMap in Hb as [Hndn Hwfn].
    apply value_eqb_VMap_true in Heq as [Hlen Hall].
    rewrite value_eqb_VMap, andb_true_iff, Nat.eqb_eq, forallb_forall.
    split; [done|]. intros [k w] Hin. apply list_elem_of_In in Hin. simpl.
    assert (m.*1 ≡ₚ n.*1) as Hperm.
    { apply submseteq_length_Permutation; [|by rewrite !length_fmap, Hlen].
      apply NoDup_submseteq; [done|]. intros x Hx.
      apply list_elem_of_fmap in Hx as ([k' v] & -> & Hx).
      destruct (Hall k' v Hx) as (w' & Hw' & _).
      apply dict_get_Some_In in Hw'. apply list_elem_of_fmap.
      by exists (k', w'). }
    assert (k ∈ m.*1) as Hk.
    { rewrite Hperm. apply list_elem_of_fmap. by exists (k, w). }
    apply list_elem_of_fmap in Hk as ([k' v] & Hkk & Hv). simpl in Hkk. subst k'.
    rewrite (dict_get_In m k v Hndm Hv).
    destruct (Hall k v Hv) as (w' & Hw' & Hvw).
    rewrite (dict_get_In n k w Hndn Hin) in Hw'. injection Hw' as <-.
    rewrite Forall_forall in IH, Hwfm, Hwfn.
    apply (IH (k, v) Hv w); [apply (Hwfm (k, v) Hv)|apply (Hwfn (k, w) Hin)|done].
Qed.

Lemma skips_nothing_mono ks sk sk' :
  sk ⊆ sk' → skips_nothing ks sk' → skips_nothing ks sk.
Proof. intros Hsub [->|H]; [left; set_solver|by right]. Qed.

Lemma value_wf_getitem k dst dv :
  value_wf dst = true → getitem k dst = Some dv → value_wf dv = true.
Proof.
  destruct dst as [| | |d]; try done. intros Hwf Hget. simpl in Hget.
  apply value_wf_VMap in Hwf as [_ Hwf]. rewrite Forall_forall in Hwf.
  apply dict_get_Some_In in Hget. apply (Hwf (k, dv) Hget).
Qed.

(** After a loop that returns and skips nothing, the destination has
    every entry of the source, merged. *)
Lemma items_loop_merges ks root items :
  Forall (λ e, ∀ dst root sk dst' sk',
            value_wf e.2 = true → value_wf dst = true →
            DocSync.call ks false e.2 dst root sk = Done (dst', sk') →
            skips_nothing ks sk' → keeps e.2 dst') items →
  NoDup items.*1 →
  Forall (λ e, value_wf e.2 = true) items →
  ∀ dst sk dst' sk',
    (∀ k dv, k ∈ items.*1 → getitem k dst = Some dv → value_wf dv = true) →
    DocSync.items_loop (DocSync.call ks false) ks false root items dst sk
    = Done (dst', sk') →
    skips_nothing ks sk' →
    ∀ k v, dict_get k items = Some v →
           ∃ dv', getitem k dst' = Some dv' ∧ keeps v dv'.
Proof.
  induction 1 as [|[key val] items Hv _ IH];
    intros Hnd Hwf dst sk dst' sk' Hdst Hrun Hq k v Hk; [done|].
  rewrite fmap_cons in Hnd. apply NoDup_cons in Hnd as [Hkey Hnd].
  apply Forall_cons in Hwf as [Hwfv Hwf]. simpl in Hkey, Hwfv, Hv, Hk.
  specialize (IH Hnd Hwf).
  assert (∀ dst1 sk1,
            DocSync.items_loop (DocSync.call ks false) ks false root items
              dst1 sk1 = Done (dst', sk') →
            getitem key dst' = getitem key dst1 ∧ sk1 ⊆ sk') as Hrest.
  { intros dst1 sk1 Hrun1.
    pose proof (items_loop_frame (DocSync.call ks false) ks false root items
                  key Hkey dst1 sk1) as Hf.
    assert (Forall (λ e : string * value, ∀ dst root sk,
                      grows sk (DocSync.call ks false e.2 dst root sk)) items)
      as Hgrows by (apply Forall_forall; intros e _; apply call_grows).
    pose proof (items_loop_grows (DocSync.call ks false) ks false root items
                  Hgrows dst1 sk1) as Hg.
    unfold grows in Hg. rewrite Hrun1 in Hf, Hg. done. }
  assert (∀ w d, (∀ k dv, k ∈ items.*1 →
                          getitem k (VMap (dict_set key w d)) = Some dv →
                          value_wf dv = true)
                 ↔ (∀ k dv, k ∈ items.*1 → getitem k (VMap d) = Some dv →
                            value_wf dv = true)) as Hwfset.
  { intros w d. split; intros H k' dv Hk' Hget; apply (H k' dv Hk').
    - simpl in *. rewrite dict_get_dict_set_ne; [done|]. by intros ->.
    - simpl in *. rewrite dict_get_dict_set_ne in Hget; [done|]. by intros ->. }
  assert (∀ k' dv, k' ∈ items.*1 → getitem k' dst = Some dv → value_wf dv = true)
    as Hdst'.
  { intros k' dv Hk'. apply Hdst. rewrite fmap_cons. by right. }
  simpl in Hrun. destruct dst as [| | |d]; try done.
  (* the entry of [key] after this round, and the rest of the loop *)
  assert (∀ dv1 d1 sk1,
            dict_get key d1 = Some dv1 → keeps val dv1 →
            (∀ k dv, k ∈ items.*1 → getitem k (VMap d1) = Some dv →
                     value_wf dv = true) →
            DocSync.items_loop (DocSync.call ks false) ks false root items
              (VMap d1) sk1 = Done (dst', sk') →
            ∃ dv', getitem k dst' = Some dv' ∧ keeps v dv') as Hstep.
  { intros dv1 d1 sk1 Hget1 Hkeep1 Hwf1 Hrun1.
    destruct (String.eqb key k) eqn:E.
    - apply String.eqb_eq in E as <-. injection Hk as <-.
      destruct (Hrest _ _ Hrun1) as [-> _]. by exists dv1.
    - by apply (IH (VMap d1) sk1 dst' sk'). }
  destruct (dict_get key d) as [dv|] eqn:Hget.
  - assert (value_wf dv = true) as Hwfdv.
    { apply (Hdst key dv); [rewrite fmap_cons; by left|done]. }
    destruct (value_eqb dv val) eqn:Heq.
    { apply (Hstep dv d sk); try done.
      apply value_eqb_keeps. by apply value_eqb_sym. }
    destruct (is_mapping val) eqn:Hmap.
    { destruct (DocSync.call ks false val dv (key +:+ ".") sk)
        as [[dv' sk1]|e [dv' sk1]] eqn:Hnested; [|done].
      apply (Hstep dv' (dict_set key dv' d) sk1); try done.
      - apply dict_get_dict_set_eq.
      - apply (Hv dv (key +:+ ".") sk dv' sk1); try done.
        apply (skips_nothing_mono ks sk1 sk'); [|done].
        by destruct (Hrest _ _ Hrun).
      - by apply Hwfset. }
    destruct (match ks with None => true | Some f => negb (f (root +:+ key)) end)
      eqn:Hskip.
    { exfalso. destruct (Hrest _ _ Hrun) as [_ Hsub].
      destruct Hq as [->|(f & -> & Hf)].
      { apply (not_elem_of_empty (C:=gset string) (root +:+ key)), Hsub.
        by apply elem_of_union_l, elem_of_singleton. }
      by rewrite Hf in Hskip. }
    apply (Hstep val (dict_set key val d) sk); try done.
    + apply dict_get_dict_set_eq.
    + apply keeps_refl.
    + by apply Hwfset.
  - apply (Hstep val (dict_set key val d) sk); try done.
    + apply dict_get_dict_set_eq.
    + apply keeps_refl.
    + by apply Hwfset.
Qed.

(** X3: a call that returns and skips nothing (no key is on record at
    the end, or the key strategy accepts every key) has merged the
    whole source document: every value of the source that is no mapping
    is at its key path in the destination, at every depth.  The
    documents are mappings with one entry per key. *)
Theorem ByKey_that_skips_nothing_merges_every_source_value
    (ks : option (string → bool)) (src dst : value) (root : string)
    (sk : gset string) (dst' : value) (sk' : gset string) :
  value_wf src = true → value_wf dst = true →
  DocSync.call ks false src dst root sk = Done (dst', sk') →
  skips_nothing ks sk' →
  keeps src dst'.
Proof.
  revert dst root sk dst' sk'.
  induction src as [| | |items IH] using value_nested_ind;
    intros dst root sk dst' sk' Hsrc Hdst Hrun Hq.
  1-3: simpl in Hrun;
       match type of Hrun with
       | (if ?b then _ else _) = _ => destruct b eqn:Heq; [|done]
       end; injection Hrun as <- <-; by apply value_eqb_keeps.
  rewrite call_VMap in Hrun.
  destruct (value_eqb (VMap items) dst) eqn:Heq.
  { injection Hrun as <- <-. by apply value_eqb_keeps. }
  destruct (DocSync.items_loop _ ks false root items dst sk) as [[d1 sk1]|e s]
    eqn:Hloop; [|done].
  cbn [bind id] in Hrun.
  assert (d1 = dst' ∧ sk1 = sk') as [-> ->].
  { unfold DocSync.check_skipped in Hrun.
    destruct (_ && _); [destruct ks|]; try done; by injection Hrun as <- <-. }
  apply value_wf_VMap in Hsrc as [Hnd Hwf].
  pose proof (items_loop_merges ks root items IH Hnd Hwf dst sk dst' sk'
                (λ k dv _, value_wf_getitem k dst dv Hdst) Hloop Hq) as Hm.
  intros [|k p] v Hp Hv; simpl in Hp.
  - injection Hp as <-. done.
  - destruct (dict_get k items) as [v0|] eqn:Hget; [|done]. simpl in Hp.
    destruct (Hm k v0 Hget) as (dv' & Hdv' & Hkeep).
    destruct dst' as [| | |d']; try done. simpl in *. rewrite Hdv'. simpl.
    by apply Hkeep.
Qed.

(** {a: 1, b: {c: 2}} merged into {a: 1, b: {d: 4}}. *)
Lemma ByKey_that_skips_nothing_merges_every_source_value_witness :
  keeps (VMap src_doc)
    (VMap [("a", VInt 1); ("b", VMap [("d", VInt 4); ("c", VInt 2)])]).
Proof.
  refine (ByKey_that_skips_nothing_merges_every_source_value None
            (VMap src_doc) (VMap [("a", VInt 1); ("b", VMap [("d", VInt 4)])])
            "" ∅ _ ∅ _ _ _ _).
  - by vm_compute.
  - by vm_compute.
  - by vm_compute.
  - by left.
Defined.

Lemma load_save now d w : load (save now d w) = d.
Proof.
  unfold load, save. destruct (doc w) as [fn|m] eqn:Hdoc; simpl; [|done].
  by rewrite Hdoc, dict_get_dir_put_eq.
Qed.

Lemma _DocProxy_update_load now other keys :
  ∀ w,
    load (foldl (λ w key,
                   match dict_get key other with
                   | Some v => _DocProxy_setitem now false key v w
                   | None => w
                   end) w keys)
    = update_keys other keys (load w).
Proof.
  induction keys as [|key keys IH]; intros w; simpl; [done|].
  rewrite IH. f_equal. destruct (dict_get key other); [|done].
  unfold _DocProxy_setitem. apply load_save.
Qed.

Lemma _DocProxy_update_dry_run now other keys :
  ∀ w,
    foldl (λ w key,
             match dict_get key other with
             | Some v => _DocProxy_setitem now true key v w
             | None => w
             end) w keys = w.
Proof.
  induction keys as [|key keys IH]; intros w; simpl; [done|].
  destruct (dict_get key other); apply IH.
Qed.

Lemma dict_get_update_keys other keys :
  ∀ d k,
    dict_get k (update_keys other keys d)
    = if bool_decide (k ∈ keys)
      then match dict_get k other with
           | Some v => Some v
           | None => dict_get k d
           end
      else dict_get k d.
Proof.
  unfold update_keys.
  induction keys as [|key keys IH]; intros d k; [done|].
  simpl. rewrite IH.
  destruct (decide (k = key)) as [->|Hne].
  - rewrite (bool_decide_eq_true_2 (key ∈ key :: keys)) by (by left).
    destruct (dict_get key other) as [v|] eqn:Hget.
    + rewrite dict_get_dict_set_eq. by destruct (bool_decide _).
    + by destruct (bool_decide _).
  - assert (bool_decide (k ∈ key :: keys) = bool_decide (k ∈ keys)) as ->.
    { apply bool_decide_ext. rewrite elem_of_cons. by split; [intros [?|?]|right]. }
    destruct (dict_get key other); [|done].
    by rewrite dict_get_dict_set_ne.
Qed.

(** Updating with keys the mapping does not have appends the
    entries. *)
Lemma update_keys_disjoint (src d0 : dict) :
  NoDup src.*1 →
  (∀ k, k ∈ src.*1 → dict_get k d0 = None) →
  ∀ todo done,
    src = done ++ todo →
    update_keys src todo.*1 (d0 ++ done) = d0 ++ src.
Proof.
  intros Hnd Hdis. induction todo as [|[k v] todo IH]; intros done Hsrc.
  - simpl. by rewrite Hsrc, app_nil_r.
  - rewrite fmap_cons. simpl.
    assert (dict_get k done = None) as Hdone.
    { apply dict_get_None_keys. intros Hin. rewrite Hsrc, fmap_app in Hnd.
      apply NoDup_app in Hnd as (_ & Hnd & _).
      apply (Hnd k Hin). rewrite fmap_cons. by left. }
    assert (dict_get k src = Some v) as ->.
    { rewrite Hsrc, dict_get_app, Hdone. simpl. by rewrite String.eqb_refl. }
    rewrite dict_set_new.
    + rewrite <- app_assoc. apply IH. by rewrite <- app_assoc.
    + rewrite dict_get_app, Hdis, Hdone; [done|].
      rewrite Hsrc, fmap_app, fmap_cons. apply elem_of_app. right. by left.
Qed.

Lemma items_loop_disjoint nested ks root :
  ∀ items d sk,
    (∀ k, k ∈ items.*1 → dict_get k d = None) →
    NoDup items.*1 →
    DocSync.items_loop nested ks false root items (VMap d) sk
    = Done (VMap (d ++ items), sk).
Proof.
  induction items as [|[k v] items IH]; intros d sk Hdis Hnd; simpl.
  - by rewrite app_nil_r.
  - rewrite fmap_cons in Hnd. apply NoDup_cons in Hnd as [Hk Hnd]. simpl in Hk.
    rewrite (Hdis k) by (rewrite fmap_cons; by left).
    unfold DocSync.setitem. rewrite dict_set_new
      by (apply Hdis; rewrite fmap_cons; by left).
    rewrite IH; [by rewrite <- app_assoc| |done].
    intros k' Hk'. rewrite dict_get_app, Hdis by (rewrite fmap_cons; by right).
    simpl. destruct (String.eqb k k') eqn:E; [|done].
    apply String.eqb_eq in E as ->. done.
Qed.

(** X4: on a source whose keys the destination does not have, a fresh
    [ByKey] functor (no key on record) does what [DocSync.update] does,
    whatever its key strategy: the call returns, the entries of the
    source follow those of the destination in the order of the source,
    and nothing is skipped. *)
Theorem ByKey_on_new_keys_is_update
    (ks : option (string → bool)) (src dst : dict) (root : string) :
  NoDup (dict_keys src) →
  (∀ k, k ∈ dict_keys src → dict_get k dst = None) →
  DocSync.call ks false (VMap src) (VMap dst) root ∅
  = Done (VMap (dst ++ src), ∅)
  ∧ ∀ now w, load w = dst →
             load (DocSync_update now false src w) = dst ++ src.
Proof.
  intros Hnd Hdis. split.
  - rewrite call_VMap.
    destruct (value_eqb (VMap src) (VMap dst)) eqn:Heq.
    + apply value_eqb_VMap_true in Heq as [Hlen Hall].
      destruct src as [|[k v] src].
      * destruct dst; [done|discriminate Hlen].
      * destruct (Hall k v) as (w & Hw & _); [by left|].
        rewrite Hdis in Hw; [done|]. unfold dict_keys. rewrite fmap_cons. by left.
    + rewrite items_loop_disjoint by done. cbn [bind id].
      unfold DocSync.check_skipped. cbn [snd].
      by rewrite (bool_decide_eq_false_2 ((∅ : gset string) ≠ ∅)) by (by intros H).
  - intros now w <-. unfold DocSync_update.
    rewrite _DocProxy_update_load.
    pose proof (update_keys_disjoint src (load w) Hnd Hdis src [] eq_refl) as H.
    by rewrite app_nil_r in H.
Qed.

Lemma ByKey_on_new_keys_is_update_witness :
  DocSync.call None false (VMap [("n", VInt 1)]) (VMap [("a", VInt 2)]) "" ∅
  = Done (VMap [("a", VInt 2); ("n", VInt 1)], ∅)
  ∧ ∀ now w, load w = [("a", VInt 2)] →
             load (DocSync_update now false [("n", VInt 1)] w)
             = [("a", VInt 2); ("n", VInt 1)].
Proof.
  refine (ByKey_on_new_keys_is_update None [("n", VInt 1)] [("a", VInt 2)] ""
            _ _).
  - apply (bool_decide_unpack _). by vm_compute.
  - intros k Hk. apply list_elem_of_singleton in Hk as ->. reflexivity.
Defined.

Lemma items_loop_dry_run nested ks root items :
  Forall (λ e, is_mapping e.2 = false) items →
  ∀ dst sk,
    (final (DocSync.items_loop nested ks true root items dst sk)).1 = dst.
Proof.
  induction 1 as [|[key v] items Hv _ IH]; intros dst sk; simpl; [done|].
  simpl in Hv. rewrite Hv.
  destruct dst as [| | |d]; simpl; try done.
  destruct (dict_get key d) as [dv|]; [|apply IH].
  destruct (value_eqb dv v); [apply IH|].
  destruct (match ks with None => true | Some f => negb (f (root +:+ key)) end);
    apply IH.
Qed.

(** X5: through a proxy in dry-run mode, a source document whose
    values are no mappings leaves the destination document as it was,
    whatever the key strategy and the outcome: the writes of the
    top-level call all go through [__setitem__]. *)
Theorem ByKey_dry_run_keeps_a_document_given_plain_values
    (ks : option (string → bool)) (items : list (string * value))
    (dst : value) (root : string) (sk : gset string) :
  Forall (λ e, is_mapping e.2 = false) items →
  (final (DocSync.call ks true (VMap items) dst root sk)).1 = dst.
Proof.
  intros Hflat. rewrite call_VMap.
  destruct (value_eqb (VMap items) dst); [done|].
  pose proof (items_loop_dry_run (DocSync.call ks false) ks root items Hflat
                dst sk) as Hl.
  destruct (DocSync.items_loop _ ks true root items dst sk) as [s|e s];
    simpl in *; [|done].
  by rewrite check_skipped_final.
Qed.

Lemma ByKey_dry_run_keeps_a_document_given_plain_values_witness :
  (final (DocSync.call (Some (λ _, true)) true
            (VMap [("a", VInt 1); ("n", VStr "new")])
            (VMap [("a", VInt 2)]) "" ∅)).1
  = VMap [("a", VInt 2)].
Proof.
  apply (ByKey_dry_run_keeps_a_document_given_plain_values
           (Some (λ _, true)) [("a", VInt 1); ("n", VStr "new")]
           (VMap [("a", VInt 2)]) "" ∅).
  repeat constructor.
Defined.

Lemma append_dot_nonempty key : key +:+ "." ≠ "".
Proof. by destruct key. Qed.

Lemma items_loop_raises_no_conflict nested ks dry_run root items :
  Forall (λ e, ∀ dst root sk, root ≠ "" → no_conflict (nested e.2 dst root sk))
    items →
  ∀ dst sk,
    no_conflict (DocSync.items_loop nested ks dry_run root items dst sk).
Proof.
  unfold no_conflict.
  induction 1 as [|[key v] items Hv _ IH]; intros dst sk keys; simpl; [done|].
  destruct dst as [| | |d]; simpl; try done.
  destruct (dict_get key d) as [dv|]; [|apply IH].
  destruct (value_eqb dv v); [apply IH|].
  destruct (is_mapping v).
  - specialize (Hv dv (key +:+ ".") sk (append_dot_nonempty key) keys).
    simpl in Hv.
    destruct (nested v dv (key +:+ ".") sk) as [[dv' sk']|e [dv' sk']];
      simpl in *; [apply IH|done].
  - destruct (match ks with None => true | Some f => negb (f (root +:+ key)) end);
      apply IH.
Qed.

(** X6: a [DocumentSyncConflict] is only ever raised by a call without
    key strategy and with the empty root, that is by the top-level call
    and by none of the nested ones; the keys it carries are the skipped
    keys of the functor at that moment, there is at least one, and the
    keys on record before the call are among them. *)
Theorem DocumentSyncConflict_comes_from_the_top_level_call :
  ∀ ks dry_run src dst root sk keys,
    raised (DocSync.call ks dry_run src dst root sk)
    = Some (DocumentSyncConflict keys) →
    ks = None ∧ root = "" ∧ keys ≠ ∅ ∧ sk ⊆ keys
    ∧ keys = (final (DocSync.call ks dry_run src dst root sk)).2.
Proof.
  intros ks dry_run src. revert dry_run.
  assert (∀ src dry_run dst root sk,
            root ≠ "" → no_conflict (DocSync.call ks dry_run src dst root sk))
    as Hnested.
  { clear src. induction src as [| | |items IH] using value_nested_ind;
      intros dry_run dst root sk Hroot keys.
    1-3: simpl; match goal with |- context [if ?b then _ else _] => by destruct b end.
    rewrite call_VMap. destruct (value_eqb (VMap items) dst); [done|].
    pose proof (items_loop_raises_no_conflict (DocSync.call ks false) ks
                  dry_run root items
                  (Forall_impl _ _ _ IH (λ e H, H false)) dst sk keys) as Hl.
    destruct (DocSync.items_loop _ ks dry_run root items dst sk) as [s|e s];
      simpl in *; [|done].
    unfold DocSync.check_skipped.
    rewrite (bool_decide_eq_false_2 (root = "")) by done.
    by rewrite andb_false_r. }
  intros dry_run dst root sk keys Hraised.
  pose proof (call_grows ks src dry_run dst root sk) as Hgrows.
  unfold grows in Hgrows.
  destruct src as [| | |items].
  1-3: simpl in Hraised;
       match type of Hraised with
       | context [if ?b then _ else _] => by destruct b
       end.
  rewrite call_VMap in Hraised, Hgrows |- *.
  destruct (value_eqb (VMap items) dst); [done|].
  assert (Forall (λ e : string * value, ∀ dst root sk,
                    root ≠ "" →
                    no_conflict (DocSync.call ks false e.2 dst root sk)) items)
    as Hitems by (apply Forall_forall; intros e _; apply Hnested).
  pose proof (items_loop_raises_no_conflict (DocSync.call ks false) ks
                dry_run root items Hitems dst sk keys) as Hl.
  destruct (DocSync.items_loop _ ks dry_run root items dst sk) as [s|e s];
    simpl in *; [|done].
  unfold DocSync.check_skipped in *.
  destruct (bool_decide (s.2 ≠ ∅)) eqn:Hne; [|done].
  destruct (bool_decide (root = "")) eqn:Hroot; [|done].
  apply bool_decide_eq_true in Hne, Hroot. simpl in *.
  destruct ks; [done|]. simpl in *. injection Hraised as <-. done.
Qed.

Lemma DocumentSyncConflict_comes_from_the_top_level_call_witness :
  (None : option (string → bool)) = None ∧ "" = ""
  ∧ ({[ "b.c" ]} : gset string) ≠ ∅ ∧ (∅ : gset string) ⊆ {[ "b.c" ]}
  ∧ ({[ "b.c" ]} : gset string)
    = (final (DocSync.call None false (VMap src_doc) (VMap dst_doc) "" ∅)).2.
Proof.
  apply (DocumentSyncConflict_comes_from_the_top_level_call None false
           (VMap src_doc) (VMap dst_doc) "" ∅ {[ "b.c" ]}).
  by vm_compute.
Defined.

(** X7: [DocSync.update] through the proxy: in dry-run mode nothing
    is written; otherwise every key of the source reads as in the
    source afterwards and every other key as before. *)
Theorem update_sets_the_keys_of_the_source :
  ∀ now src w,
    DocSync_update now true src w = w
    ∧ ∀ k, dict_get k (load (DocSync_update now false src w))
           = match dict_get k src with
             | Some v => Some v
             | None => dict_get k (load w)
             end.
Proof.
  intros now src w. split; [apply _DocProxy_update_dry_run|].
  intros k. unfold DocSync_update.
  rewrite _DocProxy_update_load, dict_get_update_keys.
  destruct (bool_decide (k ∈ dict_keys src)) eqn:Hk; [done|].
  apply bool_decide_eq_false in Hk. apply dict_get_None_keys in Hk.
  by rewrite Hk.
Qed.

(** ** The document backup held in memory *)

Lemma create_doc_backup_in_memory now dry_run body w :
  backed_up_in_memory w = true →
  create_doc_backup now dry_run body w
  = try_except (body dry_run w)
      (λ e w', Raised e (_DocProxy_update now dry_run (load w)
                           (_DocProxy_clear now w'))).
Proof.
  unfold backed_up_in_memory, create_doc_backup.
  destruct (doc w) as [fn|m]; [|done]. by intros ->.
Qed.

(** X8: [create_doc_backup] on a document that has no file name, is
    empty, or whose file does not exist, with the proxy not in dry-run
    mode: a region that returns is left alone; when it raises, the same
    exception goes on and the document holds what it held before the
    region was entered, entry by entry and in the same order. *)
Theorem create_doc_backup_puts_the_document_back
    (now : Z) (body : bool → world → outcome world) (w : world) :
  backed_up_in_memory w = true →
  NoDup (dict_keys (load w)) →
  match body false w with
  | Done w' => create_doc_backup now false body w = Done w'
  | Raised e w' =>
      ∃ w'', create_doc_backup now false body w = Raised e w''
             ∧ load w'' = load w
             ∧ skipped w'' = skipped w'
  end.
Proof.
  intros Hmem Hnd. rewrite create_doc_backup_in_memory by done.
  destruct (body false w) as [w'|e w']; [done|]. cbn [try_except].
  eexists. split; [done|]. split.
  - unfold _DocProxy_update. rewrite _DocProxy_update_load.
    unfold _DocProxy_clear. rewrite load_save.
    apply (update_keys_disjoint (load w) [] Hnd (λ _ _, eq_refl) (load w) []
             eq_refl).
  - unfold _DocProxy_update, _DocProxy_clear.
    assert (∀ keys w0,
              skipped (foldl (λ w1 key,
                         match dict_get key (load w) with
                         | Some v => _DocProxy_setitem now false key v w1
                         | None => w1
                         end) w0 keys) = skipped w0) as Hsk.
    { induction keys as [|key keys IH]; intros w0; simpl; [done|].
      rewrite IH. destruct (dict_get key (load w)); [|done].
      unfold _DocProxy_setitem, save. by destruct (doc w0). }
    rewrite Hsk. unfold save. by destruct (doc w').
Qed.

Lemma create_doc_backup_puts_the_document_back_witness :
  ∃ w'', create_doc_backup 7 false failing_sync rollback_world
         = Raised ValueError w''
         ∧ load w'' = [("a", VInt 2)]
         ∧ skipped w'' = ∅.
Proof.
  refine (create_doc_backup_puts_the_document_back 7 failing_sync
            rollback_world _ _).
  - reflexivity.
  - apply (bool_decide_unpack _). by vm_compute.
Defined.

(** ** Dry runs of the workspace walk *)

(** What every round of a loop keeps, the loop keeps, returning or
    raising. *)
Lemma for_each_invariant {A S} (I : S → Prop) (f : A → S → outcome S) l :
  (∀ a s, a ∈ l → I s → I (final (f a s))) →
  ∀ s, I s → I (final (for_each f l s)).
Proof.
  induction l as [|a l IH]; intros Hf s Hs; simpl; [done|].
  pose proof (Hf a s (list_elem_of_here _ _) Hs) as Ha.
  destruct (f a s) as [s'|e s']; simpl in *; [|done].
  apply IH; [|done]. intros b s0 Hb. apply Hf. by right.
Qed.

Lemma bind_invariant {S} (I : S → Prop) (o : outcome S) (k : S → outcome S) :
  I (final o) → (∀ s, I s → I (final (k s))) → I (final (bind o id k)).
Proof. destruct o as [s|e s]; simpl; intros Ho Hk; [by apply Hk|done]. Qed.

Lemma _sync_job_workspaces_dry_run_unchanged now re_match src strategy exclude
    deep n :
  ∀ subdir w,
    final (_sync_job_workspaces now re_match src strategy exclude true deep
             n subdir w) = w.
Proof.
  induction n as [t data|l IH] using node_nested_ind; intros subdir w; [done|].
  simpl. destruct (get_node subdir (Dir (files w))) as [[|r]|]; try done.
  apply (bind_invariant (λ w', w' = w)).
  { apply (for_each_invariant (λ w', w' = w)); [|done].
    intros e s _ ->. destruct (excluded _ _ _); [done|].
    by case_if. }
  intros ? ->.
  apply (bind_invariant (λ w', w' = w)).
  { apply (for_each_invariant (λ w', w' = w)); [|done].
    intros e s _ ->. destruct (excluded _ _ _); [done|].
    destruct strategy as [s|]; [|done]. by destruct (s _ _ _). }
  intros ? ->.
  apply (for_each_invariant (λ w', w' = w)); [|done].
  intros e s He ->. destruct (is_subdir l r e); [|done].
  rewrite Forall_forall in IH. apply (IH e He).
Qed.

(** X9: with the proxy in dry-run mode the workspace walk changes
    nothing: the destination workspace, the document and the skipped
    keys are what they were, whether the walk returns or raises. *)
Theorem dry_run_walk_changes_nothing :
  ∀ now re_match src strategy exclude deep left_dir subdir w,
    final (_sync_job_workspaces now re_match src strategy exclude true deep
             left_dir subdir w) = w.
Proof. intros. apply _sync_job_workspaces_dry_run_unchanged. Qed.

Lemma world_job_job_world j sk :
  is_Some (job_files j) → world_job j (job_world j sk) = j.
Proof. intros [d Hd]. destruct j; simpl in *. by subst. Qed.

Lemma init_materialized now j : is_Some (job_files (init now j)).
Proof.
  unfold init. destruct (job_files j) as [d|] eqn:Hd; [|by eexists].
  destruct (dict_contains FN_MANIFEST d); [by rewrite Hd|by eexists].
Qed.

Lemma create_doc_backup_dry_run_update now src w :
  final (create_doc_backup now true (call_doc_sync now update src) w) = w.
Proof.
  assert (call_doc_sync now update src true w = Done w) as Hbody.
  { unfold call_doc_sync. f_equal. apply _DocProxy_update_dry_run. }
  unfold create_doc_backup.
  destruct (doc w) as [fn|m]; [|by rewrite Hbody].
  destruct (_ || _); [by rewrite Hbody|].
  unfold create_backup. destruct (isfile _ _); [done|].
  unfold copy, remove. cbn [bind id]. by rewrite Hbody.
Qed.

(** X10: a dry run of [sync_jobs] with [DocSync.NO_SYNC],
    [DocSync.COPY] or [DocSync.update], for a materialized source job in
    another workspace: returning or raising, it leaves the destination
    job as [dst.init()] made it, and the skipped keys as they were. *)
Theorem dry_run_sync_jobs_only_materializes
    (now : Z) (re_match : string → string → bool) (src dst : job)
    (strategy : option strategy) (exclude : list string) (f : doc_sync)
    (sk : gset string) (deep : bool) :
  workspace src ≠ workspace dst →
  is_Some (job_files src) →
  (∀ ks, f ≠ ByKey ks) →
  final (sync_jobs now re_match src dst strategy exclude (Some f) sk true deep)
  = (init now dst, sk).
Proof.
  intros Hws [src_files Hsrc] Hf. unfold sync_jobs.
  apply String.eqb_neq in Hws. rewrite Hws, Hsrc. cbn [default].
  set (w := job_world (init now dst) sk).
  match goal with
  | |- final (bind ?o ?back _) = _ =>
      assert (final o = w) as Ho; [|destruct o as [w'|e w']; simpl in *; subst w']
  end.
  { apply (bind_invariant (λ w', w' = w)).
    - apply _sync_job_workspaces_dry_run_unchanged.
    - intros ? ->. destruct f as [| | |ks]; try done.
      + apply create_doc_backup_dry_run_update.
      + by destruct (Hf ks). }
  all: unfold w; rewrite world_job_job_world by apply init_materialized; done.
Qed.

Lemma dry_run_sync_jobs_only_materializes_witness :
  final (sync_jobs 7 literal_match (memory_job "/s" [("a", VInt 1)])
           (memory_job "/d" [("a", VInt 2)]) (Some FileSync_always) []
           (Some update) ∅ true false)
  = (init 7 (memory_job "/d" [("a", VInt 2)]), ∅).
Proof.
  apply (dry_run_sync_jobs_only_materializes 7 literal_match
           (memory_job "/s" [("a", VInt 1)]) (memory_job "/d" [("a", VInt 2)])
           (Some FileSync_always) [] update ∅ false).
  - intros H. by vm_compute in H.
  - by eexists.
  - intros ks H. discriminate H.
Defined.

(** ** Where the workspace walk writes *)

Lemma apart_app_r p q r : apart p q → apart p (q ++ r).
Proof.
  induction 1; simpl; [by apply apart_here|by apply apart_below].
Qed.

Lemma apart_fork c x y p q : x ≠ y → apart (c ++ x :: p) (c ++ y :: q).
Proof.
  intros Hne. induction c; simpl; [by apply apart_here|by apply apart_below].
Qed.

(** Writing at [q] leaves every path alone that parts ways with [q]. *)
Lemma put_node_apart p q new :
  apart p q →
  ∀ n n', put_node q new n = Some n' → get_node p n' = get_node p n.
Proof.
  induction 1 as [x y p q Hne|z p q Hpq IH]; intros n n' Hput.
  - destruct n as [|es]; [by destruct q|].
    destruct q as [|y' q].
    + simpl in Hput. injection Hput as <-. simpl.
      by rewrite dict_get_dir_put_ne.
    + rewrite put_node_cons in Hput. cbv [mbind option_bind] in Hput.
      destruct (dict_get y es) as [c|]; [|done].
      destruct (put_node (y' :: q) new c) as [c'|]; [|done].
      injection Hput as <-. simpl. by rewrite dict_get_dir_put_ne.
  - destruct n as [|es]; [by destruct q|].
    destruct q as [|y' q]; [inversion Hpq|].
    rewrite put_node_cons in Hput. cbv [mbind option_bind] in Hput.
    destruct (dict_get z es) as [c|] eqn:Hz; [|done].
    destruct (put_node (y' :: q) new c) as [c'|] eqn:Hc; [|done].
    injection Hput as <-. simpl. rewrite dict_get_dir_put_eq, Hz. simpl.
    by apply IH.
Qed.

Lemma as_dir_put_node_apart p q new root d :
  apart p q → as_dir (put_node q new (Dir root)) = Some d →
  get_node p (Dir d) = get_node p (Dir root).
Proof.
  intros Hpq Hd. destruct (put_node q new (Dir root)) as [[|d']|] eqn:Hput;
    try done. injection Hd as ->. by apply (put_node_apart p q new Hpq _ _ Hput).
Qed.

Lemma copy_apart now dry_run src_root s t w p :
  apart p t →
  file_at p (final (copy now dry_run src_root s t w)) = file_at p w.
Proof.
  intros Hpt. unfold copy. destruct dry_run; [done|].
  unfold shutil_copy. destruct (get_node s (Dir src_root)) as [[t0 data|]|]; try done.
  set (t' := if isdir t (Dir (files w)) then t ++ [default "" (last s)] else t).
  assert (apart p t') as Hpt'.
  { unfold t'. destruct (isdir t _); [by apply apart_app_r|done]. }
  destruct (isdir t' _); [done|].
  destruct (as_dir _) as [d|] eqn:Hd; [|done].
  simpl. unfold file_at. simpl. by apply (as_dir_put_node_apart p t' _ _ _ Hpt' Hd).
Qed.

Lemma copytree_apart dry_run src_root s t w p :
  apart p t →
  file_at p (final (copytree dry_run src_root s t w)) = file_at p w.
Proof.
  intros Hpt. unfold copytree. destruct dry_run; [done|].
  unfold shutil_copytree.
  destruct (get_node s (Dir src_root)) as [[|es]|]; try done.
  destruct (get_node t (Dir (files w))); [done|].
  destruct (as_dir _) as [d|] eqn:Hd; [|done].
  simpl. unfold file_at. simpl. by apply (as_dir_put_node_apart p t _ _ _ Hpt Hd).
Qed.

(** A walk of [subdir] leaves every path alone that parts ways with
    [subdir]. *)
Lemma _sync_job_workspaces_apart now re_match src strategy exclude dry_run
    deep n p :
  ∀ subdir w,
    apart p subdir →
    file_at p (final (_sync_job_workspaces now re_match src strategy exclude
                        dry_run deep n subdir w))
    = file_at p w.
Proof.
  induction n as [t data|l IH] using node_nested_ind; intros subdir w Hp;
    [done|].
  simpl. destruct (get_node subdir (Dir (files w))) as [[|r]|]; try done.
  apply (bind_invariant (λ w', file_at p w' = file_at p w)).
  { apply (for_each_invariant (λ w', file_at p w' = file_at p w)); [|done].
    intros e s _ <-. destruct (excluded _ _ _); [done|].
    case_if; [apply copy_apart|apply copytree_apart]; by apply apart_app_r. }
  intros w1 <-.
  apply (bind_invariant (λ w', file_at p w' = file_at p w1)).
  { apply (for_each_invariant (λ w', file_at p w' = file_at p w1)); [|done].
    intros e s _ <-. destruct (excluded _ _ _); [done|].
    destruct strategy as [st|]; [|done]. destruct (st _ _ _); [|done].
    apply copy_apart. by apply apart_app_r. }
  intros w2 <-.
  apply (for_each_invariant (λ w', file_at p w' = file_at p w2)); [|done].
  intros e s He <-. destruct (is_subdir l r e); [|done].
  rewrite Forall_forall in IH. apply (IH e He). by apply apart_app_r.
Qed.

Lemma common_dirs_is_dir l r k :
  k ∈ (common_dirs l r).*1 → is_dir (dict_get k r) = true.
Proof.
  intros Hk. apply list_elem_of_fmap in Hk as ([k' v] & -> & Hin).
  unfold common_dirs in Hin. apply list_elem_of_filter in Hin as [Hd _].
  simpl in *. by apply andb_true_iff in Hd as [_ Hd].
Qed.

Lemma file_at_entry subdir fn w r :
  get_node subdir (Dir (files w)) = Some (Dir r) →
  file_at (subdir ++ [fn]) w = dict_get fn r.
Proof.
  intros Hr. unfold file_at. rewrite get_node_app, Hr. simpl.
  by destruct (dict_get fn r).
Qed.

Lemma file_at_top x w : file_at [x] w = dict_get x (files w).
Proof. unfold file_at. simpl. by destruct (dict_get x (files w)). Qed.

Lemma _sync_job_workspaces_excluded
    (now : Z) (re_match : string → string → bool) (src : dir)
    (strategy : option strategy) (exclude : list string) (dry_run deep : bool)
    (l : dir) (subdir : path) (fn : string) (w : world) :
  excluded re_match exclude fn = true →
  isdir (subdir ++ [fn]) (Dir (files w)) = false →
  file_at (subdir ++ [fn])
    (final (_sync_job_workspaces now re_match src strategy exclude dry_run
              deep (Dir l) subdir w))
  = file_at (subdir ++ [fn]) w.
Proof.
  intros Hex Hdir. set (p := subdir ++ [fn]).
  assert (∀ x, excluded re_match exclude x = false →
               apart p (subdir ++ [x])) as Hfork.
  { intros x Hx. apply apart_fork. intros ->. by rewrite Hex in Hx. }
  simpl. destruct (get_node subdir (Dir (files w))) as [[|r]|] eqn:Hr; try done.
  apply (bind_invariant (λ w', file_at p w' = file_at p w)).
  { apply (for_each_invariant (λ w', file_at p w' = file_at p w)); [|done].
    intros e s _ <-. destruct (excluded re_match exclude e.1) eqn:Hx; [done|].
    case_if; [apply copy_apart|apply copytree_apart]; by apply Hfork. }
  intros w1 <-.
  apply (bind_invariant (λ w', file_at p w' = file_at p w1)).
  { apply (for_each_invariant (λ w', file_at p w' = file_at p w1)); [|done].
    intros e s _ <-. destruct (excluded re_match exclude e.1) eqn:Hx; [done|].
    destruct strategy as [st|]; [|done]. destruct (st _ _ _); [|done].
    apply copy_apart. by apply Hfork. }
  intros w2 <-.
  apply (for_each_invariant (λ w', file_at p w' = file_at p w2)); [|done].
  intros e s He <-. destruct (is_subdir l r e) eqn:Hsub; [|done].
  apply _sync_job_workspaces_apart. apply apart_fork. intros Heq.
  unfold is_subdir in Hsub. apply bool_decide_eq_true in Hsub.
  apply common_dirs_is_dir in Hsub. rewrite <- Heq in Hsub.
  unfold isdir in Hdir. fold (file_at (subdir ++ [fn]) w) in Hdir.
  rewrite (file_at_entry subdir fn w r Hr) in Hdir. by rewrite Hdir in Hsub.
Qed.

(** X11: an entry of the directory being walked whose name matches an
    exclude pattern, and which is no directory at the destination, is
    left alone: it is not created, not overwritten and not removed,
    whatever the strategy and the outcome. *)
Theorem excluded_name_is_left_alone
    (now : Z) (re_match : string → string → bool) (src : dir)
    (strategy : option strategy) (exclude : list string) (dry_run deep : bool)
    (l : dir) (subdir : path) (fn : string) (w : world) :
  excluded re_match exclude fn = true →
  isdir (subdir ++ [fn]) (Dir (files w)) = false →
  file_at (subdir ++ [fn])
    (final (_sync_job_workspaces now re_match src strategy exclude dry_run
              deep (Dir l) subdir w))
  = file_at (subdir ++ [fn]) w.
Proof. apply _sync_job_workspaces_excluded. Qed.

(** The log file of the destination, under the pattern [tmp] and
    [FileSync.always]. *)
Lemma excluded_name_is_left_alone_witness :
  file_at ["tmp.log"]
    (final (_sync_job_workspaces 7 literal_match tmp_files
              (Some FileSync_always) ["tmp"] false false (Dir tmp_files) []
              log_world))
  = Some (File 2 (Text "mine")).
Proof.
  apply (excluded_name_is_left_alone 7 literal_match tmp_files
           (Some FileSync_always) ["tmp"] false false tmp_files [] "tmp.log"
           log_world).
  - reflexivity.
  - reflexivity.
Defined.

Lemma listed_dict_get k (r : dir) :
  listed k = true → dict_get k (left_list r) = dict_get k r.
Proof.
  intros Hk. unfold left_list, dir. induction r as [|[k' n] r IH]; [done|].
  rewrite filter_cons. simpl. destruct (decide (listed k' = true)) as [Hl|Hl].
  - simpl. by rewrite IH.
  - destruct (String.eqb k' k) eqn:E; [|done].
    apply String.eqb_eq in E as ->. done.
Qed.

Lemma left_only_absent l r e : e ∈ left_only l r → dict_get e.1 r = None.
Proof.
  unfold left_only. intros [Hc Hin]%list_elem_of_filter.
  unfold left_list in Hin at 1. apply list_elem_of_filter in Hin as [Hl _].
  unfold dict_contains in Hc. rewrite listed_dict_get in Hc by done.
  by destruct (dict_get e.1 r).
Qed.

Lemma diff_files_is_file deep l r e :
  e ∈ diff_files deep l r → is_file (dict_get e.1 r) = true.
Proof.
  unfold diff_files, common_files.
  intros [_ [Hf _]%list_elem_of_filter]%list_elem_of_filter.
  by apply andb_true_iff in Hf as [_ Hf].
Qed.

(** A file and an entry of a directory, where that entry is no
    directory: the same path, or two paths that part ways. *)
Lemma file_or_apart q t d x :
  ∀ subdir n r,
    get_node q n = Some (File t d) →
    get_node subdir n = Some (Dir r) →
    is_dir (dict_get x r) = false →
    q = subdir ++ [x] ∨ apart q (subdir ++ [x]).
Proof.
  intros subdir. revert q.
  induction subdir as [|z s IH]; intros q n r Hq Hr Hx; simpl in *.
  - injection Hr as ->. destruct q as [|y q]; [done|]. simpl in Hq.
    destruct (decide (y = x)) as [->|Hne]; [|right; by apply apart_here].
    destruct (dict_get x r) as [[|es]|]; try done.
    destruct q; [by left|done].
  - destruct n as [|es]; [done|].
    destruct (dict_get z es) as [c|] eqn:Hz; [|done]. simpl in Hr.
    destruct q as [|y q]; [done|]. simpl in Hq.
    destruct (decide (y = z)) as [->|Hne]; [|right; by apply apart_here].
    rewrite Hz in Hq. simpl in Hq.
    destruct (IH q c r Hq Hr Hx) as [->|Ha]; [by left|right; by apply apart_below].
Qed.

Lemma file_apart_new q t d x subdir n r :
  get_node q n = Some (File t d) →
  get_node subdir n = Some (Dir r) →
  dict_get x r = None →
  apart q (subdir ++ [x]).
Proof.
  intros Hq Hr Hx.
  destruct (file_or_apart q t d x subdir n r Hq Hr) as [->|Ha];
    [by rewrite Hx| |done].
  rewrite get_node_app, Hr in Hq. simpl in Hq. by rewrite Hx in Hq.
Qed.

(** X12: a file of the destination workspace is only ever overwritten
    on the word of the strategy: if the strategy declines the path of
    the file as long as the file is what it is (and always, when there
    is no strategy), the file is there unchanged after the walk,
    returning or raising.  So [FileSync.never] keeps every file, and
    [FileSync.update] those that are not older than their source. *)
Theorem walk_overwrites_a_file_only_on_the_word_of_the_strategy
    (now : Z) (re_match : string → string → bool) (src : dir)
    (strategy : option strategy) (exclude : list string) (dry_run deep : bool)
    (left_dir : node) (subdir q : path) (t : Z) (d : fdata) (w : world) :
  file_at q w = Some (File t d) →
  (∀ st dst_files, strategy = Some st →
                   get_node q (Dir dst_files) = Some (File t d) →
                   st src dst_files q = false) →
  file_at q (final (_sync_job_workspaces now re_match src strategy exclude
                      dry_run deep left_dir subdir w))
  = Some (File t d).
Proof.
  intros Hq Hst. revert subdir w Hq.
  induction left_dir as [t0 data|l IH] using node_nested_ind;
    intros subdir w Hq; [done|].
  simpl. destruct (get_node subdir (Dir (files w))) as [[|r]|] eqn:Hr; try done.
  apply (bind_invariant (λ w', file_at q w' = Some (File t d))).
  { apply (for_each_invariant (λ w', file_at q w' = Some (File t d))); [|done].
    intros e s He Hs. destruct (excluded _ _ _); [done|].
    assert (apart q (subdir ++ [e.1])) as Ha.
    { apply (file_apart_new q t d e.1 subdir (Dir (files w)) r Hq Hr).
      by apply (left_only_absent l r). }
    case_if; [rewrite copy_apart|rewrite copytree_apart]; done. }
  intros w1 Hw1.
  apply (bind_invariant (λ w', file_at q w' = Some (File t d))).
  { apply (for_each_invariant (λ w', file_at q w' = Some (File t d))); [|done].
    intros e s He Hs. destruct (excluded _ _ _); [done|].
    destruct strategy as [st|]; [|done].
    destruct (file_or_apart q t d e.1 subdir (Dir (files w)) r Hq Hr) as [Heq|Ha].
    - apply diff_files_is_file in He. by destruct (dict_get e.1 r) as [[|]|].
    - rewrite <- Heq. rewrite (Hst st (files s) eq_refl Hs). done.
    - destruct (st _ _ _); [|done]. by rewrite copy_apart. }
  intros w2 Hw2.
  apply (for_each_invariant (λ w', file_at q w' = Some (File t d))); [|done].
  intros e s He Hs. destruct (is_subdir l r e); [|done].
  rewrite Forall_forall in IH. by apply (IH e He).
Qed.

(** [keep.txt], newer at the destination than in the source, under
    [FileSync.update]. *)
Lemma walk_overwrites_a_file_only_on_the_word_of_the_strategy_witness :
  file_at ["keep.txt"]
    (final (_sync_job_workspaces 7 literal_match tmp_files
              (Some FileSync_update) [] false true (Dir tmp_files) []
              newer_world))
  = Some (File 5 (Text "newer")).
Proof.
  apply (walk_overwrites_a_file_only_on_the_word_of_the_strategy 7
           literal_match tmp_files (Some FileSync_update) [] false true
           (Dir tmp_files) [] ["keep.txt"] 5 (Text "newer") newer_world).
  - reflexivity.
  - intros st dst_files [= <-] Hq. unfold FileSync_update, getmtime.
    rewrite Hq. reflexivity.
Defined.

(** A loop whose rounds each write at a place of their own: after a
    loop that returns, every place holds what its round wrote. *)
Lemma for_each_targets {A} (f : A → world → outcome world)
    (target : A → path) (sel : A → Prop) (before : A → option node)
    (after : A → node) (l : list A) :
  (∀ a s q, a ∈ l → apart q (target a) →
            file_at q (final (f a s)) = file_at q s) →
  (∀ a s s', a ∈ l → sel a → file_at (target a) s = before a →
             f a s = Done s' → file_at (target a) s' = Some (after a)) →
  (∀ i j a b, l !! i = Some a → l !! j = Some b → i ≠ j →
              apart (target a) (target b)) →
  ∀ s s',
    (∀ a, a ∈ l → file_at (target a) s = before a) →
    for_each f l s = Done s' →
    ∀ a, a ∈ l → sel a → file_at (target a) s' = Some (after a).
Proof.
  induction l as [|a0 l IH]; intros Hloc Hest Hapart s s' Hs Hrun a Ha Hsel.
  - by apply elem_of_nil in Ha.
  - simpl in Hrun. destruct (f a0 s) as [s1|e s1] eqn:Hstep; [|done].
    assert (∀ b q, b ∈ l → apart q (target b) →
                   ∀ s, file_at q (final (f b s)) = file_at q s) as Hloc'.
    { intros b q Hb Hq s2. apply Hloc; [by right|done]. }
    assert (∀ i j a b, l !! i = Some a → l !! j = Some b → i ≠ j →
                       apart (target a) (target b)) as Hapart'.
    { intros i j x y Hi Hj Hij. apply (Hapart (S i) (S j)); try done. lia. }
    assert (∀ b, b ∈ l → apart (target a0) (target b)) as Hhere.
    { intros b Hb. apply list_elem_of_lookup in Hb as [j Hj].
      by apply (Hapart 0%nat (S j)). }
    assert (∀ b, b ∈ l → apart (target b) (target a0)) as Hthere.
    { intros b Hb. apply list_elem_of_lookup in Hb as [j Hj].
      by apply (Hapart (S j) 0%nat). }
    pose proof (Hloc a0 s) as Hloc0. rewrite Hstep in Hloc0. simpl in Hloc0.
    apply elem_of_cons in Ha as [->|Hin].
    + pose proof (for_each_invariant
                    (λ s2, file_at (target a0) s2 = Some (after a0)) f l) as Hinv.
      specialize (Hinv (λ b s2 Hb Hs2,
                          eq_trans (Hloc' b (target a0) Hb (Hhere b Hb) s2) Hs2)
                       s1).
      rewrite Hrun in Hinv. apply Hinv.
      apply (Hest a0 s s1); try done; [by left|]. apply Hs. by left.
    + apply (IH (λ b s q Hb, Hloc b s q (list_elem_of_further _ _ _ Hb))
               (λ b s s' Hb, Hest b s s' (list_elem_of_further _ _ _ Hb))
               Hapart' s1 s'); try done.
      intros b Hb. rewrite Hloc0; [|by left|by apply Hthere].
      apply Hs. by right.
Qed.

Lemma put_node_get q new :
  q ≠ [] → ∀ n n', put_node q new n = Some n' → get_node q n' = Some new.
Proof.
  induction q as [|x q IH]; intros Hq n n' Hput; [done|].
  destruct n as [|es]; [by destruct q|].
  destruct q as [|y q].
  - simpl in Hput. injection Hput as <-. simpl.
    by rewrite dict_get_dir_put_eq.
  - rewrite put_node_cons in Hput. cbv [mbind option_bind] in Hput.
    destruct (dict_get x es) as [c|]; [|done].
    destruct (put_node (y :: q) new c) as [c'|] eqn:Hc; [|done].
    injection Hput as <-.
    change (get_node (x :: y :: q) (Dir (dir_put x c' es)))
      with (dict_get x (dir_put x c' es) ≫= get_node (y :: q)).
    rewrite dict_get_dir_put_eq. simpl. by apply (IH ltac:(done) c).
Qed.

Lemma copy_file now src_root s t w w' t0 data :
  get_node s (Dir src_root) = Some (File t0 data) →
  isdir t (Dir (files w)) = false →
  t ≠ [] →
  copy now false src_root s t w = Done w' →
  file_at t w' = Some (File now data).
Proof.
  intros Hs Ht Hne. unfold copy, shutil_copy. rewrite Hs, Ht, Ht.
  destruct (put_node t (File now data) (Dir (files w))) as [[|d]|] eqn:Hput;
    try done.
  simpl. intros [= <-]. unfold file_at. simpl.
  by apply (put_node_get t (File now data) Hne _ _ Hput).
Qed.

Lemma copytree_dir src_root s t w w' es :
  get_node s (Dir src_root) = Some (Dir es) →
  t ≠ [] →
  copytree false src_root s t w = Done w' →
  file_at t w' = Some (Dir es).
Proof.
  intros Hs Hne. unfold copytree, shutil_copytree. rewrite Hs.
  destruct (get_node t (Dir (files w))); [done|].
  destruct (put_node t (Dir es) (Dir (files w))) as [[|d]|] eqn:Hput; try done.
  simpl. intros [= <-]. unfold file_at. simpl.
  by apply (put_node_get t (Dir es) Hne _ _ Hput).
Qed.

Lemma fdata_same_refl d : fdata_same d d = true.
Proof.
  destruct d as [s|m]; simpl; [apply String.eqb_refl|].
  apply (value_same_refl (VMap m)).
Qed.

Lemma cmp_copy shallow t now data : cmp shallow (File t data) (File now data) = true.
Proof.
  unfold cmp. rewrite Nat.eqb_refl. simpl. rewrite fdata_same_refl.
  by destruct (shallow && _ && _).
Qed.

Lemma sublist_lookup_apart (l : dir) (P : string * node → Prop)
    `{∀ x, Decision (P x)} :
  NoDup l.*1 →
  ∀ i j a b, filter P l !! i = Some a → filter P l !! j = Some b → i ≠ j →
             apart [a.1] [b.1].
Proof.
  unfold dir in *. intros Hnd i j a b Hi Hj Hij. apply apart_here. intros Heq.
  assert (NoDup (filter P l).*1) as Hnd' by (by apply NoDup_fmap_filter).
  apply Hij. apply (NoDup_lookup (filter P l).*1 i j a.1); [done| |].
  - by rewrite list_lookup_fmap, Hi.
  - by rewrite list_lookup_fmap, Hj, Heq.
Qed.

(** The walk of a directory, unfolded once. *)
Lemma _sync_job_workspaces_Dir now re_match src strategy exclude dry_run deep
    l subdir w :
  _sync_job_workspaces now re_match src strategy exclude dry_run deep (Dir l)
    subdir w
  = match get_node subdir (Dir (files w)) with
    | Some (Dir r) =>
        let* w :=
          for_each (λ e w,
              let fn := e.1 in
              if excluded re_match exclude fn then Done w
              else if is_file (Some e.2)
                   then copy now dry_run src (subdir ++ [fn]) (subdir ++ [fn]) w
                   else copytree dry_run src (subdir ++ [fn]) (subdir ++ [fn]) w)
            (left_only l r) w in
        let* w :=
          for_each (λ e w,
              let fn := e.1 in
              if excluded re_match exclude fn then Done w
              else match strategy with
                   | None => Raised (FileSyncConflict fn) w
                   | Some strategy =>
                       if strategy src (files w) (subdir ++ [fn])
                       then copy now dry_run src (subdir ++ [fn]) (subdir ++ [fn]) w
                       else Done w
                   end)
            (diff_files deep l r) w in
        for_each (λ e w,
            if is_subdir l r e
            then _sync_job_workspaces now re_match src strategy exclude dry_run
                   deep e.2 (subdir ++ [e.1]) w
            else Done w)
          l w
    | _ => Raised OSError w
    end.
Proof. simpl. by destruct (get_node subdir (Dir (files w))) as [[|r]|]. Qed.

Lemma left_only_elem l r k n :
  (k, n) ∈ l → listed k = true → dict_get k r = None → (k, n) ∈ left_only l r.
Proof.
  intros Hin Hl Hr. unfold left_only, left_list.
  apply list_elem_of_filter. split.
  - simpl. unfold dict_contains. fold (left_list r).
    by rewrite listed_dict_get, Hr.
  - by apply list_elem_of_filter.
Qed.

Lemma diff_files_elem deep l r k n f :
  (k, n) ∈ l → listed k = true → is_file (Some n) = true →
  dict_get k r = Some f → is_file (Some f) = true →
  cmp (negb deep) n f = false →
  (k, n) ∈ diff_files deep l r.
Proof.
  intros Hin Hl Hn Hr Hf Hc. unfold diff_files, common_files, common.
  apply list_elem_of_filter. cbn [fst snd]. rewrite Hr, Hc. split; [done|].
  apply list_elem_of_filter. cbn [fst snd]. rewrite Hn, Hr, Hf. split; [done|].
  apply list_elem_of_filter. cbn [fst snd]. split.
  - unfold dict_contains. by rewrite listed_dict_get, Hr.
  - unfold left_list. by apply list_elem_of_filter.
Qed.

Lemma diff_files_in deep l r e :
  e ∈ diff_files deep l r →
  e ∈ l ∧ is_file (Some e.2) = true
  ∧ ∃ f, dict_get e.1 r = Some f ∧ is_file (Some f) = true
         ∧ cmp (negb deep) e.2 f = false.
Proof.
  unfold diff_files, common_files, common, left_list.
  intros [Hc [Hf [_ [_ Hin]%list_elem_of_filter]%list_elem_of_filter]
            %list_elem_of_filter]%list_elem_of_filter.
  cbn [fst snd] in *. apply andb_true_iff in Hf as [Hn Hf]. split; [done|].
  split; [done|]. destruct (dict_get e.1 r) as [f|]; [|done].
  exists f. split; [done|]. split; [done|]. by apply negb_true_iff.
Qed.

Lemma left_only_in l r e : e ∈ left_only l r → e ∈ l.
Proof.
  unfold left_only, left_list.
  by intros [_ [_ Hin]%list_elem_of_filter]%list_elem_of_filter.
Qed.

(** X13: a walk of a source workspace (one entry per name) with
    [FileSync.always] that returns has brought every entry of the top
    directory that is neither ignored by [dircmp] nor excluded: an
    entry the destination lacked is there, a file with the content of
    the source and a directory as a whole; where the destination had a
    file of that name, it has a file that compares equal to the one of
    the source, by the comparison the walk was run with. *)
Theorem walk_with_always_brings_the_source_entries
    (now : Z) (re_match : string → string → bool) (src : dir)
    (exclude : list string) (deep : bool) (w w' : world)
    (fn : string) (n : node) :
  NoDup src.*1 →
  _sync_job_workspaces now re_match src (Some FileSync_always) exclude false
    deep (Dir src) [] w = Done w' →
  (fn, n) ∈ src → listed fn = true → excluded re_match exclude fn = false →
  brought now deep n (dict_get fn (files w)) (file_at [fn] w').
Proof.
  intros Hnd Hrun Hin Hlisted Hex.
  rewrite _sync_job_workspaces_Dir in Hrun. cbn [get_node] in Hrun.
  set (r := files w) in *. cbv zeta in Hrun. cbn [app] in Hrun.
  assert (∀ e, e ∈ src → get_node [e.1] (Dir src) = Some e.2) as Hsrc.
  { intros [k v] He. simpl. by rewrite (dict_get_In src k v Hnd He). }
  (* the rounds of the three loops, and where they write *)
  match type of Hrun with
  | bind (for_each ?f1 _ _) _ (λ x1, bind (for_each ?f2 _ _) _
                                       (λ x2, for_each ?f3 _ _)) = _ =>
      set (step1 := f1) in *; set (step2 := f2) in *; set (step3 := f3) in *
  end.
  assert (∀ e s q, apart q [e.1] → file_at q (final (step1 e s)) = file_at q s)
    as Hloc1.
  { intros e s q Hq. unfold step1. destruct (excluded _ _ e.1); [done|].
    case_if; [by apply copy_apart|by apply copytree_apart]. }
  assert (∀ e s q, apart q [e.1] → file_at q (final (step2 e s)) = file_at q s)
    as Hloc2.
  { intros e s q Hq. unfold step2. destruct (excluded _ _ e.1); [done|].
    by apply copy_apart. }
  assert (∀ e s q, apart q [e.1] → file_at q (final (step3 e s)) = file_at q s)
    as Hloc3.
  { intros e s q Hq. unfold step3. destruct (is_subdir src r e); [|done].
    by apply _sync_job_workspaces_apart. }
  destruct (for_each step1 (left_only src r) w) as [w1|e w1] eqn:H1; [|done].
  cbn [bind id] in Hrun.
  destruct (for_each step2 (diff_files deep src r) w1) as [w2|e w2] eqn:H2;
    [|done].
  cbn [bind id] in Hrun.
  assert (∀ s1 s2 l (step : string * node → world → outcome world) k X,
            for_each step l s1 = Done s2 →
            (∀ e s, e ∈ l → file_at [k] (final (step e s)) = file_at [k] s) →
            file_at [k] s1 = X → file_at [k] s2 = X) as Hframe.
  { intros s1 s2 l step k X Hl Hstep Hs.
    pose proof (for_each_invariant (λ s', file_at [k] s' = X) step l) as Hinv.
    specialize (Hinv (λ e s He Hs', eq_trans (Hstep e s He) Hs') s1 Hs).
    by rewrite Hl in Hinv. }
  assert (∀ k X, is_Some (dict_get k r) →
                 file_at [k] w = X → file_at [k] w1 = X) as F1.
  { intros k X Hk. apply (Hframe _ _ _ _ _ _ H1). intros e s He.
    apply Hloc1, apart_here. intros ->.
    rewrite (left_only_absent src r e He) in Hk. by destruct Hk. }
  assert (∀ k X, (∀ e, e ∈ diff_files deep src r → e.1 ≠ k) →
                 file_at [k] w1 = X → file_at [k] w2 = X) as F2.
  { intros k X Hk. apply (Hframe _ _ _ _ _ _ H2). intros e s He.
    apply Hloc2, apart_here. intros ->. by apply (Hk e). }
  assert (∀ k X, is_dir (dict_get k r) = false →
                 file_at [k] w2 = X → file_at [k] w' = X) as F3.
  { intros k X Hk. apply (Hframe _ _ _ _ _ _ Hrun). intros e s He.
    unfold step3. destruct (is_subdir src r e) eqn:Hsub; [|done].
    apply _sync_job_workspaces_apart, apart_here. intros ->.
    unfold is_subdir in Hsub. apply bool_decide_eq_true in Hsub.
    apply common_dirs_is_dir in Hsub. by rewrite Hsub in Hk. }
  assert (∀ e s s', e ∈ src → is_dir (file_at [e.1] s) = false →
                    (is_file (Some e.2) = false → file_at [e.1] s = None) →
                    (if is_file (Some e.2)
                     then copy now false src [e.1] [e.1] s
                     else copytree false src [e.1] [e.1] s) = Done s' →
                    file_at [e.1] s' = Some (copied now e.2)) as Hcopy.
  { intros e s s' He Hdir Hnone Hstep. pose proof (Hsrc e He) as Hget.
    destruct e as [k [t data|es]]; simpl in *.
    - by apply (copy_file now src [k] [k] s s' t data).
    - by apply (copytree_dir src [k] [k] s s' es). }
  destruct (dict_get fn r) as [f|] eqn:Hr.
  - destruct n as [t data|es]; [|done]. destruct f as [t' data'|es']; [|done].
    assert (file_at [fn] w = Some (File t' data')) as Hw by (by rewrite file_at_top).
    assert (is_dir (dict_get fn r) = false) as Hnodir by (by rewrite Hr).
    unfold brought. destruct (cmp (negb deep) (File t data) (File t' data')) eqn:Hc.
    + exists (File t' data'). split; [|done].
      apply F3; [done|]. apply F2; [|by apply F1; [rewrite Hr|]].
      intros e He Heq. apply diff_files_in in He as (He & _ & f & Hf & _ & Hcf).
      destruct e as [k v]. cbn [fst snd] in *. subst k.
      rewrite Hr in Hf. injection Hf as <-.
      pose proof (dict_get_In src fn v Hnd He) as Hv.
      rewrite (dict_get_In src fn _ Hnd Hin) in Hv. injection Hv as <-.
      by rewrite Hc in Hcf.
    + exists (File now data). split; [|apply cmp_copy].
      apply F3; [done|].
      apply (for_each_targets step2 (λ e, [e.1])
               (λ e, excluded re_match exclude e.1 = false)
               (λ e, dict_get e.1 r) (λ e, copied now e.2)
               (diff_files deep src r)) with (s := w1) (a := (fn, File t data));
        try done.
      * intros e s q _. apply Hloc2.
      * intros e s s' He Hsel Hs. unfold step2. cbv zeta. rewrite Hsel.
        apply diff_files_in in He as (He & Hfile & f & Hf & Hff & _).
        unfold FileSync_always. intros Hstep.
        apply (Hcopy e s s' He); rewrite ?Hfile, ?Hs, ?Hf; try done.
        by destruct f.
      * unfold diff_files. apply sublist_lookup_apart.
        unfold common_files, common, left_list.
        by do 3 apply NoDup_fmap_filter.
      * intros e He. apply diff_files_in in He as (He & _ & f & Hf & _ & _).
        apply F1; [by rewrite Hf|]. by rewrite file_at_top.
      * by apply (diff_files_elem deep src r fn _ (File t' data')).
  - assert (file_at [fn] w' = Some (copied now n)) as Hgoal;
      [|by destruct n].
    apply F3; [by rewrite Hr|]. apply F2.
    { intros e He Heq. apply diff_files_in in He as (_ & _ & f & Hf & _).
      rewrite Heq, Hr in Hf. done. }
    apply (for_each_targets step1 (λ e, [e.1])
             (λ e, excluded re_match exclude e.1 = false)
             (λ e, None) (λ e, copied now e.2)
             (left_only src r)) with (s := w) (a := (fn, n)); try done.
    + intros e s q _. apply Hloc1.
    + intros e s s' He Hsel Hs. unfold step1. cbv zeta. rewrite Hsel.
      apply (Hcopy e s s' (left_only_in src r e He)); by rewrite Hs.
    + unfold left_only. apply sublist_lookup_apart.
      unfold left_list. by apply NoDup_fmap_filter.
    + intros e He. rewrite file_at_top. by apply (left_only_absent src r).
    + by apply left_only_elem.
Qed.

(** [keep.txt] of the source, brought into a workspace that has the
    manifest alone. *)
Lemma walk_with_always_brings_the_source_entries_witness :
  file_at ["keep.txt"]
    (final (_sync_job_workspaces 7 literal_match tmp_files
              (Some FileSync_always) ["tmp"] false false (Dir tmp_files) []
              bare_world))
  = Some (File 7 (Text "data")).
Proof.
  apply (walk_with_always_brings_the_source_entries 7 literal_match tmp_files
           ["tmp"] false bare_world
           (final (_sync_job_workspaces 7 literal_match tmp_files
                     (Some FileSync_always) ["tmp"] false false (Dir tmp_files)
                     [] bare_world))
           "keep.txt" (File 1 (Text "data"))).
  - apply (bool_decide_unpack _). by vm_compute.
  - by vm_compute.
  - by left.
  - reflexivity.
  - reflexivity.
Defined.

(** ** The manifest of the destination job *)

Lemma same_at_refl p w : same_at p w w.
Proof. done. Qed.

Lemma same_at_trans p w1 w2 w3 :
  same_at p w1 w2 → same_at p w2 w3 → same_at p w1 w3.
Proof. intros [? ?] [? ?]. split; congruence. Qed.

Lemma try_except_invariant {S} (I : S → Prop) (o : outcome S) h :
  I (final o) → (∀ e s, I s → I (final (h e s))) → I (final (try_except o h)).
Proof. destruct o as [s|e s]; simpl; intros Ho Hh; [done|by apply Hh]. Qed.

Lemma final_reraise {S} e (o : outcome S) : final (reraise e o) = final o.
Proof. by destruct o. Qed.

Lemma try_finally_invariant {S} (I : S → Prop) (o : outcome S) c :
  I (final o) → (∀ s, I s → I (final (c s))) → I (final (try_finally o c)).
Proof.
  destruct o as [s|e s]; simpl; intros Ho Hc; [by apply Hc|].
  rewrite final_reraise. by apply Hc.
Qed.

Lemma del_node_apart p q :
  apart p q →
  ∀ n n', del_node q n = Some n' → get_node p n' = get_node p n.
Proof.
  induction 1 as [x y p q Hne|z p q Hpq IH]; intros n n' Hdel.
  - destruct n as [|es]; [by destruct q|].
    destruct q as [|y' q].
    + simpl in Hdel. destruct (dict_contains y es); [|done].
      injection Hdel as <-. simpl. by rewrite dict_get_dict_del_ne.
    + rewrite del_node_cons in Hdel. cbv [mbind option_bind] in Hdel.
      destruct (dict_get y es) as [c|]; [|done].
      destruct (del_node (y' :: q) c) as [c'|]; [|done].
      injection Hdel as <-. simpl. by rewrite dict_get_dir_put_ne.
  - destruct n as [|es]; [by destruct q|].
    destruct q as [|y' q]; [inversion Hpq|].
    rewrite del_node_cons in Hdel. cbv [mbind option_bind] in Hdel.
    destruct (dict_get z es) as [c|] eqn:Hz; [|done].
    destruct (del_node (y' :: q) c) as [c'|] eqn:Hc; [|done].
    injection Hdel as <-. simpl. rewrite dict_get_dir_put_eq, Hz. simpl.
    by apply IH.
Qed.

Lemma os_result_same_at p w r :
  (∀ d, r = Some d → get_node p (Dir d) = get_node p (Dir (files w))) →
  same_at p w (final (os_result w r)).
Proof.
  intros Hr. destruct r as [d|]; [|done]. split; [done|].
  unfold file_at. simpl. by apply Hr.
Qed.

Lemma copy_same_at now dry_run src_root s t w p :
  apart p t → same_at p w (final (copy now dry_run src_root s t w)).
Proof.
  intros Hpt. split; [|by apply copy_apart].
  unfold copy. destruct dry_run; [done|]. by destruct (shutil_copy _ _ _ _ _).
Qed.

Lemma remove_same_at dry_run t w p :
  apart p t → same_at p w (final (remove dry_run t w)).
Proof.
  intros Hpt. unfold remove. destruct dry_run; [done|].
  apply os_result_same_at. intros d Hd. unfold os_remove in Hd.
  destruct (isfile t _); [|done].
  destruct (del_node t (Dir (files w))) as [[|d']|] eqn:Hdel; try done.
  injection Hd as ->. by apply (del_node_apart p t Hpt _ _ Hdel).
Qed.

Lemma save_same_at now d w p :
  (∀ fn, doc_file w = Some fn → apart p [fn]) → same_at p w (save now d w).
Proof.
  unfold same_at, doc_file, save, file_at. intros Hp.
  destruct (doc w) as [fn|m] eqn:Hdoc; simpl; [|done].
  rewrite Hdoc. split; [done|].
  apply (put_node_apart p [fn] (File now (Json d)) (Hp fn eq_refl)
           (Dir (files w))). done.
Qed.

Section frame.

Variable now : Z.
Variable p : path.
Variable w0 : world.
Hypothesis Hdoc : ∀ fn, doc_file w0 = Some fn → apart p [fn].

Lemma save_frame d w : same_at p w0 w → same_at p w0 (save now d w).
Proof.
  intros Hw. apply (same_at_trans p w0 w); [done|].
  apply save_same_at. intros fn Hfn. apply Hdoc. destruct Hw as [<- _]. done.
Qed.

Lemma _DocProxy_update_frame dry_run other keys :
  ∀ w, same_at p w0 w →
       same_at p w0
         (foldl (λ w key,
                   match dict_get key other with
                   | Some v => _DocProxy_setitem now dry_run key v w
                   | None => w
                   end) w keys).
Proof.
  induction keys as [|key keys IH]; intros w Hw; simpl; [done|].
  apply IH. destruct (dict_get key other); [|done].
  unfold _DocProxy_setitem. destruct dry_run; [done|]. by apply save_frame.
Qed.

Lemma with_skipped_frame sk w : same_at p w0 w → same_at p w0 (with_skipped sk w).
Proof. done. Qed.

Lemma call_doc_sync_frame f src dry_run w :
  same_at p w0 w → same_at p w0 (final (call_doc_sync now f src dry_run w)).
Proof.
  intros Hw. unfold call_doc_sync. destruct f as [| | |ks]; try done.
  - by apply _DocProxy_update_frame.
  - assert (∀ s : value * gset string,
              same_at p w0
                match s.1 with
                | VMap d =>
                    if value_same (VMap d) (VMap (load (with_skipped s.2 w)))
                    then with_skipped s.2 w
                    else save now d (with_skipped s.2 w)
                | _ => with_skipped s.2 w
                end) as Hstore.
    { intros [v sk]. cbn [fst snd]. destruct v as [| | |d]; try done.
      case_if; [done|]. by apply save_frame. }
    cbv zeta.
    destruct (DocSync.call ks dry_run (VMap src) (VMap (load w)) "" (skipped w))
      as [s|e s]; cbn [final]; apply Hstore.
Qed.

Lemma create_doc_backup_frame f src dry_run w :
  (∀ fn, doc_file w0 = Some fn → apart p [fn +:+ "~"]) →
  same_at p w0 w →
  same_at p w0
    (final (create_doc_backup now dry_run (call_doc_sync now f src) w)).
Proof.
  intros Hbackup Hw.
  assert (same_at p w0
            (final (try_except (call_doc_sync now f src dry_run w)
                      (λ e w', Raised e (_DocProxy_update now dry_run (load w)
                                           (_DocProxy_clear now w'))))))
    as Hmem.
  { apply (try_except_invariant (same_at p w0)).
    - by apply call_doc_sync_frame.
    - intros e s Hs. simpl. apply _DocProxy_update_frame.
      unfold _DocProxy_clear. by apply save_frame. }
  unfold create_doc_backup.
  destruct (doc w) as [fn|m] eqn:Hdw; [|done].
  destruct (_ || _); [done|].
  assert (doc_file w0 = Some fn) as Hfn.
  { destruct Hw as [<- _]. unfold doc_file. by rewrite Hdw. }
  unfold create_backup. change (path_suffix [fn] "~") with [fn +:+ "~"].
  destruct (isfile _ _); [done|].
  apply (try_finally_invariant (same_at p w0)).
  - apply (try_except_invariant (same_at p w0)).
    + apply (bind_invariant (same_at p w0)).
      * apply (same_at_trans p w0 w); [done|]. apply copy_same_at. by apply Hbackup.
      * intros s Hs. by apply call_doc_sync_frame.
    + intros e s Hs. rewrite final_reraise.
      apply (same_at_trans p w0 s); [done|]. apply copy_same_at. by apply Hdoc.
  - intros s Hs. apply (same_at_trans p w0 s); [done|].
    apply remove_same_at. by apply Hbackup.
Qed.

End frame.

Lemma copy_doc now dry_run src_root s t w :
  doc (final (copy now dry_run src_root s t w)) = doc w.
Proof.
  unfold copy. destruct dry_run; [done|]. by destruct (shutil_copy _ _ _ _ _).
Qed.

Lemma copytree_doc dry_run src_root s t w :
  doc (final (copytree dry_run src_root s t w)) = doc w.
Proof.
  unfold copytree. destruct dry_run; [done|]. by destruct (shutil_copytree _ _ _ _).
Qed.

Lemma _sync_job_workspaces_doc now re_match src strategy exclude dry_run deep n :
  ∀ subdir w,
    doc (final (_sync_job_workspaces now re_match src strategy exclude dry_run
                  deep n subdir w)) = doc w.
Proof.
  induction n as [t data|l IH] using node_nested_ind; intros subdir w; [done|].
  simpl. destruct (get_node subdir (Dir (files w))) as [[|r]|]; try done.
  apply (bind_invariant (λ w', doc w' = doc w)).
  { apply (for_each_invariant (λ w', doc w' = doc w)); [|done].
    intros e s _ <-. destruct (excluded _ _ _); [done|].
    case_if; [apply copy_doc|apply copytree_doc]. }
  intros w1 <-.
  apply (bind_invariant (λ w', doc w' = doc w1)).
  { apply (for_each_invariant (λ w', doc w' = doc w1)); [|done].
    intros e s _ <-. destruct (excluded _ _ _); [done|].
    destruct strategy as [st|]; [|done]. destruct (st _ _ _); [|done].
    apply copy_doc. }
  intros w2 <-.
  apply (for_each_invariant (λ w', doc w' = doc w2)); [|done].
  intros e s He <-. destruct (is_subdir l r e); [|done].
  rewrite Forall_forall in IH. apply (IH e He).
Qed.

Lemma excluded_elem re_match exclude fn :
  fn ∈ exclude → re_match fn fn = true → excluded re_match exclude fn = true.
Proof.
  intros Hin Hm. unfold excluded. apply andb_true_iff. split.
  - apply bool_decide_eq_true. intros ->. by apply elem_of_nil in Hin.
  - apply existsb_exists. exists fn. split; [by apply list_elem_of_In|done].
Qed.

(** X14: [sync_jobs] never touches the manifest of a materialized
    destination job, whatever the strategy, the exclude patterns, the
    document strategy, the mode and the outcome: [FN_MANIFEST] is always
    among the exclude patterns (and matches itself), and the document
    is kept in another file. *)
Theorem sync_jobs_keeps_the_manifest
    (now : Z) (re_match : string → string → bool) (src dst : job)
    (strategy : option strategy) (exclude : list string)
    (doc_sync : option doc_sync) (sk : gset string) (dry_run deep : bool)
    (t : Z) (d : fdata) :
  re_match FN_MANIFEST FN_MANIFEST = true →
  workspace_entry FN_MANIFEST dst = Some (File t d) →
  (∀ fn, job_document dst = JSonDict fn → fn = FN_DOCUMENT) →
  workspace_entry FN_MANIFEST
    (final (sync_jobs now re_match src dst strategy exclude doc_sync sk
              dry_run deep)).1
  = Some (File t d).
Proof.
  intros Hm Hman Hdocfile. unfold sync_jobs.
  destruct (String.eqb _ _); [done|].
  destruct (job_files src) as [src_files|]; [|done].
  unfold workspace_entry in Hman.
  destruct (job_files dst) as [d0|] eqn:Hd0; [|done]. simpl in Hman.
  assert (init now dst = dst) as ->.
  { unfold init, dict_contains. by rewrite Hd0, Hman. }
  set (f := default (ByKey None) doc_sync).
  set (own := match doc_sync with None => ∅ | Some _ => sk end).
  set (w0 := job_world dst own).
  assert (file_at [FN_MANIFEST] w0 = Some (File t d)) as Hw0.
  { rewrite file_at_top. unfold w0, job_world. simpl. by rewrite Hd0. }
  match goal with
  | |- workspace_entry _ (final (bind ?o ?back _)).1 = _ =>
      assert (same_at [FN_MANIFEST] w0 (final o)) as [_ Ho];
        [|destruct o as [w'|e w']; cbn [bind final fst] in *;
          unfold workspace_entry; simpl; rewrite <- file_at_top; congruence]
  end.
  apply (bind_invariant (same_at [FN_MANIFEST] w0)).
  - split.
    + unfold doc_file. by rewrite _sync_job_workspaces_doc.
    + apply (_sync_job_workspaces_excluded now re_match src_files strategy _
               dry_run deep src_files [] FN_MANIFEST w0).
      * apply excluded_elem; [|done]. case_if; set_solver.
      * unfold isdir. cbn [app]. unfold file_at in Hw0. by rewrite Hw0.
  - intros w Hw. destruct (syncs_documents f); [|done].
    assert (∀ fn, doc_file w0 = Some fn → fn = FN_DOCUMENT) as Hfn.
    { intros fn. unfold doc_file, w0, job_world. simpl.
      destruct (job_document dst) as [fn'|] eqn:Hjd; [|done].
      intros [= <-]. by apply Hdocfile. }
    apply create_doc_backup_frame; [| |done].
    + intros fn ->%Hfn. apply apart_here. done.
    + intros fn ->%Hfn. apply apart_here. done.
Qed.

Lemma sync_jobs_keeps_the_manifest_witness :
  workspace_entry FN_MANIFEST
    (final (sync_jobs 7 literal_match (file_job "/s" src_doc)
              (file_job "/d" dst_doc) (Some FileSync_always) []
              (Some COPY) ∅ false true)).1
  = Some (File 0 (Json [("p", VInt 1)])).
Proof.
  apply (sync_jobs_keeps_the_manifest 7 literal_match (file_job "/s" src_doc)
           (file_job "/d" dst_doc) (Some FileSync_always) [] (Some COPY) ∅
           false true 0 (Json [("p", VInt 1)])).
  - by vm_compute.
  - reflexivity.
  - intros fn [= <-]. reflexivity.
Defined.

(** ** The jobs of the destination project *)

Lemma clone_or_sync_job_other now re_match strategy exclude f dry_run j p id :
  id ≠ get_id j →
  jobs (destination_now
          (final (clone_or_sync_job now re_match strategy exclude f dry_run j p)))
    !! id
  = jobs (destination_now p) !! id.
Proof.
  intros Hid. unfold clone_or_sync_job.
  destruct (jobs (destination_now p) !! get_id j) as [dst_job|] eqn:Hl.
  - rewrite (_clone_or_sync_present _ _ _ _ _ _ _ _ _ _ Hl). cbn [fst snd].
    destruct (sync_jobs _ _ _ _ _ _ _ _ _ _) as [r|e r]; simpl;
      by rewrite lookup_insert_ne.
  - rewrite (_clone_or_sync_absent _ _ _ _ _ _ _ _ _ Hl). simpl.
    by rewrite lookup_insert_ne.
Qed.

Lemma clone_or_sync_job_root now re_match strategy exclude f dry_run j p :
  root_directory
    (destination_now
       (final (clone_or_sync_job now re_match strategy exclude f dry_run j p)))
  = root_directory (destination_now p).
Proof.
  unfold clone_or_sync_job.
  destruct (jobs (destination_now p) !! get_id j) as [dst_job|] eqn:Hl.
  - rewrite (_clone_or_sync_present _ _ _ _ _ _ _ _ _ _ Hl). cbn [fst snd].
    by destruct (sync_jobs _ _ _ _ _ _ _ _ _ _) as [r|e r].
  - by rewrite (_clone_or_sync_absent _ _ _ _ _ _ _ _ _ Hl).
Qed.

(** What holds of the progress before the first job and is kept by
    the loop over the jobs holds at the end of [sync_projects]. *)
Lemma sync_projects_start now re_match source destination strategy exclude
    doc_sync sk selection check_schema dry_run (I : progress → Prop) :
  (∀ p, jobs (destination_now p) = jobs destination →
        root_directory (destination_now p) = root_directory destination →
        num_cloned p = 0%nat → num_synchronized p = 0%nat →
        I p ∧ ∀ f, I (final (for_each
                               (clone_or_sync_job now re_match strategy exclude
                                  f dry_run)
                               (jobs_to_sync source selection) p))) →
  I (final (sync_projects now re_match source destination strategy exclude
              doc_sync sk selection check_schema dry_run)).
Proof.
  intros HI. unfold sync_projects.
  destruct (String.eqb _ _); [by apply HI|].
  destruct (_ && _); [by apply HI|].
  match goal with
  | |- context [bind (bind ?o _ _) _ _] => destruct o as [w|e w]; cbn [bind id final]
  end; by apply HI.
Qed.

(** X15: a project synchronization only touches the jobs it was asked
    to synchronize: a job of the destination whose ID is not the ID of
    a job to synchronize (it is not in the selection, or the source
    has no such job) is afterwards what it was, whether the call
    returns or raises. *)
Theorem sync_projects_leaves_the_other_jobs_alone
    (now : Z) (re_match : string → string → bool)
    (source destination : project) (strategy : option strategy)
    (exclude : list string) (doc_sync : option doc_sync) (sk : gset string)
    (selection : option (gset string)) (check_schema dry_run : bool)
    (id : string) :
  (∀ j, j ∈ jobs_to_sync source selection → get_id j ≠ id) →
  jobs (destination_now
          (final (sync_projects now re_match source destination strategy
                    exclude doc_sync sk selection check_schema dry_run)))
    !! id
  = jobs destination !! id.
Proof.
  intros Hid.
  apply (sync_projects_start _ _ _ _ _ _ _ _ _ _ _
           (λ p, jobs (destination_now p) !! id = jobs destination !! id)).
  intros p Hjobs _ _ _. split; [by rewrite Hjobs|]. intros f.
  apply (for_each_invariant
           (λ p, jobs (destination_now p) !! id = jobs destination !! id));
    [|by rewrite Hjobs].
  intros j p' Hj <-. apply clone_or_sync_job_other. intros ->. by apply (Hid j).
Qed.

(** The job Y of the destination, while X is cloned from the source. *)
Lemma sync_projects_leaves_the_other_jobs_alone_witness :
  jobs (destination_now
          (final (sync_projects 7 literal_match tmp_source other_destination
                    (Some FileSync_always) [] None ∅ None true false)))
    !! "Y"
  = Some job_Y.
Proof.
  apply (sync_projects_leaves_the_other_jobs_alone 7 literal_match tmp_source
           other_destination (Some FileSync_always) [] None ∅ None true false
           "Y").
  intros j Hj.
  assert (jobs_to_sync tmp_source None = [tmp_src]) as Hjobs by (by vm_compute).
  rewrite Hjobs in Hj. apply list_elem_of_singleton in Hj as ->.
  intros H. discriminate H.
Defined.

Lemma cloned_job_root d d' j :
  root_directory d = root_directory d' → cloned_job d j = cloned_job d' j.
Proof. intros H. unfold cloned_job. by rewrite H. Qed.

Lemma clone_or_sync_job_present now re_match strategy exclude f dry_run j p :
  let p' := final (clone_or_sync_job now re_match strategy exclude f dry_run j p) in
  is_Some (jobs (destination_now p') !! get_id j)
  ∧ (jobs (destination_now p) !! get_id j = None →
     jobs (destination_now p') !! get_id j
     = Some (cloned_job (destination_now p) j)).
Proof.
  unfold clone_or_sync_job.
  destruct (jobs (destination_now p) !! get_id j) as [dst_job|] eqn:Hl.
  - rewrite (_clone_or_sync_present _ _ _ _ _ _ _ _ _ _ Hl). cbn [fst snd].
    split; [|done].
    destruct (sync_jobs _ _ _ _ _ _ _ _ _ _) as [r|e r]; simpl;
      rewrite lookup_insert_eq; by eexists.
  - rewrite (_clone_or_sync_absent _ _ _ _ _ _ _ _ _ Hl). simpl.
    rewrite lookup_insert_eq. split; [by eexists|done].
Qed.

Lemma for_each_clone_or_sync_present now re_match strategy exclude f dry_run js :
  NoDup (get_id <$> js) →
  ∀ p0 p,
    for_each (clone_or_sync_job now re_match strategy exclude f dry_run) js p0
    = Done p →
    ∀ j, j ∈ js →
         is_Some (jobs (destination_now p) !! get_id j)
         ∧ (jobs (destination_now p0) !! get_id j = None →
            jobs (destination_now p) !! get_id j
            = Some (cloned_job (destination_now p0) j)).
Proof.
  induction js as [|j0 js IH]; intros Hnd p0 p Hrun j Hj.
  - by apply elem_of_nil in Hj.
  - rewrite fmap_cons in Hnd. apply NoDup_cons in Hnd as [Hj0 Hnd].
    simpl in Hrun.
    pose proof (clone_or_sync_job_present now re_match strategy exclude f
                  dry_run j0 p0) as Hhere.
    pose proof (clone_or_sync_job_root now re_match strategy exclude f
                  dry_run j0 p0) as Hroot.
    pose proof (λ id, clone_or_sync_job_other now re_match strategy exclude f
                        dry_run j0 p0 id) as Hother.
    destruct (clone_or_sync_job now re_match strategy exclude f dry_run j0 p0)
      as [p1|e p1]; [|done]. simpl in Hhere, Hroot, Hother.
    apply elem_of_cons in Hj as [->|Hj].
    + assert (jobs (destination_now p) !! get_id j0
              = jobs (destination_now p1) !! get_id j0) as ->; [|done].
      assert (∀ k p', k ∈ js →
                jobs (destination_now p') !! get_id j0
                = jobs (destination_now p1) !! get_id j0 →
                jobs (destination_now
                        (final (clone_or_sync_job now re_match strategy exclude
                                  f dry_run k p'))) !! get_id j0
                = jobs (destination_now p1) !! get_id j0) as Hstep.
      { intros k p' Hk <-. apply clone_or_sync_job_other. intros Heq.
        apply Hj0. rewrite Heq. apply list_elem_of_fmap. by exists k. }
      pose proof (for_each_invariant
                    (λ p', jobs (destination_now p') !! get_id j0
                           = jobs (destination_now p1) !! get_id j0)
                    (clone_or_sync_job now re_match strategy exclude f dry_run)
                    js Hstep p1 eq_refl) as Hinv.
      by rewrite Hrun in Hinv.
    + destruct (IH Hnd p1 p Hrun j Hj) as [Hsome Hclone]. split; [done|].
      intros Habs. rewrite Hclone.
      * f_equal. by apply cloned_job_root.
      * rewrite Hother; [done|]. intros Heq. apply Hj0. rewrite <- Heq.
        apply list_elem_of_fmap. by exists j.
Qed.

(** X16: after a project synchronization that returns, the
    destination has a job for every job that was to be synchronized,
    and where it had none before, it has the clone of the source job. *)
Theorem sync_projects_brings_every_job_to_the_destination
    (now : Z) (re_match : string → string → bool)
    (source destination : project) (strategy : option strategy)
    (exclude : list string) (doc_sync : option doc_sync) (sk : gset string)
    (selection : option (gset string)) (check_schema dry_run : bool)
    (p : progress) (j : job) :
  project_wf source →
  sync_projects now re_match source destination strategy exclude doc_sync sk
    selection check_schema dry_run = Done p →
  j ∈ jobs_to_sync source selection →
  is_Some (jobs (destination_now p) !! get_id j)
  ∧ (jobs destination !! get_id j = None →
     jobs (destination_now p) !! get_id j = Some (cloned_job destination j)).
Proof.
  intros Hwf Hrun Hj. unfold sync_projects in Hrun.
  destruct (String.eqb _ _); [done|].
  destruct (_ && _); [done|].
  match type of Hrun with
  | context [bind (bind ?o _ _) _ _] =>
      destruct o as [w|e w]; cbn [bind id] in Hrun; [|done]
  end.
  apply (for_each_clone_or_sync_present _ _ _ _ _ _ _
           (jobs_to_sync_NoDup source selection Hwf) _ _ Hrun j Hj).
Qed.

Lemma sync_projects_brings_every_job_to_the_destination_witness :
  let p := final (sync_projects 7 literal_match tmp_source other_destination
                    None ["tmp"] None ∅ None true false) in
  is_Some (jobs (destination_now p) !! "X")
  ∧ (jobs other_destination !! "X" = None →
     jobs (destination_now p) !! "X"
     = Some (cloned_job other_destination tmp_src)).
Proof.
  apply (sync_projects_brings_every_job_to_the_destination 7 literal_match
           tmp_source other_destination None ["tmp"] None ∅ None true false
           _ tmp_src).
  - intros k j Hj. unfold tmp_source in Hj. cbn [jobs] in Hj.
    apply lookup_singleton_Some in Hj as [<- <-]. reflexivity.
  - by vm_compute.
  - assert (jobs_to_sync tmp_source None = [tmp_src]) as -> by (by vm_compute).
    by left.
Defined.

(** ** FileSync.Ask *)

Section Ask_facts.

Variable input : Type.
Variable query_yes_no : string → string → input → bool * input.

Lemma Ask_call_decides a fn i :
  decided (Ask_call input query_yes_no a fn i).1.2 fn
    (Ask_call input query_yes_no a fn i).1.1.
Proof.
  unfold Ask_call, decided.
  destruct (bool_decide (fn ∈ yes a)) eqn:Hy; simpl.
  { by apply bool_decide_eq_true in Hy. }
  apply bool_decide_eq_false in Hy.
  destruct (bool_decide (fn ∈ no a)) eqn:Hn; simpl.
  { by apply bool_decide_eq_true in Hn. }
  destruct (query_yes_no _ _ i) as [[|] i']; simpl.
  - by apply elem_of_union_l, elem_of_singleton.
  - split; [done|]. by apply elem_of_union_l, elem_of_singleton.
Qed.

Lemma Ask_call_decided a fn b i :
  decided a fn b → Ask_call input query_yes_no a fn i = (b, a, i).
Proof.
  unfold Ask_call, decided. destruct b.
  - intros Hy. by rewrite bool_decide_eq_true_2.
  - intros [Hy Hn]. by rewrite bool_decide_eq_false_2, bool_decide_eq_true_2.
Qed.

Lemma Ask_call_keeps a fn b fn' i :
  decided a fn b → decided (Ask_call input query_yes_no a fn' i).1.2 fn b.
Proof.
  intros Hd. unfold Ask_call.
  destruct (bool_decide (fn' ∈ yes a)) eqn:Hy; simpl; [done|].
  destruct (bool_decide (fn' ∈ no a)) eqn:Hn; simpl; [done|].
  apply bool_decide_eq_false in Hy, Hn.
  unfold decided in *.
  destruct (query_yes_no _ _ i) as [[|] i']; destruct b; simpl; try done.
  - by apply elem_of_union_r.
  - destruct Hd as [Hd1 Hd2]. split; [|done].
    intros [->%elem_of_singleton|?]%elem_of_union; done.
  - destruct Hd as [Hd1 Hd2]. split; [done|]. by apply elem_of_union_r.
Qed.

Lemma Ask_calls_keeps fns :
  ∀ a fn b i, decided a fn b →
              decided (Ask_calls input query_yes_no a fns i).1 fn b.
Proof.
  induction fns as [|fn' fns IH]; intros a fn b i Hd; simpl; [done|].
  pose proof (Ask_call_keeps a fn b fn' i Hd) as Hk.
  destruct (Ask_call input query_yes_no a fn' i) as [[b' a'] i'].
  by apply IH.
Qed.

(** X17: [FileSync.Ask] asks once about a file name.  Once it has
    been called with [fn], every later call with [fn], whatever it was
    asked about in between, gives the decision of the first call, reads
    nothing from the input and leaves the functor as it is. *)
Theorem Ask_asks_once_about_a_name :
  ∀ a fn i fns i',
    let first := Ask_call input query_yes_no a fn i in
    let later := Ask_calls input query_yes_no first.1.2 fns first.2 in
    Ask_call input query_yes_no later.1 fn i' = (first.1.1, later.1, i').
Proof.
  intros a fn i fns i' first later. apply Ask_call_decided.
  apply Ask_calls_keeps. apply Ask_call_decides.
Qed.

End Ask_facts.

(** The user says yes to [a.txt] and no to [b.txt]; asked about [a.txt]
    again, the functor says yes and reads nothing. *)
Example Ask_remembers_the_answer :
  let a := (Ask_calls (list bool) answers_query Ask_init ["a.txt"; "b.txt"]
              [true; false; false]).1 in
  a = {| yes := {[ "a.txt" ]}; no := {[ "b.txt" ]} |}
  ∧ Ask_call (list bool) answers_query a "a.txt" [false] = (true, a, [false]).
Proof. split; by vm_compute. Qed.

(** ** What the loop makes of one key of the source *)

Lemma dealt_with_mono nested ks dry_run root key v old sk sk' s :
  sk ⊆ sk' →
  dealt_with nested ks dry_run root key v old sk' s →
  dealt_with nested ks dry_run root key v old sk s.
Proof.
  intros Hsk. unfold dealt_with. destruct old as [dv|]; [|done].
  destruct (value_eqb dv v); [done|]. destruct (is_mapping v); [|done].
  intros (sk0 & r & H0 & Hr). exists sk0, r. split; [by etrans|done].
Qed.

Lemma items_loop_entry nested ks dry_run root key v items :
  Forall (λ e, ∀ dst root sk, grows sk (nested e.2 dst root sk)) items →
  NoDup items.*1 →
  (key, v) ∈ items →
  ∀ d sk s,
    DocSync.items_loop nested ks dry_run root items (VMap d) sk = Done s →
    sk ⊆ s.2
    ∧ dealt_with nested ks dry_run root key v (dict_get key d) sk s.
Proof.
  intros Hnested Hnd Hin.
  induction items as [|[k0 v0] items IH]; intros d sk s Hrun;
    [by apply elem_of_nil in Hin|].
  apply Forall_cons in Hnested as [Hn0 Hnested].
  rewrite fmap_cons in Hnd. apply NoDup_cons in Hnd as [Hk0 Hnd].
  cbn [fst] in Hk0.
  pose proof (items_loop_grows nested ks dry_run root items Hnested) as Hgrows.
  unfold grows in Hgrows.
  pose proof (items_loop_frame nested ks dry_run root items) as Hframe.
  apply elem_of_cons in Hin as [Heq|Hin].
  - (* the entry at hand *)
    injection Heq as <- <-.
    specialize (Hframe key Hk0). unfold dealt_with.
    assert (∀ dst sk', DocSync.items_loop nested ks dry_run root items dst sk'
                       = Done s →
                       sk' ⊆ s.2 ∧ getitem key s.1 = getitem key dst) as Hrest.
    { intros dst sk' Hr. pose proof (Hgrows dst sk') as Hg.
      pose proof (Hframe dst sk') as Hf. by rewrite Hr in Hg, Hf. }
    assert (getitem key (DocSync.setitem dry_run key v d)
            = if dry_run then dict_get key d else Some v) as Hput.
    { unfold DocSync.setitem. destruct dry_run; simpl; [done|].
      by rewrite dict_get_dict_set_eq. }
    simpl in Hrun.
    destruct (dict_get key d) as [dv|] eqn:Hget.
    + destruct (value_eqb dv v) eqn:Heq.
      { destruct (Hrest _ _ Hrun) as [Hg Hf]. split; [done|].
        rewrite Hf. simpl. done. }
      destruct (is_mapping v).
      { pose proof (Hn0 dv (key +:+ ".") sk) as Hn. unfold grows in Hn.
        simpl in Hn.
        destruct (nested v dv (key +:+ ".") sk) as [[dv' sk']|e [dv' sk']]
          eqn:Hcall; [|done].
        destruct (Hrest _ _ Hrun) as [Hg Hf]. simpl in Hn.
        split; [by etrans|]. exists sk, (dv', sk'). split; [done|].
        split; [done|]. split; [done|]. rewrite Hf. simpl.
        by rewrite dict_get_dict_set_eq. }
      unfold declines.
      destruct (match ks with None => true | Some f => negb (f (root +:+ key)) end).
      * destruct (Hrest _ _ Hrun) as [Hg Hf].
        split; [intros x Hx; apply Hg, elem_of_union; by right|].
        split; [|by rewrite Hf].
        apply Hg, elem_of_union. left. by apply elem_of_singleton.
      * destruct (Hrest _ _ Hrun) as [Hg Hf]. split; [done|].
        rewrite Hf, Hput. by destruct dry_run.
    + destruct (Hrest _ _ Hrun) as [Hg Hf]. split; [done|].
      rewrite Hf, Hput. by destruct dry_run.
  - (* an entry further on: the step at hand leaves [key] alone *)
    assert (k0 ≠ key) as Hne.
    { intros ->. apply Hk0. apply list_elem_of_fmap. by exists (key, v). }
    specialize (IH Hnested Hnd Hin).
    assert (∀ d' sk', sk ⊆ sk' → dict_get key d' = dict_get key d →
              DocSync.items_loop nested ks dry_run root items (VMap d') sk'
              = Done s →
              sk ⊆ s.2
              ∧ dealt_with nested ks dry_run root key v (dict_get key d) sk s)
      as Hnext.
    { intros d' sk' Hsk Hd' Hrun'. destruct (IH d' sk' s Hrun') as [Hs Hres].
      split; [by etrans|]. rewrite <- Hd'. by apply (dealt_with_mono _ _ _ _ _ _ _ sk sk'). }
    assert (∀ w, ∃ d', DocSync.setitem dry_run k0 w d = VMap d'
                       ∧ dict_get key d' = dict_get key d) as Hput.
    { intros w. unfold DocSync.setitem. destruct dry_run; [by exists d|].
      exists (dict_set k0 w d). by rewrite dict_get_dict_set_ne. }
    simpl in Hrun.
    destruct (dict_get k0 d) as [dv0|] eqn:Hget0.
    + destruct (value_eqb dv0 v0); [by apply (Hnext d sk)|].
      destruct (is_mapping v0).
      * specialize (Hn0 dv0 (k0 +:+ ".") sk). unfold grows in Hn0. simpl in Hn0.
        destruct (nested v0 dv0 (k0 +:+ ".") sk) as [[dv' sk']|e [dv' sk']];
          [|done].
        simpl in Hn0. apply (Hnext (dict_set k0 dv' d) sk'); [done| |done].
        by rewrite dict_get_dict_set_ne.
      * destruct (match ks with None => true | Some f => negb (f (root +:+ k0)) end).
        -- apply (Hnext d ({[root +:+ k0]} ∪ sk)); [|done|done].
           intros x Hx. apply elem_of_union. by right.
        -- destruct (Hput v0) as (d' & Hd' & Hk). rewrite Hd' in Hrun.
           by apply (Hnext d' sk).
    + destruct (Hput v0) as (d' & Hd' & Hk). rewrite Hd' in Hrun.
      by apply (Hnext d' sk).
Qed.

Lemma value_eqb_entry items d key v dv :
  value_eqb (VMap items) (VMap d) = true →
  (key, v) ∈ items → is_mapping v = false →
  dict_get key d = Some dv → value_eqb dv v = true.
Proof.
  intros Heq Hin Hleaf Hget.
  apply value_eqb_VMap_true in Heq as [_ Hall].
  destruct (Hall key v Hin) as (w & Hw & Hvw).
  rewrite Hget in Hw. injection Hw as <-.
  rewrite (value_eqb_leaf v dv Hleaf Hvw).
  destruct v; simpl in *; try done;
    [apply Z.eqb_refl|apply String.eqb_refl].
Qed.

(** A call on two mappings: they are equal, or the loop ran to its end
    and the check follows, or the loop raised. *)
Lemma call_cases ks dry_run root items dst sk :
  let o := DocSync.call ks dry_run (VMap items) dst root sk in
  value_eqb (VMap items) dst = true ∧ o = Done (dst, sk)
  ∨ (∃ s, DocSync.items_loop (DocSync.call ks false) ks dry_run root items
            dst sk = Done s
          ∧ o = DocSync.check_skipped ks root s ∧ final o = s)
  ∨ (∃ e s, DocSync.items_loop (DocSync.call ks false) ks dry_run root items
              dst sk = Raised e s ∧ o = Raised e s).
Proof.
  cbv zeta. rewrite call_VMap.
  destruct (value_eqb (VMap items) dst); [by left|]. right.
  destruct (DocSync.items_loop _ ks dry_run root items dst sk)
    as [s|e s] eqn:Hrun; cbn [bind id].
  - left. exists s. split; [done|]. split; [done|]. apply check_skipped_final.
  - right. by exists e, s.
Qed.

(** C5: with a key strategy that accepts every key, src = {a: 1, b: {c:
    2}} overwrites dst = {a: 1, b: {c: 3}} into {a: 1, b: {c: 2}} and
    nothing is raised, called directly or through [sync_jobs]; a
    strategy that declines [b.c] leaves it on record in [skipped_keys]
    and the call returns; a strategy that accepts [a] alone overwrites
    [a], keeps [b] and puts it on record, and merges the new key [n].
    For every key strategy, documents with one entry per key, root and
    earlier record, a call that returns has dealt with each differing
    value of the source that is no mapping as the strategy says: where
    it accepts the key path the destination holds the value of the
    source (its own in dry-run mode), where it declines the destination
    holds its own value and the key path is on record.  And a call
    never raises [DocumentSyncConflict] and keeps what was on record:
    on a mapping it returns, or fails with the [TypeError] of a
    destination value that is no mapping; a source that is no mapping
    and differs from the destination has no [items]
    ([AttributeError]). *)
Theorem ByKey_with_key_strategy_overwrites_or_records :
  DocSync.call (Some (λ _, true)) false (VMap src_doc) (VMap dst_doc) "" ∅
  = Done (VMap src_doc, ∅)
  ∧ (∀ now,
       let o := sync_jobs now literal_match (file_job "/s" src_doc)
                  (file_job "/d" dst_doc) None []
                  (Some (ByKey (Some (λ _, true)))) ∅ false false in
       raised o = None ∧ job_doc (final o).1 = src_doc)
  ∧ DocSync.call (Some (λ _, false)) false (VMap src_doc) (VMap dst_doc) "" ∅
    = Done (VMap dst_doc, {[ "b.c" ]})
  ∧ DocSync.call (Some (String.eqb "a")) false
      (VMap [("a", VInt 1); ("b", VInt 2); ("n", VInt 3)])
      (VMap [("a", VInt 9); ("b", VInt 8)]) "" ∅
    = Done (VMap [("a", VInt 1); ("b", VInt 8); ("n", VInt 3)], {[ "b" ]})
  ∧ (∀ f dry_run items d root sk key v dv,
       NoDup (dict_keys items) →
       (key, v) ∈ items →
       is_mapping v = false →
       dict_get key d = Some dv →
       value_eqb dv v = false →
       let o := DocSync.call (Some f) dry_run (VMap items) (VMap d) root sk in
       raised o = None →
       if f (root +:+ key)
       then getitem key (final o).1 = Some (if dry_run then dv else v)
       else root +:+ key ∈ (final o).2 ∧ getitem key (final o).1 = Some dv)
  ∧ ∀ f dry_run src dst root sk,
      let o := DocSync.call (Some f) dry_run src dst root sk in
      (∀ keys, raised o ≠ Some (DocumentSyncConflict keys))
      ∧ sk ⊆ (final o).2
      ∧ match src with
        | VMap _ => raised o = None ∨ raised o = Some TypeError
        | _ => raised o = (if value_eqb src dst then None
                           else Some AttributeError)
        end.
Proof.
  split; [by vm_compute|]. split; [intros now; by vm_compute|].
  split; [by vm_compute|]. split; [by vm_compute|]. split.
  - intros f dry_run items d root sk key v dv Hnd Hin Hleaf Hget Hne o Hret.
    destruct (call_cases (Some f) dry_run root items (VMap d) sk)
      as [[Heq _]|[(s & Hrun & _ & Hfin)|(e & s & _ & Hraised)]].
    + by rewrite (value_eqb_entry items d key v dv Heq Hin Hleaf Hget) in Hne.
    + fold o in Hfin. rewrite Hfin.
      assert (Forall (λ e : string * value, ∀ dst root sk,
                grows sk (DocSync.call (Some f) false e.2 dst root sk)) items)
        as Hgrows by (apply Forall_forall; intros e _; apply call_grows).
      destruct (items_loop_entry (DocSync.call (Some f) false) (Some f) dry_run
                  root key v items Hgrows Hnd Hin d sk s Hrun)
        as [_ Hres].
      unfold dealt_with, declines in Hres. rewrite Hget, Hne, Hleaf in Hres.
      by destruct (f (root +:+ key)).
    + fold o in Hraised. by rewrite Hraised in Hret.
  - intros f dry_run src dst root sk o. split; [|split].
    + intros keys Hk. subst o. destruct src as [| | |items].
      1-3: simpl in Hk;
           match type of Hk with context [if ?b then _ else _] => by destruct b end.
      destruct (call_no_conflict f (VMap items) eq_refl dry_run dst root sk)
        as [H|H]; rewrite H in Hk; discriminate.
    + apply call_grows.
    + subst o. destruct src as [| | |items].
      1-3: simpl; by case_if.
      apply (call_no_conflict f (VMap items) eq_refl).
Qed.

(** A strategy that accepts [a] alone, on src = {a: 1, b: 2, n: 3} and
    dst = {a: 9, b: 8}: [a] is overwritten, [b] is kept and on
    record. *)
Lemma ByKey_with_key_strategy_overwrites_or_records_witness :
  let o := DocSync.call (Some (String.eqb "a")) false
             (VMap [("a", VInt 1); ("b", VInt 2); ("n", VInt 3)])
             (VMap [("a", VInt 9); ("b", VInt 8)]) "" ∅ in
  getitem "a" (final o).1 = Some (VInt 1)
  ∧ "b" ∈ (final o).2 ∧ getitem "b" (final o).1 = Some (VInt 8).
Proof.
  destruct ByKey_with_key_strategy_overwrites_or_records
    as (_ & _ & _ & _ & H & _).
  assert (NoDup (dict_keys [("a", VInt 1); ("b", VInt 2); ("n", VInt 3)]))
    as Hnd by (apply (bool_decide_unpack _); by vm_compute).
  split.
  - apply (H (String.eqb "a") false
             [("a", VInt 1); ("b", VInt 2); ("n", VInt 3)]
             [("a", VInt 9); ("b", VInt 8)] "" ∅ "a" (VInt 1) (VInt 9) Hnd).
    + apply elem_of_cons. by left.
    + reflexivity.
    + reflexivity.
    + reflexivity.
    + reflexivity.
  - apply (H (String.eqb "a") false
             [("a", VInt 1); ("b", VInt 2); ("n", VInt 3)]
             [("a", VInt 9); ("b", VInt 8)] "" ∅ "b" (VInt 2) (VInt 8) Hnd).
    + apply elem_of_cons. right. apply elem_of_cons. by left.
    + reflexivity.
    + reflexivity.
    + reflexivity.
    + reflexivity.
Defined.

(** ** The scoped file backup *)

(** [create_backup(path)] outside dry-run mode, for a file [path]
    without a backup: the region starts with the duplicate in place;
    if it leaves the duplicate alone, the guard ends by removing it,
    after it has put the duplicated content back when the region
    raised. *)
Lemma create_backup_guard now p body w t data :
  file_at p w = Some (File t data) →
  file_at (path_suffix p "~") w = None →
  ∃ d1,
    copy now false (files w) p (path_suffix p "~") w = Done (with_files d1 w)
    ∧ get_node (path_suffix p "~") (Dir d1) = Some (File now data)
    ∧ get_node p (Dir d1) = Some (File t data)
    ∧ (file_at (path_suffix p "~") (final (body (with_files d1 w)))
       = Some (File now data) →
       isdir p (Dir (files (final (body (with_files d1 w))))) = false →
       ∃ w3 d',
         file_at (path_suffix p "~") w3 = Some (File now data)
         ∧ remove false (path_suffix p "~") w3 = Done (with_files d' w3)
         ∧ get_node (path_suffix p "~") (Dir d') = None
         ∧ get_node p (Dir d') = file_at p w3
         ∧ match body (with_files d1 w) with
           | Raised e w2 =>
               create_backup now false p body w = Raised e (with_files d' w3)
               ∧ file_at p w3 = Some (File now data)
               ∧ doc w3 = doc w2 ∧ skipped w3 = skipped w2
           | Done w2 =>
               create_backup now false p body w = Done (with_files d' w3)
               ∧ w3 = w2
           end).
Proof.
  intros Hp Hq. set (path_backup := path_suffix p "~") in *.
  assert (p ≠ []) as Hne by (intros ->; discriminate Hp).
  assert (siblings p path_backup) as Hs by (by apply siblings_path_suffix).
  destruct (copy_sibling now p path_backup w t data Hs Hp) as (d & Hc & Hgq & Hgp).
  { unfold isdir. unfold file_at in Hq. by rewrite Hq. }
  exists d. split; [exact Hc|]. split; [exact Hgq|]. split; [exact Hgp|].
  intros Hkeep Hdir.
  unfold create_backup. fold path_backup.
  replace (isfile path_backup (Dir (files w))) with false
    by (unfold isfile; unfold file_at in Hq; by rewrite Hq).
  rewrite Hc. cbn [bind].
  destruct (body (with_files d w)) as [w2|e w2] eqn:Hb;
    cbn [final try_except try_finally reraise] in *.
  - destruct (remove_sibling p path_backup w2 Hs) as (d' & Hr & Hgq' & Hgp').
    { by rewrite Hkeep. }
    exists w2, d'. by rewrite Hr.
  - destruct (copy_sibling now path_backup p w2 now data (siblings_sym _ _ Hs)
                Hkeep Hdir) as (d3 & Hc3 & Hgp3 & Hgq3).
    rewrite Hc3. cbn [reraise try_finally try_except].
    destruct (remove_sibling p path_backup (with_files d3 w2) Hs)
      as (d' & Hr & Hgq' & Hgp').
    { unfold file_at. cbn [files with_files]. by rewrite Hgq3. }
    exists (with_files d3 w2), d'. rewrite Hr. cbn [reraise].
    unfold file_at. cbn [files with_files doc skipped]. by repeat split.
Qed.

(** C7, as amended: the scoped file backup [create_backup(path)] of a
    file [path].  (1) With a file [path~] already there it raises
    [RuntimeError] at once, whatever the mode: nothing is changed and
    the guarded region is not entered.  In dry-run mode the copies and
    the removal are only logged: the guard then is the region itself,
    and restores nothing.  When the proxy is not in dry-run mode, the
    region starts with the duplicate [path~] in place; if it leaves
    the duplicate alone (and does not turn [path] into a directory),
    then (2) when it raises, [path] holds the duplicated content again
    and the same exception goes on, and (3) in both cases the last
    step is the removal of [path~], which was still there and does not
    exist afterwards. *)
Theorem create_backup_refuses_restores_and_cleans_up
    (now : Z) (p : path) (body : world → outcome world) (w : world)
    (t : Z) (data : fdata) :
  file_at p w = Some (File t data) →
  let path_backup := path_suffix p "~" in
  (isfile path_backup (Dir (files w)) = true →
   ∀ dry_run, create_backup now dry_run p body w = Raised RuntimeError w)
  ∧ (isfile path_backup (Dir (files w)) = false →
     create_backup now true p body w = body w)
  ∧ (file_at path_backup w = None →
     ∃ w1, copy now false (files w) p path_backup w = Done w1
       ∧ file_at path_backup w1 = Some (File now data)
       ∧ file_at p w1 = Some (File t data)
       ∧ (file_at path_backup (final (body w1)) = Some (File now data) →
          isdir p (Dir (files (final (body w1)))) = false →
          ∃ w3 w',
            file_at path_backup w3 = Some (File now data)
            ∧ remove false path_backup w3 = Done w'
            ∧ file_at path_backup w' = None
            ∧ match body w1 with
              | Raised e _ =>
                  create_backup now false p body w = Raised e w'
                  ∧ file_at p w3 = Some (File now data)
                  ∧ file_at p w' = Some (File now data)
              | Done w2 =>
                  create_backup now false p body w = Done w'
                  ∧ w3 = w2
                  ∧ file_at p w' = file_at p w2
              end)).
Proof.
  intros Hp path_backup. split; [|split].
  - intros Hq dry_run. unfold create_backup. fold path_backup. by rewrite Hq.
  - intros Hq. unfold create_backup. fold path_backup. rewrite Hq.
    unfold copy, remove. cbn [bind id]. by destruct (body w).
  - intros Hq.
    destruct (create_backup_guard now p body w t data Hp Hq)
      as (d1 & Hc & Hgq & Hgp & Hrest).
    exists (with_files d1 w). split; [exact Hc|]. split; [exact Hgq|].
    split; [exact Hgp|]. intros Hkeep Hdir.
    destruct (Hrest Hkeep Hdir) as (w3 & d' & Hq3 & Hr & Hgq' & Hgp' & Hout).
    exists w3, (with_files d' w3). split; [exact Hq3|]. split; [exact Hr|].
    split; [exact Hgq'|].
    destruct (body (with_files d1 w)) as [w2|e w2].
    + destruct Hout as [Hrun ->]. split; [exact Hrun|]. split; [done|].
      exact Hgp'.
    + destruct Hout as (Hrun & Hp3 & _). split; [exact Hrun|].
      split; [exact Hp3|]. unfold file_at in *. cbn [files with_files].
      by rewrite Hgp'.
Qed.

(** The guard of a file [doc]: with [doc~] left behind it refuses, in
    either mode; in dry-run mode it is the region; otherwise a region
    that overwrites [doc] and raises ends with [old] back in [doc], one
    that returns ends with what it wrote, and [doc~] is gone
    either way. *)
Lemma create_backup_refuses_restores_and_cleans_up_witness :
  (create_backup 7 false ["doc"] failing_region stale_world
   = Raised RuntimeError stale_world
   ∧ create_backup 7 true ["doc"] failing_region stale_world
     = Raised RuntimeError stale_world)
  ∧ create_backup 7 true ["doc"] failing_region backup_world
    = failing_region backup_world
  ∧ (∃ w3 w',
       file_at ["doc~"] w3 = Some (File 7 (Text "old"))
       ∧ remove false ["doc~"] w3 = Done w'
       ∧ file_at ["doc~"] w' = None
       ∧ create_backup 7 false ["doc"] failing_region backup_world
         = Raised ValueError w'
       ∧ file_at ["doc"] w3 = Some (File 7 (Text "old"))
       ∧ file_at ["doc"] w' = Some (File 7 (Text "old")))
  ∧ (∃ w3 w',
       file_at ["doc~"] w3 = Some (File 7 (Text "old"))
       ∧ remove false ["doc~"] w3 = Done w'
       ∧ file_at ["doc~"] w' = None
       ∧ create_backup 7 false ["doc"] writing_region backup_world = Done w'
       ∧ file_at ["doc"] w' = Some (File 5 (Text "new"))).
Proof.
  destruct (create_backup_refuses_restores_and_cleans_up 7 ["doc"]
              failing_region stale_world 0 (Text "old") eq_refl)
    as (Hstale & _ & _).
  destruct (create_backup_refuses_restores_and_cleans_up 7 ["doc"]
              failing_region backup_world 0 (Text "old") eq_refl)
    as (_ & Hdry & Hraise).
  destruct (create_backup_refuses_restores_and_cleans_up 7 ["doc"]
              writing_region backup_world 0 (Text "old") eq_refl)
    as (_ & _ & Hreturn).
  split; [split; apply Hstale; reflexivity|].
  split; [apply Hdry; reflexivity|]. split.
  - destruct (Hraise eq_refl) as (w1 & Hc & _ & _ & Hrest).
    injection Hc as <-.
    destruct (Hrest eq_refl eq_refl) as (w3 & w' & H3 & Hr & Hq & Hrun & Hp3 & Hp).
    exists w3, w'. repeat split; assumption.
  - destruct (Hreturn eq_refl) as (w1 & Hc & _ & _ & Hrest).
    injection Hc as <-.
    destruct (Hrest eq_refl eq_refl) as (w3 & w' & H3 & Hr & Hq & Hrun & -> & Hp).
    exists (with_files [("doc", File 5 (Text "new")); ("doc~", File 7 (Text "old"))]
              backup_world), w'.
    repeat split; assumption.
Defined.

(** C7 as stated fails in dry-run mode.  The guard of [doc] around a
    region that overwrites [doc] and raises makes no duplicate and puts
    nothing back: [doc] keeps what the region wrote.  [sync_jobs] gets
    there in a dry run on documents kept in files: the nested call of
    [ByKey] writes [b.d] to the destination document, the conflict on
    [b.c] is raised, and the document file keeps [b.d]. *)
Lemma create_backup_in_dry_run_restores_nothing :
  file_at ["doc"] backup_world = Some (File 0 (Text "old"))
  ∧ create_backup 7 true ["doc"] failing_region backup_world
    = Raised ValueError
        (with_files [("doc", File 5 (Text "new"))] backup_world)
  ∧ (let o := sync_jobs 7 literal_match nested_src nested_dst None [] None ∅
                true false in
     workspace_entry FN_DOCUMENT nested_dst
     = Some (File 0 (Json [("b", VMap [("c", VInt 3)])]))
     ∧ raised o = Some (DocumentSyncConflict {[ "b.c" ]})
     ∧ workspace_entry FN_DOCUMENT (final o).1
       = Some (File 7 (Json [("b", VMap [("c", VInt 3); ("d", VInt 5)])]))
     ∧ workspace_entry (FN_DOCUMENT +:+ "~") (final o).1 = None).
Proof. repeat split; by vm_compute. Qed.

(** The guard outside dry-run mode, evaluated: the region has
    overwritten [doc], the guard puts [old] back and removes [doc~]. *)
Example create_backup_restores_doc :
  create_backup 7 false ["doc"] failing_region backup_world
  = Raised ValueError (with_files [("doc", File 7 (Text "old"))] backup_world).
Proof. reflexivity. Qed.

(** ** A conflict is raised at the end, and the document put back *)



Lemma load_file_at w fn :
  doc w = JSonDict fn →
  load w = match file_at [fn] w with
           | Some (File _ (Json d)) => d
           | _ => []
           end.
Proof. intros H. unfold load. by rewrite H, file_at_top. Qed.

Lemma save_stamped now d w fn :
  doc w = JSonDict fn → stamped now fn (save now d w).
Proof.
  intros H. unfold stamped, save. rewrite H, file_at_top. simpl.
  rewrite dict_get_dir_put_eq. split; [done|]. by exists d.
Qed.



(** A document synchronization leaves the document file a file. *)
Lemma call_doc_sync_is_file now f src dry_run w fn :
  doc w = JSonDict fn →
  is_file (file_at [fn] w) = true →
  is_file (file_at [fn] (final (call_doc_sync now f src dry_run w))) = true.
Proof.
  intros Hdoc Hfile.
  assert (∀ d w1, doc w1 = JSonDict fn →
                  is_file (file_at [fn] (save now d w1)) = true) as Hsave.
  { intros d w1 H1. destruct (save_stamped now d w1 fn H1) as [_ [d' Hd']].
    by rewrite Hd'. }
  unfold call_doc_sync. destruct f as [| | |ks]; try done.
  - cbn [final]. unfold DocSync_update.
    assert (∀ keys w1, doc w1 = JSonDict fn →
              is_file (file_at [fn] w1) = true →
              is_file (file_at [fn]
                (foldl (λ w key,
                          match dict_get key src with
                          | Some v => _DocProxy_setitem now dry_run key v w
                          | None => w
                          end) w1 keys)) = true) as Hfold.
    { induction keys as [|key keys IH]; intros w1 H1 Hf1; simpl; [done|].
      destruct (dict_get key src); [|by apply IH].
      unfold _DocProxy_setitem. destruct dry_run; [by apply IH|].
      apply IH; [|by apply Hsave].
      by destruct (save_stamped now (dict_set key v (load w1)) w1 fn H1). }
    by apply Hfold.
  - cbv zeta.
    assert (∀ s : value * gset string,
              is_file (file_at [fn]
                match s.1 with
                | VMap d =>
                    if value_same (VMap d) (VMap (load (with_skipped s.2 w)))
                    then with_skipped s.2 w
                    else save now d (with_skipped s.2 w)
                | _ => with_skipped s.2 w
                end) = true) as Hstore.
    { intros [v sk]. cbn [fst snd]. destruct v as [| | |d]; try done.
      case_if; [done|]. by apply Hsave. }
    destruct (DocSync.call ks dry_run (VMap src) (VMap (load w)) "" (skipped w))
      as [s|e s]; cbn [final]; apply Hstore.
Qed.




(** ** A merge into a job that is present and empty *)

Lemma same_content_refl a : same_content a a.
Proof. by destruct a as [[|]|]. Qed.

Lemma same_content_sym a b : same_content a b → same_content b a.
Proof. by destruct a as [[|]|], b as [[|]|]. Qed.

Lemma same_content_trans a b c :
  same_content a b → same_content b c → same_content a c.
Proof.
  destruct a as [[|]|], b as [[|]|], c as [[|]|]; simpl; try done;
    by intros -> ->.
Qed.

Lemma same_content_copied now n : same_content (Some (copied now n)) (Some n).
Proof. by destruct n. Qed.

Lemma excluded_none re_match exclude fn :
  (∀ p, p ∈ exclude → re_match p fn = false) →
  excluded re_match exclude fn = false.
Proof.
  intros Hnone. unfold excluded. apply andb_false_iff. right.
  apply not_true_is_false. intros [p [Hin Hp]]%existsb_exists.
  apply list_elem_of_In in Hin. by rewrite (Hnone p Hin) in Hp.
Qed.

(** One round of the loop over [diff.left_only], for an entry that is
    not excluded and not there yet. *)
Lemma copy_new_entry now src k n w :
  get_node [k] (Dir src) = Some n →
  dict_get k (files w) = None →
  (if is_file (Some n)
   then copy now false src [k] [k] w
   else copytree false src [k] [k] w)
  = Done (with_files (dir_put k (copied now n) (files w)) w).
Proof.
  intros Hsrc Hnew.
  assert (get_node [k] (Dir (files w)) = None) as Hget
    by (simpl; by rewrite Hnew).
  destruct n as [t data|es]; simpl is_file; cbv iota.
  - unfold copy, shutil_copy, isdir. rewrite Hsrc, Hget. cbn [is_dir].
    by rewrite Hget.
  - unfold copytree, shutil_copytree. by rewrite Hsrc, Hget.
Qed.

(** The loop over [diff.left_only], on names the destination does not
    have: it returns, and has copied the entries that are not
    excluded. *)
Lemma for_each_left_only now re_match src exclude (l : list (string * node)) :
  NoDup l.*1 →
  (∀ e, e ∈ l → get_node [e.1] (Dir src) = Some e.2) →
  ∀ w,
    (∀ e, e ∈ l → dict_get e.1 (files w) = None) →
    ∃ d,
      for_each (λ e w,
          let fn := e.1 in
          if excluded re_match exclude fn then Done w
          else if is_file (Some e.2)
               then copy now false src ([] ++ [fn]) ([] ++ [fn]) w
               else copytree false src ([] ++ [fn]) ([] ++ [fn]) w)
        l w = Done (with_files d w)
      ∧ (∀ k n, (k, n) ∈ l → excluded re_match exclude k = false →
                dict_get k d = Some (copied now n))
      ∧ (∀ k, (k ∉ l.*1 ∨ excluded re_match exclude k = true) →
              dict_get k d = dict_get k (files w)).
Proof.
  intros Hnd Hsrc. induction l as [|[k0 n0] l IH]; intros w Hnew.
  - exists (files w). simpl. rewrite with_files_same. split; [done|].
    split; [|done]. intros k n Hin. by apply elem_of_nil in Hin.
  - rewrite fmap_cons in Hnd. apply NoDup_cons in Hnd as [Hk0 Hnd].
    cbn [fst] in Hk0.
    assert (∀ e, e ∈ l → get_node [e.1] (Dir src) = Some e.2) as Hsrc'
      by (intros e He; apply Hsrc; by right).
    specialize (IH Hnd Hsrc').
    cbn [for_each]. cbv zeta. cbn [fst snd app].
    destruct (excluded re_match exclude k0) eqn:Hex.
    + destruct (IH w) as (d & Hrun & Hin & Hout).
      { intros e He. apply Hnew. by right. }
      exists d. split; [exact Hrun|]. split.
      * intros k n Hkn Hx. apply elem_of_cons in Hkn as [[= -> ->]|Hkn];
          [by rewrite Hex in Hx|by apply Hin].
      * intros k [Hk|Hk]; apply Hout.
        -- left. intros Hl. apply Hk. rewrite fmap_cons. by right.
        -- by right.
    + rewrite (copy_new_entry now src k0 n0 w).
      2: { apply (Hsrc (k0, n0)). by left. }
      2: { apply (Hnew (k0, n0)). by left. }
      set (w1 := with_files (dir_put k0 (copied now n0) (files w)) w).
      destruct (IH w1) as (d & Hrun & Hin & Hout).
      { intros e He. unfold w1. cbn [files with_files].
        rewrite dict_get_dir_put_ne; [apply Hnew; by right|].
        intros ->. apply Hk0. apply list_elem_of_fmap. by exists e. }
      exists d. split; [exact Hrun|]. split.
      * intros k n Hkn Hx. apply elem_of_cons in Hkn as [[= -> ->]|Hkn];
          [|by apply Hin].
        rewrite Hout by (by left). unfold w1. cbn [files with_files].
        apply dict_get_dir_put_eq.
      * intros k Hk.
        assert (k ≠ k0) as Hne.
        { intros ->. destruct Hk as [Hk|Hk]; [|by rewrite Hex in Hk].
          apply Hk. rewrite fmap_cons. by left. }
        rewrite Hout.
        -- unfold w1. cbn [files with_files]. by apply dict_get_dir_put_ne.
        -- destruct Hk as [Hk|Hk]; [left|by right].
           intros Hl. apply Hk. rewrite fmap_cons. by right.
Qed.

(** The walk of a source workspace into a destination that has the
    manifest alone: it returns; an entry that is listed and not
    excluded has been copied, the manifest is what it was, and there is
    nothing else. *)
Lemma _sync_job_workspaces_fresh now re_match fs strategy exclude deep w m :
  NoDup fs.*1 →
  files w = [(FN_MANIFEST, m)] →
  is_dir (Some m) = false →
  excluded re_match exclude FN_MANIFEST = true →
  ∃ d,
    _sync_job_workspaces now re_match fs strategy exclude false deep
      (Dir fs) [] w = Done (with_files d w)
    ∧ dict_get FN_MANIFEST d = Some m
    ∧ (∀ k n, (k, n) ∈ fs → k ≠ FN_MANIFEST → listed k = true →
              excluded re_match exclude k = false →
              dict_get k d = Some (copied now n))
    ∧ (∀ k, k ≠ FN_MANIFEST →
            (k ∉ fs.*1 ∨ excluded re_match exclude k = true) →
            dict_get k d = None).
Proof.
  intros Hnd Hfiles Hm Hex.
  rewrite _sync_job_workspaces_Dir. cbn [get_node]. rewrite Hfiles.
  set (r := [(FN_MANIFEST, m)]).
  assert (∀ k, dict_get k r = if String.eqb FN_MANIFEST k then Some m else None)
    as Hr by done.
  (* the first loop *)
  destruct (for_each_left_only now re_match fs exclude (left_only fs r)) with (w := w)
    as (d & Hrun & Hin & Hout).
  { unfold left_only, left_list. by do 2 apply NoDup_fmap_filter. }
  { intros [k n] He. apply left_only_in in He. simpl.
    by rewrite (dict_get_In fs k n Hnd He). }
  { intros e He. rewrite Hfiles. by apply (left_only_absent fs r). }
  cbv zeta in Hrun |- *. rewrite Hrun. cbn [bind id].
  (* the second loop *)
  rewrite for_each_unchanged.
  2: { intros e He. apply diff_files_in in He as (_ & _ & f & Hf & _).
       rewrite Hr in Hf. destruct (String.eqb FN_MANIFEST e.1) eqn:E; [|done].
       apply String.eqb_eq in E as <-. by rewrite Hex. }
  cbn [bind id].
  (* the third loop *)
  rewrite for_each_unchanged.
  2: { intros e He. destruct (is_subdir fs r e) eqn:Hsub; [|done].
       unfold is_subdir in Hsub. apply bool_decide_eq_true in Hsub.
       apply common_dirs_is_dir in Hsub. rewrite Hr in Hsub.
       destruct (String.eqb FN_MANIFEST e.1); [|done].
       by rewrite Hm in Hsub. }
  exists d. split; [done|]. split; [|split].
  - rewrite Hout, Hfiles; [by rewrite Hr|]. by right.
  - intros k n Hkn Hk Hl Hx. apply Hin; [|done].
    apply left_only_elem; [done|done|]. rewrite Hr.
    destruct (String.eqb FN_MANIFEST k) eqn:E; [|done].
    by apply String.eqb_eq in E.
  - intros k Hk Hno. rewrite Hout.
    + rewrite Hfiles, Hr. destruct (String.eqb FN_MANIFEST k) eqn:E; [|done].
      by apply String.eqb_eq in E.
    + destruct Hno as [Hno|Hno]; [left|by right].
      intros Hl. apply Hno. apply list_elem_of_fmap in Hl as (e & -> & He).
      apply left_only_in in He. apply list_elem_of_fmap. by exists e.
Qed.

Lemma _DocProxy_update_skipped now dry_run other keys :
  ∀ w,
    skipped (foldl (λ w key,
                      match dict_get key other with
                      | Some v => _DocProxy_setitem now dry_run key v w
                      | None => w
                      end) w keys) = skipped w.
Proof.
  induction keys as [|key keys IH]; intros w; simpl; [done|].
  rewrite IH. destruct (dict_get key other); [|done].
  unfold _DocProxy_setitem, save. destruct dry_run; [done|].
  by destruct (doc w).
Qed.

Lemma load_with_skipped sk w : load (with_skipped sk w) = load w.
Proof. done. Qed.

(** A document synchronization into an empty document, by a functor
    that has no key on record or has a key strategy: it returns, and
    the document is that of the source. *)
Lemma call_doc_sync_fills now f src w :
  load w = [] →
  NoDup (dict_keys src) →
  syncs_documents f = true →
  (f = ByKey None → skipped w = ∅) →
  ∃ w2, call_doc_sync now f src false w = Done w2
        ∧ load w2 = src ∧ skipped w2 = skipped w.
Proof.
  intros Hempty Hnd Hsync Hfresh. destruct f as [| | |ks]; try done.
  - eexists. split; [done|]. split.
    + unfold DocSync_update. rewrite _DocProxy_update_load, Hempty.
      apply (update_keys_disjoint src [] Hnd (λ _ _, eq_refl) src [] eq_refl).
    + apply _DocProxy_update_skipped.
  - unfold call_doc_sync. rewrite Hempty.
    destruct src as [|e src].
    + eexists. split; [done|]. cbn [fst snd].
      rewrite load_with_skipped, Hempty. cbn [value_same].
      rewrite with_skipped_same. done.
    + assert (DocSync.call ks false (VMap (e :: src)) (VMap []) "" (skipped w)
              = Done (VMap (e :: src), skipped w)) as ->.
      { rewrite call_VMap.
        replace (value_eqb (VMap (e :: src)) (VMap [])) with false
          by (by rewrite value_eqb_VMap).
        rewrite items_loop_disjoint; [|done|done]. cbn [bind id app].
        unfold DocSync.check_skipped. cbn [snd].
        destruct ks as [g|]; [by case_if|].
        rewrite Hfresh by done.
        by rewrite (bool_decide_eq_false_2 ((∅ : gset string) ≠ ∅))
          by (by intros H). }
      eexists. split; [done|]. cbn [fst snd].
      rewrite load_with_skipped, Hempty.
      replace (value_same (VMap (e :: src)) (VMap [])) with false
        by (by destruct e).
      split; [apply load_save|]. unfold save. cbn [doc with_skipped].
      by destruct (doc w).
Qed.

Lemma job_doc_world_job j w : job_doc (world_job j w) = load w.
Proof. done. Qed.

Lemma workspace_entry_world_job j w k :
  workspace_entry k (world_job j w) = file_at [k] w.
Proof. unfold workspace_entry. simpl. by rewrite file_at_top. Qed.

Lemma init_document now j : job_document (init now j) = job_document j.
Proof.
  unfold init. destruct (job_files j) as [d|]; [|done]. by case_if.
Qed.

Lemma init_workspace now j : workspace (init now j) = workspace j.
Proof.
  unfold init. destruct (job_files j) as [d|]; [|done]. by case_if.
Qed.

Lemma same_contents_refl a : same_contents a a.
Proof. split; [done|]. intros name _. apply same_content_refl. Qed.

Lemma same_contents_sym a b : same_contents a b → same_contents b a.
Proof.
  intros [Hd Hw]. split; [done|]. intros name Hn.
  by apply same_content_sym, Hw.
Qed.

Lemma same_contents_trans a b c :
  same_contents a b → same_contents b c → same_contents a c.
Proof.
  intros [Hd Hw] [Hd' Hw']. split; [congruence|]. intros name Hn.
  apply (same_content_trans _ (workspace_entry name b)); auto.
Qed.

(** A merge, outside dry-run mode, into a job that has the manifest
    alone and an empty document, of a source workspace whose entries
    are listed and match no pattern in use: it returns, and the job has
    the contents of the source job. *)
Lemma sync_jobs_fresh now re_match src dst strategy exclude f sk deep fs
    t t' md :
  job_files src = Some fs →
  NoDup fs.*1 →
  dict_get FN_MANIFEST fs = Some (File t md) →
  (∀ fn, job_document src = JSonDict fn → fn = FN_DOCUMENT) →
  NoDup (dict_keys (job_doc src)) →
  workspace src ≠ workspace dst →
  job_files (init now dst) = Some [(FN_MANIFEST, File t' md)] →
  job_document dst = empty_document (job_document src) →
  re_match FN_MANIFEST FN_MANIFEST = true →
  (is_COPY f = false → re_match FN_DOCUMENT FN_DOCUMENT = true) →
  brings_document f sk (job_document src) →
  (∀ k, k ∈ fs.*1 → k ≠ FN_MANIFEST →
        (k = FN_DOCUMENT → is_COPY f = true) →
        listed k = true
        ∧ ∀ p, p ∈ patterns_in_use exclude f → re_match p k = false) →
  ∃ merged,
    sync_jobs now re_match src dst strategy exclude (Some f) sk false deep
    = Done (merged, sk)
    ∧ same_contents merged src.
Proof.
  intros Hfs Hnd Hms Hfn Hdnd Hws Hinit Hdoc Hman Hdocm Hbrings Hnames.
  unfold sync_jobs. apply not_eq_sym in Hws.
  apply String.eqb_neq in Hws. rewrite String.eqb_sym in Hws.
  rewrite Hws, Hfs.
  change (default (ByKey None) (Some f)) with f.
  fold (patterns_in_use exclude f). set (excl := patterns_in_use exclude f).
  assert (excluded re_match excl FN_MANIFEST = true) as Hexm.
  { apply excluded_elem; [|done]. unfold excl, patterns_in_use.
    destruct (is_COPY f).
    - apply elem_of_app. right. by left.
    - apply elem_of_app. left. apply elem_of_app. right. by left. }
  set (w0 := job_world (init now dst) sk).
  assert (files w0 = [(FN_MANIFEST, File t' md)]) as Hfiles
    by (unfold w0, job_world; cbn [files]; by rewrite Hinit).
  destruct (_sync_job_workspaces_fresh now re_match fs strategy excl deep w0
              (File t' md) Hnd Hfiles eq_refl Hexm)
    as (d & Hwalk & Hdm & Hin & Hout).
  rewrite Hwalk. cbn [bind id].
  set (w1 := with_files d w0).
  assert (doc w1 = empty_document (job_document src)) as Hdoc1.
  { unfold w1, w0, job_world. cbn [doc with_files].
    by rewrite init_document. }
  (* the entries of the workspace after the walk *)
  assert (∀ k, k ≠ FN_DOCUMENT ∨ is_COPY f = true →
               same_content (dict_get k d) (dict_get k fs)) as Hentries.
  { intros k Hk. destruct (decide (k = FN_MANIFEST)) as [->|Hkm].
    { by rewrite Hdm, Hms. }
    destruct (dict_get k fs) as [n|] eqn:Hget.
    - apply dict_get_Some_In in Hget.
      destruct (Hnames k) as [Hl Hnone]; [|done| |].
      { apply list_elem_of_fmap. by exists (k, n). }
      { intros ->. by destruct Hk. }
      rewrite (Hin k n Hget Hkm Hl (excluded_none _ _ _ Hnone)).
      apply same_content_copied.
    - apply dict_get_None_keys in Hget. rewrite Hout; [done|done|by left]. }
  assert (∀ w2, skipped w2 = sk → load w2 = job_doc src →
                (∀ k, k ≠ FN_DOCUMENT → file_at [k] w2 = dict_get k d) →
                same_contents (world_job (init now dst) w2) src) as Hsame.
  { intros w2 Hsk2 Hload2 Hframe. split; [by rewrite job_doc_world_job|].
    intros k Hk. rewrite workspace_entry_world_job, Hframe by done.
    unfold workspace_entry. rewrite Hfs. simpl. apply Hentries. by left. }
  destruct (syncs_documents f) eqn:Hsync.
  - (* the documents are synchronized *)
    assert (is_COPY f = false) as Hcopy by (by destruct f).
    assert (excluded re_match excl FN_DOCUMENT = true) as Hexd.
    { apply excluded_elem; [|by apply Hdocm]. unfold excl, patterns_in_use.
      rewrite Hcopy. apply elem_of_app. right. by left. }
    assert (∀ fn, doc_file w1 = Some fn → fn = FN_DOCUMENT) as Hfn1.
    { intros fn. unfold doc_file. rewrite Hdoc1.
      destruct (job_document src) as [fn0|] eqn:Hjd; [|done].
      simpl. intros [= <-]. by apply Hfn. }
    assert (load w1 = []) as Hload1.
    { unfold load. rewrite Hdoc1.
      destruct (job_document src) as [fn0|] eqn:Hjd; [|done]. simpl.
      rewrite (Hfn fn0 eq_refl). unfold w1. cbn [files with_files].
      rewrite Hout; [done|done|by right]. }
    assert (backed_up_in_memory w1 = true) as Hmem.
    { unfold backed_up_in_memory. destruct (doc w1); [|done].
      unfold _DocProxy_len. rewrite Hload1. done. }
    rewrite create_doc_backup_in_memory by done.
    destruct (call_doc_sync_fills now f (load (job_world src ∅)) w1 Hload1 Hdnd
                Hsync) as (w2 & Hbody & Hload2 & Hsk2).
    { intros ->. by apply Hbrings. }
    rewrite Hbody. cbn [try_except bind fst snd].
    assert (skipped w2 = sk) as Hsk by (by rewrite Hsk2).
    rewrite Hsk. eexists. split; [done|]. apply Hsame; [done|done|].
    intros k Hk.
    assert (∀ fn, doc_file w1 = Some fn → apart [k] [fn]) as Hap.
    { intros fn ->%Hfn1. by apply apart_here. }
    pose proof (call_doc_sync_frame now [k] w1 Hap f (load (job_world src ∅))
                  false w1 (same_at_refl _ _)) as [_ Hk2].
    rewrite Hbody in Hk2. cbn [final] in Hk2. rewrite Hk2.
    by rewrite file_at_top.
  - (* the document is copied like any other file *)
    destruct f as [| | |ks]; try done. destruct Hbrings as [fn Hjd].
    cbn [bind fst snd]. eexists. split; [done|].
    apply Hsame; [done| |intros k _; by rewrite file_at_top].
    pose proof (Hfn fn Hjd) as ->.
    unfold job_doc. rewrite (load_file_at w1 FN_DOCUMENT)
      by (by rewrite Hdoc1, Hjd).
    rewrite (load_file_at (job_world src ∅) FN_DOCUMENT) by done.
    rewrite !file_at_top. unfold w1, job_world. cbn [files with_files].
    rewrite Hfs. change (default [] (Some fs)) with fs.
    specialize (Hentries FN_DOCUMENT (or_intror eq_refl)).
    destruct (dict_get FN_DOCUMENT d) as [[? ?|?]|],
             (dict_get FN_DOCUMENT fs) as [[? ?|?]|]; simpl in Hentries;
      try done. by subst.
Qed.

(** ** A second synchronization with [DocSync.update] *)

Lemma dict_set_same {A} k (v : A) d : dict_get k d = Some v → dict_set k v d = d.
Proof.
  induction d as [|[k' w] d IH]; simpl; [done|].
  destruct (String.eqb k' k) eqn:E.
  - apply String.eqb_eq in E as ->. by intros [= ->].
  - intros H. by rewrite IH.
Qed.

Lemma update_keys_same src keys : update_keys src keys src = src.
Proof.
  unfold update_keys. induction keys as [|key keys IH]; simpl; [done|].
  destruct (dict_get key src) as [v|] eqn:Hget; [|done].
  by rewrite (dict_set_same key v src Hget).
Qed.

(** [DocSync.update] with the document that is there already. *)
Lemma DocSync_update_same now dry_run src w :
  load w = src →
  let w2 := DocSync_update now dry_run src w in
  load w2 = src ∧ skipped w2 = skipped w
  ∧ ∀ k, (∀ fn, doc_file w = Some fn → k ≠ fn) →
         file_at [k] w2 = file_at [k] w.
Proof.
  intros Hload w2. split; [|split].
  - unfold w2, DocSync_update. destruct dry_run.
    + by rewrite _DocProxy_update_dry_run.
    + rewrite _DocProxy_update_load, Hload. apply update_keys_same.
  - apply _DocProxy_update_skipped.
  - intros k Hk.
    assert (∀ fn, doc_file w = Some fn → apart [k] [fn]) as Hap.
    { intros fn Hfn. apply apart_here. by apply Hk. }
    by destruct (_DocProxy_update_frame now [k] w Hap dry_run src
                   (dict_keys src) w (same_at_refl _ _)).
Qed.

Lemma create_doc_backup_update_same now dry_run src w :
  load w = src →
  (∀ fn, doc w = JSonDict fn → dict_get (fn +:+ "~") (files w) = None) →
  ∃ w', create_doc_backup now dry_run (call_doc_sync now update src) w
        = Done w'
        ∧ load w' = load w ∧ skipped w' = skipped w
        ∧ ∀ k, (∀ fn, doc w = JSonDict fn → k ≠ fn) →
               file_at [k] w' = file_at [k] w.
Proof.
  intros Hload Hstale.
  assert (∀ k, (∀ fn, doc w = JSonDict fn → k ≠ fn) →
               ∀ fn, doc_file w = Some fn → k ≠ fn) as Hdf.
  { intros k Hk fn. unfold doc_file. destruct (doc w) as [fn'|] eqn:Hd; [|done].
    intros [= <-]. by apply Hk. }
  destruct (backed_up_in_memory w) eqn:Hmem.
  - rewrite create_doc_backup_in_memory by done.
    unfold call_doc_sync. cbn [try_except].
    destruct (DocSync_update_same now dry_run src w Hload) as (Hl & Hs & Hf).
    eexists. split; [done|]. rewrite Hl, Hload. split; [done|].
    split; [done|]. intros k Hk. apply Hf. by apply Hdf.
  - unfold backed_up_in_memory in Hmem. unfold create_doc_backup.
    destruct (doc w) as [fn|m] eqn:Hdoc; [|done].
    rewrite Hmem. pose proof Hmem as Hcond.
    apply orb_false_iff in Hmem as [_ Hfile].
    apply negb_false_iff in Hfile.
    unfold isfile in Hfile. fold (file_at [fn] w) in Hfile.
    destruct (file_at [fn] w) as [[t data|]|] eqn:Hfn; try done.
    specialize (Hstale fn eq_refl).
    assert (file_at (path_suffix [fn] "~") w = None) as Hq.
    { change (path_suffix [fn] "~") with [fn +:+ "~"].
      by rewrite file_at_top. }
    destruct dry_run.
    + unfold create_backup.
      replace (isfile (path_suffix [fn] "~") (Dir (files w))) with false
        by (unfold isfile; fold (file_at (path_suffix [fn] "~") w);
            by rewrite Hq).
      unfold copy, remove, call_doc_sync.
      cbn [bind id try_except try_finally].
      destruct (DocSync_update_same now true src w Hload) as (Hl & Hs & Hf).
      eexists. split; [done|]. rewrite Hl, Hload. split; [done|].
      split; [done|]. intros k Hk. apply Hf. unfold doc_file. rewrite Hdoc.
      intros fn' [= <-]. by apply Hk.
    + destruct (create_backup_guard now [fn] (call_doc_sync now update src false)
                  w t data Hfn Hq) as (d1 & Hc & Hgq & Hgp & Hrest).
      set (w1 := with_files d1 w) in *.
      assert (doc w1 = JSonDict fn) as Hdoc1 by exact Hdoc.
      assert (file_at [fn] w1 = Some (File t data)) as Hfn1 by exact Hgp.
      assert (load w1 = src) as Hload1.
      { rewrite (load_file_at w1 fn Hdoc1), Hfn1, <- Hload.
        by rewrite (load_file_at w fn Hdoc), Hfn. }
      destruct (DocSync_update_same now false src w1 Hload1) as (Hl & Hs & Hf).
      set (w2 := DocSync_update now false src w1) in *.
      assert (∀ k, k ≠ fn → ∀ fn', doc_file w1 = Some fn' → k ≠ fn') as Hother.
      { intros k Hk fn'. unfold doc_file. rewrite Hdoc1. by intros [= <-]. }
      assert (fn +:+ "~" ≠ fn) as Hsuffix
        by (apply not_eq_sym; by apply append_suffix_ne).
      assert (file_at (path_suffix [fn] "~") w2 = Some (File now data)) as Hkeep.
      { change (path_suffix [fn] "~") with [fn +:+ "~"] in *.
        rewrite Hf; [exact Hgq|]. by apply Hother. }
      assert (is_file (file_at [fn] w2) = true) as Hfile2.
      { apply (call_doc_sync_is_file now update src false w1 fn Hdoc1).
        by rewrite Hfn1. }
      assert (doc w2 = JSonDict fn) as Hdoc2.
      { assert (∀ fn', doc_file w1 = Some fn' → apart [fn +:+ "~"] [fn'])
          as Hap by (intros fn' Hfn'; apply apart_here; by apply Hother).
        destruct (_DocProxy_update_frame now [fn +:+ "~"] w1 Hap false src
                    (dict_keys src) w1 (same_at_refl _ _)) as [Hd _].
        unfold doc_file in Hd. fold (DocSync_update now false src w1) in Hd.
        fold w2 in Hd. rewrite Hdoc1 in Hd.
        destruct (doc w2); [by injection Hd as ->|done]. }
      destruct Hrest as (w3 & d' & Hq3 & Hr & Hgq' & Hgp' & Hout).
      { exact Hkeep. }
      { unfold isdir. change (final (call_doc_sync now update src false w1))
          with w2. fold (file_at [fn] w2).
        by destruct (file_at [fn] w2) as [[|]|]. }
      change (call_doc_sync now update src false w1) with (Done w2) in Hout.
      destruct Hout as [Hout ->].
      exists (with_files d' w2). split; [exact Hout|]. split; [|split].
      * rewrite (load_file_at (with_files d' w2) fn Hdoc2).
        unfold file_at at 1. cbn [files with_files]. rewrite Hgp'.
        rewrite <- (load_file_at w2 fn Hdoc2). by rewrite Hl, Hload.
      * exact Hs.
      * intros k Hk. specialize (Hk fn eq_refl).
        destruct (decide (k = fn +:+ "~")) as [->|Hne].
        -- unfold file_at at 1. cbn [files with_files].
           change [fn +:+ "~"] with (path_suffix [fn] "~").
           by rewrite Hgq', Hq.
        -- assert (∀ fn', doc_file w = Some fn' → apart [k] [fn']) as Hap1.
           { intros fn'. unfold doc_file. rewrite Hdoc. intros [= <-].
             by apply apart_here. }
           assert (∀ fn', doc_file w = Some fn' → apart [k] [fn' +:+ "~"])
             as Hap2.
           { intros fn'. unfold doc_file. rewrite Hdoc. intros [= <-].
             by apply apart_here. }
           pose proof (create_doc_backup_frame now [k] w Hap1 update src false
                         w Hap2 (same_at_refl _ _)) as [_ Hk'].
           unfold create_doc_backup in Hk'. rewrite Hdoc, Hcond in Hk'.
           by rewrite Hout in Hk'.
Qed.

(** ** Clone or merge *)

(** A job synchronized with its clone: nothing is raised, and the clone
    has the contents it had; it is left as it is unless the document
    strategy is [update], which writes the document file again. *)
Lemma sync_jobs_clone_again now re_match src c strategy exclude f sk dry_run
    deep fs :
  job_files src = Some fs →
  job_files c = Some fs →
  job_document c = job_document src →
  workspace src ≠ workspace c →
  node_wf (Dir fs) = true →
  dict_contains FN_MANIFEST fs = true →
  value_wf (VMap (load (job_world src ∅))) = true →
  (∀ fn, job_document src = JSonDict fn →
         fn = FN_DOCUMENT ∧ dict_get (fn +:+ "~") fs = None) →
  ∃ again,
    sync_jobs now re_match src c strategy exclude (Some f) sk dry_run deep
    = Done (again, sk)
    ∧ same_contents again c
    ∧ (f ≠ update → again = c).
Proof.
  intros Hsrc Hc Hdoc Hws Hwf Hman Hdwf Hfile.
  assert (∀ g, g ≠ update →
               sync_jobs now re_match src c strategy exclude (Some g) sk
                 dry_run deep = Done (c, sk)) as Hsame.
  { intros g Hg.
    apply (sync_jobs_same_job now re_match src c strategy exclude g sk dry_run
             deep fs); try done.
    intros fn Hfn. by apply Hfile. }
  destruct f as [| | |ks].
  1, 2, 4: exists c; split; [by apply Hsame|];
           split; [apply same_contents_refl|done].
  unfold sync_jobs. apply String.eqb_neq in Hws. rewrite Hws, Hsrc.
  assert (init now c = c) as ->.
  { unfold init. by rewrite Hc, Hman. }
  rewrite (_sync_job_workspaces_same now re_match fs strategy _ dry_run deep
             (Dir fs) Hwf [] (job_world c sk)).
  2: { unfold job_world. simpl. by rewrite Hc. }
  2: done.
  cbn [bind id default syncs_documents].
  change (default (ByKey None) (Some update)) with update.
  cbn [syncs_documents].
  destruct (create_doc_backup_update_same now dry_run (load (job_world src ∅))
              (job_world c sk)) as (w' & Hrun & Hl & Hs & Hf).
  { unfold load, job_world. simpl. by rewrite Hsrc, Hc, Hdoc. }
  { intros fn Hfn. unfold job_world in *. simpl in *. rewrite Hc. simpl.
    apply Hfile. by rewrite <- Hdoc. }
  rewrite Hrun. cbn [bind fst snd]. rewrite Hs. cbn [skipped job_world].
  eexists. split; [done|]. split; [|done]. split.
  - by rewrite job_doc_world_job, Hl.
  - intros k Hk. rewrite workspace_entry_world_job, Hf.
    + rewrite file_at_top. unfold workspace_entry, job_world. cbn [files].
      rewrite Hc. simpl. apply same_content_refl.
    + intros fn Hfn. cbn [doc job_world] in Hfn. rewrite Hdoc in Hfn.
      destruct (Hfile fn Hfn) as [-> _]. done.
Qed.

Lemma same_contents_clone destination src_job :
  same_contents (cloned_job destination src_job) src_job.
Proof. split; [done|]. intros name _. apply same_content_refl. Qed.

(** C8, as amended: in a project synchronization each source job
    (materialized, with workspace [fs]) is cloned when the destination
    has no job of its ID: [_clone_or_sync] answers 1 and the destination
    holds a job with the workspace and the document of the source job;
    it is handed to [sync_jobs] when the destination has such a job, and
    [_clone_or_sync] answers 2.  A run that returns has counted as
    cloned the jobs to synchronize that the destination lacked and as
    synchronized those it had.  After a clone, [_clone_or_sync] on the
    same job takes the [sync_jobs] path and raises nothing, for a
    well-formed workspace with its manifest and without a leftover
    document backup, and a well-formed document: the destination is
    exactly what the clone made it unless the document strategy is
    [update], which writes the document file again, and with a document
    kept in the file [FN_DOCUMENT] the job has the contents of the
    clone under every strategy.  And these are the contents a single merge
    produces, the same [sync_jobs] into a job that is present and
    empty (the manifest alone, an empty document): outside dry-run mode,
    with a document strategy that brings the document, and a source
    workspace whose entries (the manifest apart, and the document file
    unless documents are copied) are listed by [dircmp] and match no
    pattern in use. *)
Theorem clone_or_sync_clones_merges_counts_and_keeps_the_clone
    (now : Z) (re_match : string → string → bool)
    (strategy : option strategy) (exclude : list string) (f : doc_sync)
    (dry_run : bool) (src_job : job) (destination : project)
    (sk : gset string) (fs : dir) :
  job_files src_job = Some fs →
  (jobs destination !! get_id src_job = None →
   let destination' :=
     with_jobs (<[get_id src_job := cloned_job destination src_job]>
                  (jobs destination)) destination in
   _clone_or_sync now re_match strategy exclude f dry_run src_job
     (destination, sk)
   = (Done (destination', sk), 1%nat)
   ∧ job_files (cloned_job destination src_job) = Some fs
   ∧ job_document (cloned_job destination src_job) = job_document src_job
   ∧ (workspace src_job ≠ workspace (cloned_job destination src_job) →
      node_wf (Dir fs) = true →
      dict_contains FN_MANIFEST fs = true →
      value_wf (VMap (load (job_world src_job ∅))) = true →
      (∀ fn, job_document src_job = JSonDict fn →
             dict_get (fn +:+ "~") fs = None) →
      (f ≠ update →
       _clone_or_sync now re_match strategy exclude f dry_run src_job
         (destination', sk)
       = (Done (destination', sk), 2%nat))
      ∧ ((∀ fn, job_document src_job = JSonDict fn → fn = FN_DOCUMENT) →
         ∃ again,
           _clone_or_sync now re_match strategy exclude f dry_run src_job
             (destination', sk)
           = (Done (with_jobs (<[get_id src_job := again]>
                                 (jobs destination')) destination', sk),
              2%nat)
           ∧ same_contents again (cloned_job destination src_job)
           ∧ ∀ dst_job t t' md,
               dry_run = false →
               brings_document f sk (job_document src_job) →
               re_match FN_MANIFEST FN_MANIFEST = true →
               (is_COPY f = false →
                re_match FN_DOCUMENT FN_DOCUMENT = true) →
               dict_get FN_MANIFEST fs = Some (File t md) →
               (∀ k, k ∈ fs.*1 → k ≠ FN_MANIFEST →
                     (k = FN_DOCUMENT → is_COPY f = true) →
                     listed k = true
                     ∧ ∀ p, p ∈ patterns_in_use exclude f →
                            re_match p k = false) →
               workspace src_job ≠ workspace dst_job →
               job_files (init now dst_job)
               = Some [(FN_MANIFEST, File t' md)] →
               job_document dst_job
               = empty_document (job_document src_job) →
               ∃ merged,
                 sync_jobs now re_match src_job dst_job strategy exclude
                   (Some f) sk false false = Done (merged, sk)
                 ∧ same_contents again merged)))
  ∧ (∀ dst_job,
       jobs destination !! get_id src_job = Some dst_job →
       let put (r : job * gset string) :=
         (with_jobs (<[get_id src_job := r.1]> (jobs destination)) destination,
          r.2) in
       _clone_or_sync now re_match strategy exclude f dry_run src_job
         (destination, sk)
       = (bind (sync_jobs now re_match src_job dst_job strategy exclude
                  (Some f) sk dry_run false)
            put (λ r, Done (put r)), 2%nat))
  ∧ (∀ source doc_sync selection check_schema p,
       project_wf source →
       sync_projects now re_match source destination strategy exclude doc_sync
         sk selection check_schema dry_run = Done p →
       num_cloned p
       = count_where (absent destination) (jobs_to_sync source selection)
       ∧ num_synchronized p
         = count_where (λ j, negb (absent destination j))
             (jobs_to_sync source selection)).
Proof.
  intros Hfs. split; [|split].
  - intros Habs destination'. split; [by apply _clone_or_sync_absent|].
    split; [exact Hfs|]. split; [done|].
    intros Hws Hwf Hman Hdwf Hstale. split.
    { intros Hf.
      by apply (_clone_or_sync_again now re_match strategy exclude f dry_run
                  src_job destination sk fs). }
    intros Hfn.
    assert (jobs destination' !! get_id src_job
            = Some (cloned_job destination src_job)) as Hc.
    { unfold destination'. simpl. apply lookup_insert_eq. }
    destruct (sync_jobs_clone_again now re_match src_job
                (cloned_job destination src_job) strategy exclude f sk dry_run
                false fs Hfs Hfs eq_refl Hws Hwf Hman Hdwf
                (λ fn H, conj (Hfn fn H) (Hstale fn H)))
      as (again & Hrun & Hsame & _).
    exists again. split; [|split; [exact Hsame|]].
    + rewrite (_clone_or_sync_present _ _ _ _ _ _ _ _ _ _ Hc).
      by rewrite Hrun.
    + intros dst_job t t' md -> Hbrings Hmm Hdm Hms Hnames Hws' Hinit Hdoc.
      apply node_wf_Dir in Hwf as [Hnd _].
      apply value_wf_VMap in Hdwf as [Hdnd _].
      destruct (sync_jobs_fresh now re_match src_job dst_job strategy exclude f
                  sk false fs t t' md Hfs Hnd Hms Hfn Hdnd Hws' Hinit Hdoc Hmm
                  Hdm Hbrings Hnames) as (merged & Hmerge & Hcontents).
      exists merged. split; [exact Hmerge|].
      apply (same_contents_trans _ (cloned_job destination src_job));
        [exact Hsame|].
      apply (same_contents_trans _ src_job);
        [apply same_contents_clone|by apply same_contents_sym].
  - intros dst_job Hl. by apply _clone_or_sync_present.
  - intros source doc_sync selection check_schema p Hwf Hrun.
    by apply (sync_projects_tally now re_match source destination strategy
                exclude doc_sync sk selection check_schema dry_run).
Qed.

(** The job X of [tmp_source], without exclude patterns: cloned into
    the empty destination (answer 1), synchronized again (answer 2),
    and merged into the destination that has X, present and empty, with
    the same contents. *)
Lemma clone_or_sync_clones_merges_counts_and_keeps_the_clone_witness :
  let destination' :=
    with_jobs (<[ "X" := cloned_job empty_destination tmp_src ]> ∅)
      empty_destination in
  _clone_or_sync 7 literal_match None [] (ByKey None) false tmp_src
    (empty_destination, ∅)
  = (Done (destination', ∅), 1%nat)
  ∧ _clone_or_sync 7 literal_match None [] (ByKey None) false tmp_src
      (destination', ∅)
    = (Done (destination', ∅), 2%nat)
  ∧ ∃ again merged,
      _clone_or_sync 7 literal_match None [] (ByKey None) false tmp_src
        (destination', ∅)
      = (Done (with_jobs (<[ "X" := again ]> (jobs destination'))
                 destination', ∅), 2%nat)
      ∧ sync_jobs 7 literal_match tmp_src (memory_job "/d" []) None []
          (Some (ByKey None)) ∅ false false = Done (merged, ∅)
      ∧ same_contents again merged.
Proof.
  destruct (clone_or_sync_clones_merges_counts_and_keeps_the_clone
              7 literal_match None [] (ByKey None) false tmp_src
              empty_destination ∅ tmp_files eq_refl) as [H _].
  destruct (H eq_refl) as (Hclone & _ & _ & Hagain).
  split; [exact Hclone|].
  destruct Hagain as [Hexact Hcontents].
  - discriminate.
  - reflexivity.
  - reflexivity.
  - reflexivity.
  - intros fn Hfn. discriminate Hfn.
  - split; [apply Hexact; discriminate|].
    destruct Hcontents as (again & Hrun & Hsame & Hmerge).
    { intros fn Hfn. discriminate Hfn. }
    destruct (Hmerge (memory_job "/d" []) 0 0 (Json [("p", VInt 1)]))
      as (merged & Hm & Hc).
    + reflexivity.
    + intros _. reflexivity.
    + reflexivity.
    + intros _. reflexivity.
    + reflexivity.
    + intros k Hk Hman Hdoc.
      apply elem_of_cons in Hk as [->|Hk]; [|apply elem_of_cons in Hk as [->|Hk]];
        [| |apply elem_of_cons in Hk as [->|Hk]].
      * split; [reflexivity|]. intros p Hp.
        apply elem_of_cons in Hp as [->|Hp]; [reflexivity|].
        apply elem_of_cons in Hp as [->|Hp]; [reflexivity|].
        by apply elem_of_nil in Hp.
      * done.
      * split; [reflexivity|]. intros p Hp.
        apply elem_of_cons in Hp as [->|Hp]; [reflexivity|].
        apply elem_of_cons in Hp as [->|Hp]; [reflexivity|].
        by apply elem_of_nil in Hp.
      * by apply elem_of_nil in Hk.
    + discriminate.
    + reflexivity.
    + reflexivity.
    + exists again, merged. split; [exact Hrun|]. split; [exact Hm|exact Hc].
Defined.

(** C8 as stated fails under an exclude pattern.  Synchronizing
    [tmp_source] into the empty destination with the pattern [tmp]
    clones X (counters 1 and 0); synchronizing again merges X (counters
    0 and 1) and raises nothing; X then has [tmp.log].  A single merge,
    the same synchronization into a destination that has X already
    (counters 0 and 1), leaves X with [keep.txt] and the document, and
    without [tmp.log].  The two also part ways, without a pattern, (2)
    with [NO_SYNC], where the merge leaves the document empty, (3) in
    a dry run, where the job is cloned all the same and the merge
    brings nothing, (4) on a file named [tags], which [dircmp] ignores,
    (5) with a [ByKey] functor that has a key on record, where the
    merge raises, and (6) on a backup of the document file left behind
    in the source workspace, which is cloned and makes the second
    synchronization raise [RuntimeError]. *)
Lemma clone_then_sync_differs_from_single_merge :
  let first := sync_projects 7 literal_match tmp_source empty_destination
                 None ["tmp"] None ∅ None true false in
  let second := sync_projects 7 literal_match tmp_source
                  (destination_now (final first))
                  None ["tmp"] None ∅ None true false in
  let merged := sync_projects 7 literal_match tmp_source merge_destination
                  None ["tmp"] None ∅ None true false in
  ((raised first, num_cloned (final first), num_synchronized (final first))
   = (None, 1%nat, 0%nat)
   ∧ (raised second, num_cloned (final second), num_synchronized (final second))
     = (None, 0%nat, 1%nat)
   ∧ (workspace_entry "tmp.log"
        <$> jobs (destination_now (final second)) !! "X")
     = Some (Some (File 1 (Text "scratch")))
   ∧ (raised merged, num_cloned (final merged), num_synchronized (final merged))
     = (None, 0%nat, 1%nat)
   ∧ (workspace_entry "keep.txt"
        <$> jobs (destination_now (final merged)) !! "X")
     = Some (Some (File 7 (Text "data")))
   ∧ (job_doc <$> jobs (destination_now (final merged)) !! "X")
     = Some [("a", VInt 1)]
   ∧ (workspace_entry "tmp.log"
        <$> jobs (destination_now (final merged)) !! "X")
     = Some None)
  ∧ (let run source destination doc_sync sk dry_run :=
       sync_projects 7 literal_match source destination None [] doc_sync sk
         None true dry_run in
     let twice source doc_sync sk dry_run :=
       run source
         (destination_now (final (run source empty_destination doc_sync sk
                                    dry_run)))
         doc_sync sk dry_run in
     let job_X (o : outcome progress) :=
       jobs (destination_now (final o)) !! "X" in
     (* NO_SYNC *)
     (raised (twice tmp_source (Some NO_SYNC) ∅ false) = None
      ∧ (job_doc <$> job_X (twice tmp_source (Some NO_SYNC) ∅ false))
        = Some [("a", VInt 1)]
      ∧ raised (run tmp_source merge_destination (Some NO_SYNC) ∅ false) = None
      ∧ (job_doc <$> job_X (run tmp_source merge_destination (Some NO_SYNC) ∅
                              false))
        = Some [])
     (* a dry run *)
     ∧ (raised (twice tmp_source None ∅ true) = None
        ∧ (workspace_entry "keep.txt" <$> job_X (twice tmp_source None ∅ true))
          = Some (Some (File 1 (Text "data")))
        ∧ raised (run tmp_source merge_destination None ∅ true) = None
        ∧ (workspace_entry "keep.txt"
             <$> job_X (run tmp_source merge_destination None ∅ true))
          = Some None)
     (* a name that dircmp ignores *)
     ∧ (raised (twice tags_source None ∅ false) = None
        ∧ (workspace_entry "tags" <$> job_X (twice tags_source None ∅ false))
          = Some (Some (File 1 (Text "v1")))
        ∧ raised (run tags_source merge_destination None ∅ false) = None
        ∧ (workspace_entry "tags"
             <$> job_X (run tags_source merge_destination None ∅ false))
          = Some None)
     (* a key on record *)
     ∧ (raised (twice tmp_source (Some (ByKey None)) {[ "x" ]} false) = None
        ∧ (job_doc <$> job_X (twice tmp_source (Some (ByKey None)) {[ "x" ]}
                                false))
          = Some [("a", VInt 1)]
        ∧ raised (run tmp_source merge_destination (Some (ByKey None))
                    {[ "x" ]} false)
          = Some (DocumentSyncConflict {[ "x" ]})
        ∧ (job_doc <$> job_X (run tmp_source merge_destination
                                (Some (ByKey None)) {[ "x" ]} false))
          = Some [])
     (* a backup left behind *)
     ∧ raised (run backup_source empty_destination None ∅ false) = None
     ∧ raised (twice backup_source None ∅ false) = Some RuntimeError).
Proof. repeat split; by vm_compute. Qed.
